(* ===== verification/_CoqProject ===== *)
-Q . S2P
Prelude.v
Header.v
Nla.v
Genl.v
Cli.v
Registry.v
Client.v
Server.v
System.v
