(* ===== verification/Prelude.v ===== *)
(** * A verification development of genl_ex, a generic-netlink example

    The program has two peers sharing the header [src/genl_ex.h]: the
    family name "genl_test", its three multicast groups, the command
    [GENL_TEST_C_MSG], the string attribute [GENL_TEST_ATTR_MSG] and its
    policy.
    - The kernel module [src/kernel/genl_ex.c] registers the family.
      A timer greets each group every [GENL_TEST_HELLO_INTERVAL] ms
      ([genl_test_periodic], [greet_group]).  Requests are logged by
      [genl_test_rx_msg].
    - The user-space client [src/genl_ex.c] parses its command line
      ([parse_cmd_line], [add_group]).  It then opens a socket, resolves
      the family and joins the requested groups ([prep_nl_sock]).
      Finally it either sends one message ([send_msg_to_kernel]) or
      prints what it receives ([print_rx_msg] in an [nl_recvmsgs] loop).
    The peers meet through libnl and the kernel's generic-netlink core.
    Those are not in the repository, so they are modelled from the spec.

    ** Files (in dependency order)
    - [Prelude]: the process monad [PM S A].  It passes state explicitly
      and ends in [Done], [Exited] (a call to [exit]) or [Crashed] (a
      NULL or out-of-bounds read).  Also here: w-bit integers as [Z] with
      [wrap], little-endian bytes, C strings ([cstr]), the invariant
      combinator [preserves], and the automation (hint and rewrite
      databases, [pm_preserves]).
    - [Header]: the header's constants, enums and both readings of
      [genl_test_policy]: the kernel's [.len] and libnl's [.maxlen].
    - [Nla]: the [struct nlattr] wire image ([nla_bytes]) and the walk
      [nla_for_each_attr].  Also libnl's and the kernel's [nla_parse]
      with their validation; both are spec-modelled.
    - [Genl]: the netlink and generic-netlink headers, and libnl's
      message builder and parser (Module [Libnl]).  Also the kernel's
      [sk_buff] builder (Module [Kern]), the request wire image
      [request_bytes], and the interface [GenlCtrl] that the controller
      offers the client.
    - [Cli]: the client's globals [cstate] and [parse_cmd_line] (lines
      14-97).  It uses the C library's [getopt], [strtok], [strtoul] and
      [strncpy], modelled from their specification (64-bit
      [unsigned long]).
    - [Registry]: the generic-netlink controller, a [gmap] from family
      name to id and group block, spec-modelled.  Its instance
      [registry_ctrl] discharges [GenlCtrl].
    - [Client]: the client's process state [client] (globals, socket,
      joined groups, datagrams sent).  It models [prep_nl_sock],
      [send_msg_to_kernel], [print_rx_msg], the receive loop and [main]
      (lines 98-239).  These are written against any [GenlCtrl] and an
      environment [nl_env] that says which library calls fail.
    - [Server]: the module's state [kstate]: registry, family, timer,
      clock, allocation count, live buffers, multicasts sent, and the
      printk log.  It models [greet_group], [genl_test_periodic],
      [genl_test_rx_msg], the receive path [genl_rcv_msg] (spec),
      [genl_test_init] and [genl_test_exit].  The module's life is the
      step relation [kstep] (load, timer expiry, request, clock tick,
      unload) with its reachability [kreach].
    - [System]: the two peers composed.  The client's environment comes
      from the module's state ([sys_env]), and multicasts are delivered
      to the groups a socket joined ([deliver]).

    ** What the theorems show
    - End to end ([System]).  A client run with [-l] prints the module's
      greeting for exactly the listed groups and keeps listening.  A
      client run with [-s -m] sends one request, which the module logs as
      "<port> says <msg>".
    - The module ([Server]).  Every reachable state satisfies [kinv]: the
      family is registered exactly while the module is loaded, its groups
      resolve to the block the controller gave, and the timer is pending
      at most one interval ahead.  From every loaded state the timer
      fires and greets the groups.  One firing greets groups 0, 1, 2 in
      order, and each group is skipped exactly when its own allocation
      fails.
    - The client ([Cli], [Client]).  Listen and send mode parse as
      intended, and exactly one mode is ever chosen.  The group mask
      stays below 8.  [prep_nl_sock] joins exactly the groups of the
      mask.  [main] sends exactly one request, and [print_rx_msg] prints
      a well-formed greeting.
    - The codec ([Nla]).  The stream walk reads back what was written
      (a round trip).  Each side's policy accepts or refuses the message
      attribute as its own reading of the table says.
    - Bugs the model exposed, each proved as a theorem: see the file
      docs, and the findings of the manifest.
      - [greet_group] leaks its first buffer.
      - [genl_test_rx_msg] reads past an unterminated string that the
        kernel's policy accepts.
      - [print_rx_msg] reads an uninitialised [attr[]] array on a short
        message.
      - [add_group] accepts 2^32 as group 0.
      - [-l ,] calls [strtoul(NULL)].
      - [main] exits with success after a failed send.

    ** Bounds and fuel
    - [nla_attrs] runs on fuel [length bs].  Each attribute consumes at
      least [NLA_HDRLEN] bytes, so this fuel is always enough, and
      [nla_attrs_fuel] proves that more fuel gives the same result.
    - [join_bits] counts the [sizeof(unsigned int)] = 4 loop iterations.
    - The receive loop runs over a finite list of transport events;
      [None] means the client is still waiting.
    - Allocation failures in the module are an oracle [oom : nat → bool]
      indexed by the allocation count.  Theorems hold for every oracle
      unless they name [λ _, false].
    - [HZ] is 250, and [GFP_ATOMIC] is 0xA20 (Linux 4.15 to 6.3).
    - Integers are kept at their C width where the code truncates: the
      [unsigned int] mask and the [u16]/[u32] header fields.

    ** Not modelled
    - The formatted text of usage and of diagnostics: only which message
      is printed is recorded.
    - The kernel's module and timer API as such: their effect is the
      step relation.
    - The pre-4.14 timer branch, which behaves the same.
    - Netlink ACKs and sequence checks, which the client disables.
    - Datagrams holding more than the messages the model lists.
    - Concurrency beyond the interleavings of [kstep]: the spec says the
      two entry points never run concurrently. *)

From stdpp Require Export base list gmap strings list_numbers.
From Stdlib Require Export ZArith Lia.

Declare Scope genl_scope.
Delimit Scope genl_scope with genl.
Open Scope Z_scope.

(** ** Processes that may exit or crash

    The C code ends processes with [exit()] in the middle of helper
    functions and can run into undefined behaviour (a NULL or
    uninitialised pointer).  [PM S A] threads an explicit state [S]
    (the program's globals and its output) and returns either a value,
    an exit status, or a crash. *)
Inductive outcome (A : Type) : Type :=
  | Done (a : A)
  | Exited (code : Z)
  | Crashed (why : string).
Arguments Done {A} a.
Arguments Exited {A} code.
Arguments Crashed {A} why.

Definition PM (S A : Type) : Type := S → outcome A * S.

Global Instance PM_ret S : MRet (PM S) := λ A a s, (Done a, s).
Global Instance PM_bind S : MBind (PM S) := λ A B f m s,
  match m s with
  | (Done a, s') => f a s'
  | (Exited c, s') => (Exited c, s')
  | (Crashed w, s') => (Crashed w, s')
  end.

Definition getS {S} : PM S S := λ s, (Done s, s).
Definition putS {S} (s : S) : PM S unit := λ _, (Done (), s).
Definition modifyS {S} (f : S → S) : PM S unit := λ s, (Done (), f s).
Definition exitS {S A} (code : Z) : PM S A := λ s, (Exited code, s).
Definition crashS {S A} (why : string) : PM S A := λ s, (Crashed why, s).

(** [EXIT_SUCCESS] and [EXIT_FAILURE] of <stdlib.h>. *)
Definition EXIT_SUCCESS : Z := 0.
Definition EXIT_FAILURE : Z := 1.

(** ** Machine integers and bytes

    A byte is a [Z] in [0, 256); a [w]-bit unsigned integer is a [Z]
    reduced modulo [2^w].  Netlink headers are in host byte order, which
    is little endian on the platforms the module targets. *)
Definition wrap (w : Z) (z : Z) : Z := z `mod` 2 ^ w.
Definition u8 (z : Z) : Z := wrap 8 z.
Definition u16 (z : Z) : Z := wrap 16 z.
Definition u32 (z : Z) : Z := wrap 32 z.
Definition u64 (z : Z) : Z := wrap 64 z.

Definition is_byte (b : Z) : Prop := 0 ≤ b < 256.
Global Instance is_byte_dec b : Decision (is_byte b) := _.
Definition bytes_ok (bs : list Z) : Prop := Forall is_byte bs.

(** [le_bytes n v]: the [n]-byte little-endian encoding of [v];
    [le_val bs]: the number a little-endian byte string denotes. *)
Definition le_bytes (n : Z) (v : Z) : list Z := Z_to_little_endian n 8 v.
Definition le_val (bs : list Z) : Z := little_endian_to_Z 8 bs.
Global Arguments le_bytes : simpl never.
Global Arguments le_val : simpl never.

(** ** C strings

    A C string is a byte list without NUL; [cstr bs] is the string a
    NUL-terminated buffer holds (its bytes up to the first NUL). *)
Definition NUL : Z := 0.
Definition cstring_ok (s : list Z) : Prop := bytes_ok s ∧ NUL ∉ s.

Fixpoint cstr (bs : list Z) : list Z :=
  match bs with
  | [] => []
  | b :: bs' => if decide (b = NUL) then [] else b :: cstr bs'
  end.

(** The bytes of a Rocq string literal, as the C compiler lays them out. *)
Definition bytes_of_string (s : string) : list Z :=
  (λ a, Z.of_nat (Ascii.nat_of_ascii a)) <$> String.list_ascii_of_string s.

(** ** Generic list lemmas *)
Lemma filter_Forall_id {A} (P : A → Prop) `{∀ x, Decision (P x)} (l : list A) :
  Forall P l → filter P l = l.
Proof. induction 1; [done|]. rewrite filter_cons, decide_True by done. by f_equal. Qed.

(** ** Reasoning about [PM] programs *)
Section pm_lemmas.
Context {S A B : Type}.
Implicit Types (m : PM S A) (k : A → PM S B) (s : S).

Lemma pm_bind_Done m k s a s' : m s = (Done a, s') → (m ≫= k) s = k a s'.
Proof. intros H. unfold mbind, PM_bind. by rewrite H. Qed.

Lemma pm_bind_Exited m k s c s' : m s = (Exited c, s') → (m ≫= k) s = (Exited c, s').
Proof. intros H. unfold mbind, PM_bind. by rewrite H. Qed.

Lemma pm_bind_Crashed m k s w s' : m s = (Crashed w, s') → (m ≫= k) s = (Crashed w, s').
Proof. intros H. unfold mbind, PM_bind. by rewrite H. Qed.

Lemma pm_bind_get (k : S → PM S B) s : (getS ≫= k) s = k s s.
Proof. done. Qed.

Lemma pm_bind_modify (f : S → S) (k : unit → PM S B) s : (modifyS f ≫= k) s = k () (f s).
Proof. done. Qed.

Lemma pm_ret_run (a : A) s : (mret a : PM S A) s = (Done a, s).
Proof. done. Qed.

(** A run that ends normally ran both halves normally. *)
Lemma pm_bind_Done_inv (m : PM S A) (k : A → PM S B) s b s'' :
  (m ≫= k) s = (Done b, s'') → ∃ a s', m s = (Done a, s') ∧ k a s' = (Done b, s'').
Proof.
  unfold mbind, PM_bind. destruct (m s) as [[a| |] s'] eqn:E; [|done|done].
  intros H. by exists a, s'.
Qed.

(** [preserves P m]: every run of [m] from a state satisfying [P] ends,
    whatever its outcome, in a state satisfying [P]. *)
Definition preserves {T} (P : S → Prop) (m : PM S T) : Prop := ∀ s, P s → P (m s).2.

Lemma preserves_ret (P : S → Prop) (a : A) : preserves P (mret a).
Proof. by intros s Hs. Qed.

Lemma preserves_bind (P : S → Prop) m k :
  preserves P m → (∀ a, preserves P (k a)) → preserves P (m ≫= k).
Proof.
  intros Hm Hk s Hs. unfold mbind, PM_bind. specialize (Hm s Hs).
  destruct (m s) as [[a|c|w] s']; simpl in *; auto. by apply Hk.
Qed.

Lemma preserves_modify (P : S → Prop) (f : S → S) :
  (∀ s, P s → P (f s)) → preserves P (modifyS f).
Proof. intros Hf s Hs. by apply Hf. Qed.

Lemma preserves_get (P : S → Prop) : preserves P getS.
Proof. by intros s Hs. Qed.

Lemma preserves_exit (P : S → Prop) c : preserves P (exitS (A:=A) c).
Proof. by intros s Hs. Qed.

Lemma preserves_crash (P : S → Prop) w : preserves P (crashS (A:=A) w).
Proof. by intros s Hs. Qed.
End pm_lemmas.

(** ** Automation *)
Create HintDb genl discriminated.
Create Rewrite HintDb genl_rw.
Create Rewrite HintDb pm_rw.

#[export] Hint Rewrite @pm_bind_get @pm_bind_modify @pm_ret_run : pm_rw.

(** One step of a [preserves] proof, following the program's structure. *)
Ltac pm_preserves :=
  repeat match goal with
  | |- preserves _ (mbind _ _) => apply preserves_bind; [|intros ?]
  | |- preserves _ (mret _) => apply preserves_ret
  | |- preserves _ getS => apply preserves_get
  | |- preserves _ (exitS _) => apply preserves_exit
  | |- preserves _ (crashS _) => apply preserves_crash
  | |- preserves _ (modifyS _) => apply preserves_modify; intros ? ?
  end.

Ltac unfold_pm := unfold mbind, mret, PM_bind, PM_ret, getS, putS, modifyS, exitS, crashS.

(** ** Generic lemmas on encodings and C strings *)
Section encodings.
Implicit Types (n v : Z) (bs rest s : list Z).

Lemma le_bytes_length n v : 0 ≤ n → length (le_bytes n v) = Z.to_nat n.
Proof.
  intros Hn. unfold le_bytes.
  by rewrite <-(Nat2Z.id (length _)), length_Z_to_little_endian.
Qed.

Lemma le_bytes_ok n v : 0 ≤ n → bytes_ok (le_bytes n v).
Proof.
  intros Hn. unfold bytes_ok, le_bytes.
  eapply Forall_impl; [apply Z_to_little_endian_bound; lia|].
  intros b Hb. unfold is_byte. simpl in Hb. lia.
Qed.

Lemma le_val_le_bytes n v : 0 ≤ n → le_val (le_bytes n v) = wrap (8 * n) v.
Proof.
  intros Hn. unfold le_val, le_bytes, wrap.
  rewrite little_endian_to_Z_to_little_endian by lia. f_equal. f_equal. lia.
Qed.

(** Reading an [n]-byte field at the front of a buffer gives back the
    value written there, reduced to [8 n] bits. *)
Lemma le_val_take_app n v rest k :
  0 ≤ n → k = Z.to_nat n → le_val (take k (le_bytes n v ++ rest)) = wrap (8 * n) v.
Proof.
  intros Hn ->. rewrite take_app_length' by (rewrite le_bytes_length; lia).
  by apply le_val_le_bytes.
Qed.

Lemma drop_le_bytes_app n v rest k :
  0 ≤ n → k = Z.to_nat n → drop k (le_bytes n v ++ rest) = rest.
Proof. intros Hn ->. rewrite drop_app_length'; [done|]. by rewrite le_bytes_length. Qed.

Lemma wrap_small w v : 0 ≤ v < 2 ^ w → wrap w v = v.
Proof. intros H. unfold wrap. by apply Z.mod_small. Qed.

Lemma wrap_range w v : 0 ≤ w → 0 ≤ wrap w v < 2 ^ w.
Proof. intros. unfold wrap. apply Z.mod_pos_bound. lia. Qed.

(** [x & (1 << i)] tests bit [i]. *)
Lemma land_shiftl1_eq0 m i : 0 ≤ i → Z.land m (Z.shiftl 1 i) = 0 ↔ Z.testbit m i = false.
Proof.
  intros Hi. rewrite Z.shiftl_1_l. split.
  - intros H. pose proof (f_equal (λ x, Z.testbit x i) H) as Hb. simpl in Hb.
    by rewrite Z.land_spec, Z.pow2_bits_true, Z.bits_0, andb_true_r in Hb by lia.
  - intros H. apply Z.bits_inj'. intros n Hn. rewrite Z.land_spec, Z.pow2_bits_eqb, Z.bits_0 by lia.
    destruct (Z.eqb_spec i n) as [<-|]; [by rewrite H|by rewrite andb_false_r].
Qed.

(** A value below [2^n] has no bit at [n] or above. *)
Lemma testbit_small m n i : 0 ≤ m < 2 ^ n → 0 ≤ n ≤ i → Z.testbit m i = false.
Proof.
  intros Hm Hi. apply (proj1 (Z.bounded_iff_bits_nonneg n m ltac:(lia) ltac:(lia))); lia.
Qed.

Lemma lor_lt_pow2 k a b :
  0 ≤ k → 0 ≤ a < 2 ^ k → 0 ≤ b < 2 ^ k → 0 ≤ Z.lor a b < 2 ^ k.
Proof.
  intros Hk Ha Hb. assert (0 ≤ Z.lor a b) by (apply Z.lor_nonneg; lia).
  split; [done|]. apply Z.bounded_iff_bits_nonneg; [lia|done|].
  intros l Hl. rewrite Z.lor_spec.
  rewrite (proj1 (Z.bounded_iff_bits_nonneg k a Hk (proj1 Ha)) (proj2 Ha) l Hl).
  by rewrite (proj1 (Z.bounded_iff_bits_nonneg k b Hk (proj1 Hb)) (proj2 Hb) l Hl).
Qed.

Lemma cstr_no_nul s : NUL ∉ s → cstr s = s.
Proof.
  induction s as [|b s IH]; intros Hs; [done|]. simpl.
  case_decide; [set_solver|]. rewrite IH; set_solver.
Qed.

Lemma cstr_app_nul s rest : NUL ∉ s → cstr (s ++ NUL :: rest) = s.
Proof.
  induction s as [|b s IH]; intros Hs; simpl; [done|].
  case_decide; [set_solver|]. rewrite IH; set_solver.
Qed.

Lemma cstr_prefix bs : ∃ rest, bs = cstr bs ++ rest.
Proof.
  induction bs as [|b bs IH]; simpl; [by exists []|]. destruct IH as [rest IH].
  case_decide as Hb; [by exists (b :: bs)|]. exists rest. by rewrite IH at 1.
Qed.

Lemma cstr_not_nul bs : NUL ∉ cstr bs.
Proof.
  induction bs as [|b bs IH]; simpl; [set_solver|].
  case_decide; set_solver.
Qed.

Lemma cstr_length bs : (length (cstr bs) ≤ length bs)%nat.
Proof. destruct (cstr_prefix bs) as [rest Hr]. rewrite Hr at 2. rewrite length_app. lia. Qed.
End encodings.

#[export] Hint Resolve le_bytes_ok cstr_not_nul : genl.
#[export] Hint Resolve preserves_ret preserves_bind preserves_get preserves_exit
  preserves_crash : genl.
#[export] Hint Rewrite le_bytes_length le_val_take_app drop_le_bytes_app using lia : genl_rw.
