(* ===== verification/Header.v ===== *)
(** * The shared header [src/genl_ex.h]

    The constants both peers compile in: the family and multicast group
    names, the command and attribute enumerations, the maximum message
    length, the broadcast interval, and the attribute policy table
    [genl_test_policy].  The header declares that table once but the
    preprocessor gives it two meanings: under [__KERNEL__] the field is
    the kernel's [.len] (maximum string length, the NUL not counted),
    in user space it is libnl's [.maxlen] (maximum payload length, the
    NUL counted).  Both tables are modelled, as [genl_test_policy_kernel]
    and [genl_test_policy_user]. *)
From S2P Require Import Prelude.

(** ** Names *)
Definition GENL_TEST_FAMILY_NAME : string := "genl_test".
Definition GENL_TEST_MCGRP0_NAME : string := "genl_mcgrp0".
Definition GENL_TEST_MCGRP1_NAME : string := "genl_mcgrp1".
Definition GENL_TEST_MCGRP2_NAME : string := "genl_mcgrp2".

Definition GENL_TEST_ATTR_MSG_MAX : Z := 256.
Definition GENL_TEST_HELLO_INTERVAL : Z := 5000.

(** ** Commands: [GENL_TEST_C_UNSPEC] (0, never used) and [GENL_TEST_C_MSG] (1). *)
Inductive genl_test_cmd := GENL_TEST_C_UNSPEC | GENL_TEST_C_MSG.
Global Instance genl_test_cmd_eq_dec : EqDecision genl_test_cmd.
Proof. solve_decision. Defined.

Definition cmd_val (c : genl_test_cmd) : Z :=
  match c with GENL_TEST_C_UNSPEC => 0 | GENL_TEST_C_MSG => 1 end.

Definition cmd_of_val (v : Z) : option genl_test_cmd :=
  if decide (v = 0) then Some GENL_TEST_C_UNSPEC
  else if decide (v = 1) then Some GENL_TEST_C_MSG else None.

(** ** Multicast groups *)
Inductive genl_test_multicast_groups := GENL_TEST_MCGRP0 | GENL_TEST_MCGRP1 | GENL_TEST_MCGRP2.
Global Instance genl_test_multicast_groups_eq_dec : EqDecision genl_test_multicast_groups.
Proof. solve_decision. Defined.

Definition mcgrp_val (g : genl_test_multicast_groups) : Z :=
  match g with GENL_TEST_MCGRP0 => 0 | GENL_TEST_MCGRP1 => 1 | GENL_TEST_MCGRP2 => 2 end.

Definition GENL_TEST_MCGRP_MAX : Z := 3.

(** [static char* genl_test_mcgrp_names[GENL_TEST_MCGRP_MAX]], indexed by
    an [unsigned int]; an index past the end is out of bounds, so the
    lookup is partial. *)
Definition genl_test_mcgrp_names : list string :=
  [GENL_TEST_MCGRP0_NAME; GENL_TEST_MCGRP1_NAME; GENL_TEST_MCGRP2_NAME].

Definition mcgrp_name (i : Z) : option string :=
  if decide (0 ≤ i) then genl_test_mcgrp_names !! Z.to_nat i else None.

(** ** Attributes *)
Inductive genl_test_attrs := GENL_TEST_ATTR_UNSPEC | GENL_TEST_ATTR_MSG.
Global Instance genl_test_attrs_eq_dec : EqDecision genl_test_attrs.
Proof. solve_decision. Defined.

Definition attr_val (a : genl_test_attrs) : Z :=
  match a with GENL_TEST_ATTR_UNSPEC => 0 | GENL_TEST_ATTR_MSG => 1 end.

Definition __GENL_TEST_ATTR__MAX : Z := 2.
Definition GENL_TEST_ATTR_MAX : Z := __GENL_TEST_ATTR__MAX - 1.

(** ** Attribute policies

    [struct nla_policy] on each side, restricted to the attribute kinds
    the table uses: an entry the initialiser leaves out is all zero, that
    is [NLA_UNSPEC] with no length bound. *)
Inductive nla_kind := NLA_UNSPEC | NLA_STRING.
Global Instance nla_kind_eq_dec : EqDecision nla_kind.
Proof. solve_decision. Defined.

(** libnl's [struct nla_policy { type; minlen; maxlen }]. *)
Record user_policy := { up_type : nla_kind; up_minlen : Z; up_maxlen : Z }.
(** The kernel's [struct nla_policy { type; len }]. *)
Record kernel_policy := { kp_type : nla_kind; kp_len : Z }.

Definition user_policy_zero : user_policy :=
  {| up_type := NLA_UNSPEC; up_minlen := 0; up_maxlen := 0 |}.
Definition kernel_policy_zero : kernel_policy :=
  {| kp_type := NLA_UNSPEC; kp_len := 0 |}.

(** [genl_test_policy[GENL_TEST_ATTR_MAX+1]] with
    [[GENL_TEST_ATTR_MSG] = { .type = NLA_STRING, .maxlen/.len = 256 }]. *)
Definition genl_test_policy_user : list user_policy :=
  [user_policy_zero;
   {| up_type := NLA_STRING; up_minlen := 0; up_maxlen := GENL_TEST_ATTR_MSG_MAX |}].

Definition genl_test_policy_kernel : list kernel_policy :=
  [kernel_policy_zero;
   {| kp_type := NLA_STRING; kp_len := GENL_TEST_ATTR_MSG_MAX |}].

(** Unfold the header's numeric constants everywhere. *)
Ltac unfold_consts :=
  unfold GENL_TEST_ATTR_MSG_MAX, GENL_TEST_ATTR_MAX, __GENL_TEST_ATTR__MAX,
    GENL_TEST_MCGRP_MAX, GENL_TEST_HELLO_INTERVAL in *.
