(* ===== verification/Nla.v ===== *)
(** * The attribute codec: netlink attributes ([struct nlattr])

    The program puts and reads its one attribute through libnl in user
    space ([nla_put_string], [genlmsg_parse] in [src/genl_ex.c]) and
    through the kernel's netlink library in the module
    ([nla_put_string] in [greet_group], [info->attrs] in
    [genl_test_rx_msg], [src/kernel/genl_ex.c]).  Neither library is part
    of the repository: this file models them from the wire format of the
    spec (section 6) and from the libraries' documented behaviour.

    - [nla_bytes] is the wire image of one attribute: a 16-bit length
      (header included), a 16-bit type, the payload, zero padding to 4.
    - [nla_attrs] is [nla_for_each_attr]: it walks a byte stream while
      [nla_ok] holds and returns each attribute's type field and payload.
    - [libnl_nla_parse] and [kernel_nla_parse] fill the attribute table
      [tb] as the two libraries do, validating against the policy of
      [Header]; the two differ on attribute 0 and on strings. *)
From S2P Require Import Prelude Header.

(** ** Sizes and alignment ([NLA_ALIGN], [NLA_HDRLEN], ...) *)
Definition NLA_ALIGNTO : Z := 4.
Definition NLA_ALIGN (len : Z) : Z := Z.land (len + NLA_ALIGNTO - 1) (Z.lnot (NLA_ALIGNTO - 1)).
Definition NLA_HDRLEN : Z := NLA_ALIGN 4.
Definition nla_attr_size (payload : Z) : Z := NLA_HDRLEN + payload.
Definition nla_total_size (payload : Z) : Z := NLA_ALIGN (nla_attr_size payload).
Definition nla_padlen (payload : Z) : Z := nla_total_size payload - nla_attr_size payload.

(** [NLA_TYPE_MASK] clears [NLA_F_NESTED] (bit 15) and
    [NLA_F_NET_BYTEORDER] (bit 14); [nla_type] applies it. *)
Definition NLA_TYPE_MASK : Z := Z.ones 14.
Definition nla_type_of (raw : Z) : Z := Z.land raw NLA_TYPE_MASK.

(** ** The wire image of one attribute

    [nla_len] and [nla_type] are [__u16] fields: the stored values are
    the C values reduced modulo [2^16]. *)
Definition nla_bytes (attrtype : Z) (data : list Z) : list Z :=
  let attrlen := Z.of_nat (length data) in
  le_bytes 2 (nla_attr_size attrlen) ++ le_bytes 2 attrtype ++ data
    ++ replicate (Z.to_nat (nla_padlen attrlen)) 0.

(** ** Walking an attribute stream: [nla_ok], [nla_next], [nla_for_each_attr]

    One step reads the header at the front of the remaining bytes; the
    attribute is taken when [rem >= NLA_HDRLEN], [nla_len >= NLA_HDRLEN]
    and [nla_len <= rem]; the walk then skips [NLA_ALIGN nla_len] bytes.
    Each step consumes at least four bytes, so [length bs] steps suffice:
    the fuel only makes the recursion structural ([nla_attrs_fuel]). *)
Definition nla_hdr_len (bs : list Z) : Z := le_val (take 2 bs).
Definition nla_hdr_type (bs : list Z) : Z := le_val (take 2 (drop 2 bs)).

Definition nla_ok (bs : list Z) : bool :=
  bool_decide (NLA_HDRLEN ≤ Z.of_nat (length bs)
               ∧ NLA_HDRLEN ≤ nla_hdr_len bs
               ∧ nla_hdr_len bs ≤ Z.of_nat (length bs)).

Fixpoint nla_attrs (fuel : nat) (bs : list Z) : list (Z * list Z) :=
  match fuel with
  | O => []
  | S fuel' =>
      if nla_ok bs then
        let len := nla_hdr_len bs in
        (nla_hdr_type bs, take (Z.to_nat (len - NLA_HDRLEN)) (drop 4 bs))
          :: nla_attrs fuel' (drop (Z.to_nat (NLA_ALIGN len)) bs)
      else []
  end.

Definition nla_for_each_attr (bs : list Z) : list (Z * list Z) :=
  nla_attrs (length bs) bs.

(** ** Error codes *)
(** libnl's error codes (returned negated). *)
Inductive nl_err := NLE_NOMEM | NLE_INVAL | NLE_RANGE | NLE_MSG_TOOSHORT.
Global Instance nl_err_eq_dec : EqDecision nl_err.
Proof. solve_decision. Defined.

(** libnl's error numbers; its functions return their negation. *)
Definition nl_err_code (e : nl_err) : Z :=
  match e with NLE_NOMEM => 5 | NLE_INVAL => 7 | NLE_RANGE => 8 | NLE_MSG_TOOSHORT => 21 end.

(** Kernel errno values (returned negated). *)
Inductive errno := EINVAL | ERANGE | EMSGSIZE | ENOMEM | EOPNOTSUPP | ENOENT.
Global Instance errno_eq_dec : EqDecision errno.
Proof. solve_decision. Defined.

(** ** libnl: [validate_nla] and [nla_parse] (lib/attr.c)

    [nla_attr_minlen[NLA_STRING]] is 1; an [NLA_UNSPEC] entry has no
    minimum.  A string must end in NUL.  [nla_parse] clears [tb], then
    for each attribute whose type is at most [maxtype] validates it and
    stores it in [tb[type]] (a later one replaces an earlier one); on the
    first invalid attribute it returns the error with [tb] as filled so
    far.  [tb] is the map from type to payload. *)
Definition nla_attr_minlen (k : nla_kind) : Z :=
  match k with NLA_UNSPEC => 0 | NLA_STRING => 1 end.

Definition libnl_validate_nla (policy : list user_policy) (type : Z) (data : list Z)
    : option nl_err :=
  let pt := default user_policy_zero (policy !! Z.to_nat type) in
  let minlen := if decide (up_minlen pt ≠ 0) then up_minlen pt
                else nla_attr_minlen (up_type pt) in
  let len := Z.of_nat (length data) in
  if decide (len < minlen) then Some NLE_RANGE
  else if decide (up_maxlen pt ≠ 0 ∧ up_maxlen pt < len) then Some NLE_RANGE
  else if decide (up_type pt = NLA_STRING ∧ last data ≠ Some NUL) then Some NLE_INVAL
  else None.

Abbreviation attr_table := (gmap Z (list Z)).

Fixpoint libnl_parse_attrs (maxtype : Z) (policy : list user_policy)
    (tb : attr_table) (attrs : list (Z * list Z)) : option nl_err * attr_table :=
  match attrs with
  | [] => (None, tb)
  | (raw, data) :: attrs' =>
      let type := nla_type_of raw in
      if decide (maxtype < type) then libnl_parse_attrs maxtype policy tb attrs'
      else match libnl_validate_nla policy type data with
           | Some e => (Some e, tb)
           | None => libnl_parse_attrs maxtype policy (<[type := data]> tb) attrs'
           end
  end.

Definition libnl_nla_parse (maxtype : Z) (policy : list user_policy) (bs : list Z)
    : option nl_err * attr_table :=
  libnl_parse_attrs maxtype policy ∅ (nla_for_each_attr bs).

(** ** Kernel: [validate_nla] and [nla_parse] (lib/nlattr.c, liberal mode)

    The kernel skips type 0 altogether; for [NLA_STRING] with a [.len]
    it drops one trailing NUL before comparing with [.len], and does not
    require the NUL.  On an invalid attribute the whole request is
    refused with the error. *)
Definition kernel_validate_nla (policy : list kernel_policy) (type : Z) (data : list Z)
    : option errno :=
  let pt := default kernel_policy_zero (policy !! Z.to_nat type) in
  let attrlen := Z.of_nat (length data) in
  match kp_type pt with
  | NLA_STRING =>
      if decide (attrlen < 1) then Some ERANGE
      else if decide (kp_len pt ≠ 0) then
        let attrlen' := if decide (last data = Some NUL) then attrlen - 1 else attrlen in
        if decide (kp_len pt < attrlen') then Some ERANGE else None
      else None
  | NLA_UNSPEC =>
      if decide (attrlen < kp_len pt) then Some ERANGE else None
  end.

Fixpoint kernel_parse_attrs (maxtype : Z) (policy : list kernel_policy)
    (tb : attr_table) (attrs : list (Z * list Z)) : errno + attr_table :=
  match attrs with
  | [] => inr tb
  | (raw, data) :: attrs' =>
      let type := nla_type_of raw in
      if decide (0 < type ≤ maxtype) then
        match kernel_validate_nla policy type data with
        | Some e => inl e
        | None => kernel_parse_attrs maxtype policy (<[type := data]> tb) attrs'
        end
      else kernel_parse_attrs maxtype policy tb attrs'
  end.

Definition kernel_nla_parse (maxtype : Z) (policy : list kernel_policy) (bs : list Z)
    : errno + attr_table :=
  kernel_parse_attrs maxtype policy ∅ (nla_for_each_attr bs).

(** ** Alignment *)
Lemma NLA_ALIGN_spec len : NLA_ALIGN len = (len + 3) - (len + 3) `mod` 4.
Proof.
  unfold NLA_ALIGN, NLA_ALIGNTO. replace (4 - 1) with (Z.ones 2) by reflexivity.
  rewrite <-Z.sub_land_same_l, Z.land_ones by lia.
  replace (len + 4 - 1) with (len + 3) by lia. reflexivity.
Qed.

Lemma NLA_ALIGN_bounds len : len ≤ NLA_ALIGN len < len + 4 ∧ NLA_ALIGN len `mod` 4 = 0.
Proof.
  rewrite NLA_ALIGN_spec. pose proof (Z.mod_pos_bound (len + 3) 4).
  split; [lia|]. rewrite Zminus_mod, Zmod_mod, Z.sub_diag. done.
Qed.

Lemma NLA_HDRLEN_eq : NLA_HDRLEN = 4.
Proof. reflexivity. Qed.

Lemma nla_total_size_bounds x : x + 4 ≤ nla_total_size x < x + 8.
Proof.
  pose proof (NLA_ALIGN_bounds (nla_attr_size x)). unfold nla_total_size, nla_attr_size in *.
  rewrite NLA_HDRLEN_eq in *. lia.
Qed.

Lemma nla_padlen_bounds n : 0 ≤ nla_padlen n < 4.
Proof.
  unfold nla_padlen, nla_total_size. pose proof (NLA_ALIGN_bounds (nla_attr_size n)). lia.
Qed.

#[export] Hint Rewrite NLA_HDRLEN_eq : genl_rw.

Lemma nla_bytes_length t d :
  length (nla_bytes t d) = Z.to_nat (nla_total_size (Z.of_nat (length d))).
Proof.
  unfold nla_bytes. rewrite !length_app, !le_bytes_length, length_replicate by lia.
  pose proof (nla_padlen_bounds (Z.of_nat (length d))).
  unfold nla_padlen, nla_attr_size in *. rewrite NLA_HDRLEN_eq in *. lia.
Qed.

(** An attribute is well formed when its type and its length fit the
    16-bit header fields. *)
Definition nla_fits (t : Z) (d : list Z) : Prop :=
  0 ≤ t < 2 ^ 16 ∧ nla_attr_size (Z.of_nat (length d)) < 2 ^ 16.
Global Instance nla_fits_dec t d : Decision (nla_fits t d) := _.

(** ** The walk

    Each step of [nla_attrs] consumes at least [NLA_HDRLEN] bytes, so the
    result does not depend on the fuel once it covers the buffer. *)
Lemma nla_ok_drop bs :
  nla_ok bs = true → (length (drop (Z.to_nat (NLA_ALIGN (nla_hdr_len bs))) bs) + 4 ≤ length bs)%nat.
Proof.
  unfold nla_ok. rewrite bool_decide_eq_true, NLA_HDRLEN_eq. intros (? & ? & ?).
  pose proof (NLA_ALIGN_bounds (nla_hdr_len bs)). rewrite length_drop. lia.
Qed.

Lemma nla_attrs_fuel f1 f2 bs :
  (length bs ≤ f1)%nat → (length bs ≤ f2)%nat → nla_attrs f1 bs = nla_attrs f2 bs.
Proof.
  revert f2 bs. induction f1 as [|f1 IH]; intros [|f2] bs H1 H2; simpl; try done.
  - destruct bs; [done|simpl in *; lia].
  - destruct bs; [done|simpl in *; lia].
  - destruct (nla_ok bs) eqn:Hok; [|done]. f_equal.
    pose proof (nla_ok_drop bs Hok). apply IH; lia.
Qed.

Lemma nla_for_each_attr_unfold bs :
  nla_for_each_attr bs =
    if nla_ok bs then
      (nla_hdr_type bs, take (Z.to_nat (nla_hdr_len bs - NLA_HDRLEN)) (drop 4 bs))
        :: nla_for_each_attr (drop (Z.to_nat (NLA_ALIGN (nla_hdr_len bs))) bs)
    else [].
Proof.
  unfold nla_for_each_attr. destruct bs as [|b bs']; [done|].
  cbn [length nla_attrs]. destruct (nla_ok (b :: bs')) eqn:Hok; [|done].
  f_equal. apply nla_attrs_fuel; [|done].
  pose proof (nla_ok_drop _ Hok). simpl in *. lia.
Qed.

Lemma nla_hdr_nla_bytes t d rest :
  nla_fits t d →
  nla_hdr_len (nla_bytes t d ++ rest) = nla_attr_size (Z.of_nat (length d)) ∧
  nla_hdr_type (nla_bytes t d ++ rest) = t.
Proof.
  intros [Ht Hl]. unfold nla_hdr_len, nla_hdr_type, nla_bytes.
  pose proof (Zle_0_nat (length d)).
  rewrite <-!app_assoc, le_val_take_app, drop_le_bytes_app, le_val_take_app by lia.
  unfold nla_attr_size in *. rewrite NLA_HDRLEN_eq in *.
  split; apply wrap_small; lia.
Qed.

(** One step of the walk over an encoded attribute gives it back and
    continues exactly after its padding. *)
Lemma nla_for_each_attr_nla_bytes t d rest :
  nla_fits t d →
  nla_for_each_attr (nla_bytes t d ++ rest) = (t, d) :: nla_for_each_attr rest.
Proof.
  intros Hf. pose proof (nla_hdr_nla_bytes t d rest Hf) as [Hlen Hty].
  destruct Hf as [Ht Hl].
  rewrite nla_for_each_attr_unfold, Hlen, Hty.
  assert (Hok : nla_ok (nla_bytes t d ++ rest) = true).
  { unfold nla_ok. rewrite Hlen, bool_decide_eq_true, length_app, nla_bytes_length.
    pose proof (NLA_ALIGN_bounds (nla_attr_size (Z.of_nat (length d)))).
    unfold nla_total_size, nla_attr_size in *. rewrite NLA_HDRLEN_eq in *. lia. }
  rewrite Hok. f_equal.
  - f_equal. unfold nla_bytes, nla_attr_size. rewrite NLA_HDRLEN_eq, <-!app_assoc.
    rewrite drop_app_ge by (rewrite le_bytes_length; lia).
    rewrite le_bytes_length by lia. simpl.
    rewrite drop_0, take_app_length'; [done|lia].
  - f_equal. rewrite drop_app_length'; [done|].
    rewrite nla_bytes_length. reflexivity.
Qed.

(** Round trip: walking the concatenated encodings of well-formed
    attributes gives back each attribute's type and payload, in order. *)
Definition nla_stream (attrs : list (Z * list Z)) : list Z :=
  attrs ≫= λ '(t, d), nla_bytes t d.

Lemma nla_stream_cons t d attrs :
  nla_stream ((t, d) :: attrs) = nla_bytes t d ++ nla_stream attrs.
Proof. reflexivity. Qed.

Lemma nla_stream_walk attrs :
  Forall (λ '(t, d), nla_fits t d) attrs →
  nla_for_each_attr (nla_stream attrs) = attrs.
Proof.
  induction 1 as [|[t d] attrs Hf _ IH]; [done|].
  rewrite nla_stream_cons. by rewrite nla_for_each_attr_nla_bytes, IH.
Qed.


(** ** Validation of the program's attribute

    [GENL_TEST_ATTR_MSG] is attribute 1, an [NLA_STRING] bounded by
    [GENL_TEST_ATTR_MSG_MAX]; [GENL_TEST_ATTR_MAX] is 1. *)
Lemma nla_fits_small t d :
  0 ≤ t < 2 ^ 16 → Z.of_nat (length d) ≤ 65000 → nla_fits t d.
Proof. intros. unfold nla_fits, nla_attr_size. rewrite NLA_HDRLEN_eq. change (2 ^ 16) with 65536 in *. lia. Qed.

Lemma nla_type_of_small t : 0 ≤ t < 2 ^ 14 → nla_type_of t = t.
Proof. intros. change (2 ^ 14) with 16384 in *. unfold nla_type_of, NLA_TYPE_MASK. rewrite Z.land_ones by lia. by apply Z.mod_small. Qed.

Lemma nla_type_of_range t : 0 ≤ nla_type_of t < 2 ^ 14.
Proof. unfold nla_type_of, NLA_TYPE_MASK. rewrite Z.land_ones by lia. apply Z.mod_pos_bound. lia. Qed.

Lemma libnl_parse_one t d :
  nla_fits t d →
  libnl_nla_parse GENL_TEST_ATTR_MAX genl_test_policy_user (nla_bytes t d) =
  libnl_parse_attrs GENL_TEST_ATTR_MAX genl_test_policy_user ∅ [(t, d)].
Proof.
  intros Hf. unfold libnl_nla_parse.
  rewrite <-(app_nil_r (nla_bytes t d)), nla_for_each_attr_nla_bytes by done. done.
Qed.

Lemma kernel_parse_one t d :
  nla_fits t d →
  kernel_nla_parse GENL_TEST_ATTR_MAX genl_test_policy_kernel (nla_bytes t d) =
  kernel_parse_attrs GENL_TEST_ATTR_MAX genl_test_policy_kernel ∅ [(t, d)].
Proof.
  intros Hf. unfold kernel_nla_parse.
  rewrite <-(app_nil_r (nla_bytes t d)), nla_for_each_attr_nla_bytes by done. done.
Qed.

Ltac nla_one := first [rewrite libnl_parse_one | rewrite kernel_parse_one];
  [|apply nla_fits_small; rewrite ?length_app; simpl; lia].


Lemma libnl_parse_string_attr s :
  (length s < Z.to_nat GENL_TEST_ATTR_MSG_MAX)%nat →
  libnl_nla_parse GENL_TEST_ATTR_MAX genl_test_policy_user
    (nla_bytes (attr_val GENL_TEST_ATTR_MSG) (s ++ [NUL])) =
  (None, {[attr_val GENL_TEST_ATTR_MSG := s ++ [NUL]]}).
Proof.
  intros Hs. unfold GENL_TEST_ATTR_MSG_MAX in Hs. nla_one.
  cbn -[libnl_validate_nla]. unfold libnl_validate_nla; simpl.
  rewrite length_app, last_snoc. simpl. unfold_consts.
  repeat case_decide; try lia; try naive_solver.
Qed.

(** C20: A string of at most 255 bytes, sent with its NUL as [nla_put_string]
    sends it, passes libnl's policy and lands in [tb[GENL_TEST_ATTR_MSG]]. *)
Lemma libnl_parse_msg_string s :
  (length s < Z.to_nat GENL_TEST_ATTR_MSG_MAX)%nat →
  libnl_nla_parse GENL_TEST_ATTR_MAX genl_test_policy_user
    (nla_bytes (attr_val GENL_TEST_ATTR_MSG) (s ++ [NUL])) =
  (None, {[attr_val GENL_TEST_ATTR_MSG := s ++ [NUL]]}).
Proof. exact (libnl_parse_string_attr s). Qed.

(** C21: With libnl's [.maxlen = 256] the NUL counts: a 256-byte string with
    its NUL is a 257-byte payload and is refused with [NLE_RANGE]. *)
Lemma libnl_parse_msg_too_long s :
  GENL_TEST_ATTR_MSG_MAX ≤ Z.of_nat (length s) ≤ 60000 →
  libnl_nla_parse GENL_TEST_ATTR_MAX genl_test_policy_user
    (nla_bytes (attr_val GENL_TEST_ATTR_MSG) (s ++ [NUL])) = (Some NLE_RANGE, ∅).
Proof.
  intros Hs. unfold GENL_TEST_ATTR_MSG_MAX in Hs. nla_one.
  cbn -[libnl_validate_nla]. unfold libnl_validate_nla; simpl.
  rewrite length_app. simpl. unfold_consts. repeat case_decide; try lia; naive_solver.
Qed.

(** The induction behind [libnl_parse_absent], from any table that lacks
    the attribute. *)
Lemma libnl_parse_attrs_absent tb attrs :
  tb !! attr_val GENL_TEST_ATTR_MSG = None →
  Forall (λ '(t, d), nla_type_of t ≠ attr_val GENL_TEST_ATTR_MSG) attrs →
  fst (libnl_parse_attrs GENL_TEST_ATTR_MAX genl_test_policy_user tb attrs) = None ∧
  snd (libnl_parse_attrs GENL_TEST_ATTR_MAX genl_test_policy_user tb attrs)
    !! attr_val GENL_TEST_ATTR_MSG = None.
Proof.
  intros Htb Hall. revert tb Htb.
  induction Hall as [|[t d] attrs Ht _ IH]; intros tb Htb; [done|].
  cbn [libnl_parse_attrs]. unfold_consts. simpl in Ht.
  pose proof (nla_type_of_range t).
  case_decide; [by apply IH|].
  assert (nla_type_of t = 0) as -> by lia.
  unfold libnl_validate_nla; simpl. repeat case_decide; try lia; try naive_solver.
  apply IH. rewrite lookup_insert_ne; [done|simpl; lia].
Qed.

(** C22: Parsing a well-formed stream none of whose attributes is
    [GENL_TEST_ATTR_MSG] reports no error and leaves that attribute
    absent: a message without text is a distinct, recoverable case. *)
Theorem libnl_parse_absent attrs :
  Forall (λ '(t, d), nla_fits t d ∧ nla_type_of t ≠ attr_val GENL_TEST_ATTR_MSG) attrs →
  fst (libnl_nla_parse GENL_TEST_ATTR_MAX genl_test_policy_user (nla_stream attrs)) = None ∧
  snd (libnl_nla_parse GENL_TEST_ATTR_MAX genl_test_policy_user (nla_stream attrs))
    !! attr_val GENL_TEST_ATTR_MSG = None.
Proof.
  intros Hall. unfold libnl_nla_parse. rewrite nla_stream_walk.
  - apply libnl_parse_attrs_absent; [done|]. eapply Forall_impl; [done|]. by intros [??] [??].
  - eapply Forall_impl; [done|]. by intros [??] [??].
Qed.

(** C18: Attribute 0 ([GENL_TEST_ATTR_UNSPEC]) has the all-zero policy entry:
    libnl validates it against no constraint and stores it in [tb[0]],
    while the kernel skips it. *)
Theorem attr_unspec_libnl_kernel d :
  Z.of_nat (length d) ≤ 65000 →
  libnl_nla_parse GENL_TEST_ATTR_MAX genl_test_policy_user
    (nla_bytes (attr_val GENL_TEST_ATTR_UNSPEC) d) = (None, {[0 := d]}) ∧
  kernel_nla_parse GENL_TEST_ATTR_MAX genl_test_policy_kernel
    (nla_bytes (attr_val GENL_TEST_ATTR_UNSPEC) d) = inr ∅.
Proof.
  intros Hd. split; nla_one; cbn -[libnl_validate_nla]; unfold_consts; simpl;
    [unfold libnl_validate_nla; simpl; repeat case_decide; try lia|]; done.
Qed.

Lemma kernel_parse_string_attr d :
  1 ≤ Z.of_nat (length d) →
  (if decide (last d = Some NUL) then Z.of_nat (length d) - 1 else Z.of_nat (length d))
    ≤ GENL_TEST_ATTR_MSG_MAX →
  kernel_nla_parse GENL_TEST_ATTR_MAX genl_test_policy_kernel
    (nla_bytes (attr_val GENL_TEST_ATTR_MSG) d) = inr {[attr_val GENL_TEST_ATTR_MSG := d]}.
Proof.
  intros H1 H2. unfold_consts.
  assert (Z.of_nat (length d) ≤ 257) by (case_decide; lia).
  nla_one. cbn -[kernel_validate_nla].
  unfold kernel_validate_nla; simpl. unfold_consts.
  destruct (decide (last d = Some NUL)); repeat case_decide; try lia; done.
Qed.

(** C19: The kernel's [NLA_STRING] policy with [.len = 256] accepts a string
    of up to 256 bytes with no NUL at all, and one of 256 bytes followed
    by its NUL, which libnl's copy of the same table refuses. *)
Lemma kernel_parse_msg_string d :
  1 ≤ Z.of_nat (length d) →
  (if decide (last d = Some NUL) then Z.of_nat (length d) - 1 else Z.of_nat (length d))
    ≤ GENL_TEST_ATTR_MSG_MAX →
  kernel_nla_parse GENL_TEST_ATTR_MAX genl_test_policy_kernel
    (nla_bytes (attr_val GENL_TEST_ATTR_MSG) d) = inr {[attr_val GENL_TEST_ATTR_MSG := d]}.
Proof. exact (kernel_parse_string_attr d). Qed.

(** ** Witnesses *)
Lemma libnl_parse_msg_string_witness :
  libnl_nla_parse GENL_TEST_ATTR_MAX genl_test_policy_user
    (nla_bytes (attr_val GENL_TEST_ATTR_MSG) (bytes_of_string "ping" ++ [NUL])) =
  (None, {[attr_val GENL_TEST_ATTR_MSG := bytes_of_string "ping" ++ [NUL]]}).
Proof. apply libnl_parse_msg_string. vm_compute. lia. Defined.

Lemma libnl_parse_msg_too_long_witness :
  libnl_nla_parse GENL_TEST_ATTR_MAX genl_test_policy_user
    (nla_bytes (attr_val GENL_TEST_ATTR_MSG) (replicate 300 65 ++ [NUL])) = (Some NLE_RANGE, ∅).
Proof. apply libnl_parse_msg_too_long. rewrite length_replicate. unfold_consts. lia. Defined.

Lemma libnl_parse_absent_witness :
  fst (libnl_nla_parse GENL_TEST_ATTR_MAX genl_test_policy_user (nla_stream [(0, [7]); (5, [1; 2])])) = None ∧
  snd (libnl_nla_parse GENL_TEST_ATTR_MAX genl_test_policy_user (nla_stream [(0, [7]); (5, [1; 2])]))
    !! attr_val GENL_TEST_ATTR_MSG = None.
Proof. apply libnl_parse_absent. repeat constructor; vm_compute; congruence. Defined.

Lemma attr_unspec_libnl_kernel_witness :
  libnl_nla_parse GENL_TEST_ATTR_MAX genl_test_policy_user
    (nla_bytes (attr_val GENL_TEST_ATTR_UNSPEC) [1; 2; 3]) = (None, {[0 := [1; 2; 3]]}) ∧
  kernel_nla_parse GENL_TEST_ATTR_MAX genl_test_policy_kernel
    (nla_bytes (attr_val GENL_TEST_ATTR_UNSPEC) [1; 2; 3]) = inr ∅.
Proof. apply attr_unspec_libnl_kernel. simpl. lia. Defined.

Lemma kernel_parse_msg_string_witness :
  kernel_nla_parse GENL_TEST_ATTR_MAX genl_test_policy_kernel
    (nla_bytes (attr_val GENL_TEST_ATTR_MSG) (bytes_of_string "ping")) =
  inr {[attr_val GENL_TEST_ATTR_MSG := bytes_of_string "ping"]}.
Proof. apply kernel_parse_msg_string; vm_compute; congruence. Defined.

