(* ===== verification/Genl.v ===== *)
(** * Message builder and parser: [struct nlmsghdr] and [struct genlmsghdr]

    A generic-netlink message is a 16-byte [nlmsghdr] (length, type =
    family id, flags, sequence number, port id), a 4-byte [genlmsghdr]
    (command, version, reserved) and the attribute stream of [Nla].
    The program builds messages on both sides and parses them in user
    space; the libraries doing so are not in the repository and are
    modelled here from the spec's wire format (section 6) and the
    libraries' behaviour:

    - Module [Libnl]: libnl's [nl_msg] with its capacity ([nlmsg_alloc]),
      [genlmsg_put], [nla_put_string], the completion [nl_complete_msg]
      done by [nl_send_auto], and the parser [genlmsg_parse];
    - Module [Kern]: the kernel's [sk_buff] seen as a byte buffer with a
      capacity ([genlmsg_new]), [genlmsg_put], [nla_put_string] and
      [genlmsg_end];
    - [request_bytes], the wire image of the client's request, which
      both [Client] and [Server] talk about;
    - the class [GenlCtrl], what the controller promises the client
      ([genl_ctrl_resolve], [genl_ctrl_resolve_grp]); [Registry]
      implements it. *)
From S2P Require Import Prelude Header Nla.

Definition NLMSG_ALIGNTO : Z := 4.
Definition NLMSG_ALIGN (len : Z) : Z := Z.land (len + NLMSG_ALIGNTO - 1) (Z.lnot (NLMSG_ALIGNTO - 1)).
Definition NLMSG_HDRLEN : Z := 16.
Definition GENL_HDRLEN : Z := 4.

(** [NLM_F_REQUEST] and [NLM_F_ACK]. *)
Definition NLM_F_REQUEST : Z := 1.
Definition NLM_F_ACK : Z := 4.

Record nlmsghdr := {
  nlmsg_len : Z; nlmsg_type : Z; nlmsg_flags : Z; nlmsg_seq : Z; nlmsg_pid : Z }.

Definition nlmsghdr_init : nlmsghdr :=
  {| nlmsg_len := NLMSG_HDRLEN; nlmsg_type := 0; nlmsg_flags := 0; nlmsg_seq := 0; nlmsg_pid := 0 |}.

(** The wire image of a header followed by the message body. *)
Definition nlmsg_bytes (h : nlmsghdr) (body : list Z) : list Z :=
  le_bytes 4 (nlmsg_len h) ++ le_bytes 2 (nlmsg_type h) ++ le_bytes 2 (nlmsg_flags h)
    ++ le_bytes 4 (nlmsg_seq h) ++ le_bytes 4 (nlmsg_pid h) ++ body.

Definition genlmsghdr_bytes (cmd version : Z) : list Z :=
  [u8 cmd; u8 version; 0; 0].

(** A [GENL_TEST_C_MSG] request (version 0, [NLM_F_REQUEST] only) with
    [d] as the message attribute, as it travels from client to kernel. *)
Definition request_bytes (fam_id port seq : Z) (d : list Z) : list Z :=
  let body := genlmsghdr_bytes (cmd_val GENL_TEST_C_MSG) 0 ++ nla_bytes (attr_val GENL_TEST_ATTR_MSG) d in
  nlmsg_bytes {| nlmsg_len := 16 + Z.of_nat (length body); nlmsg_type := fam_id;
                 nlmsg_flags := NLM_F_REQUEST; nlmsg_seq := seq; nlmsg_pid := port |} body.

Module Libnl.

(** [struct nl_msg]: capacity [nm_size], header, and the bytes after the
    header; the buffer is [calloc]ed, so the gap before an aligned
    append reads as zeros. *)
Record nl_msg := { nm_size : Z; nm_nlh : nlmsghdr; nm_body : list Z }.

(** [getpagesize()], libnl's default message size. *)
Definition default_msg_size : Z := 4096.

(** [nlmsg_alloc()]: [None] when the allocation fails, which the
    caller observes as [NULL]. *)
Definition nlmsg_alloc (alloc_ok : bool) : option nl_msg :=
  if alloc_ok then Some {| nm_size := default_msg_size; nm_nlh := nlmsghdr_init; nm_body := [] |}
  else None.

Definition set_nlh (m : nl_msg) (h : nlmsghdr) : nl_msg :=
  {| nm_size := nm_size m; nm_nlh := h; nm_body := nm_body m |}.

(** [nlmsg_reserve(n, len, pad)] with [bytes] written in the reserved area. *)
Definition nlmsg_reserve (m : nl_msg) (bytes : list Z) (pad : Z) : option nl_msg :=
  let len := Z.of_nat (length bytes) in
  let tlen := if decide (pad ≠ 0) then Z.land (len + pad - 1) (Z.lnot (pad - 1)) else len in
  let h := nm_nlh m in
  if decide (nm_size m < tlen + nlmsg_len h) then None
  else Some {| nm_size := nm_size m;
               nm_nlh := {| nlmsg_len := nlmsg_len h + tlen; nlmsg_type := nlmsg_type h;
                            nlmsg_flags := nlmsg_flags h; nlmsg_seq := nlmsg_seq h;
                            nlmsg_pid := nlmsg_pid h |};
               nm_body := nm_body m ++ bytes ++ replicate (Z.to_nat (tlen - len)) 0 |}.

(** [nlmsg_put(n, pid, seq, type, payload, flags)]: sets the header's
    fields ([u16]/[u32] truncated) and reserves the payload. *)
Definition nlmsg_put (m : nl_msg) (pid seq type : Z) (payload : list Z) (flags : Z)
    : option nl_msg :=
  let h := nm_nlh m in
  let m' := set_nlh m {| nlmsg_len := nlmsg_len h; nlmsg_type := u16 type;
                         nlmsg_flags := u16 flags; nlmsg_seq := u32 seq;
                         nlmsg_pid := u32 pid |} in
  if decide (0 < Z.of_nat (length payload)) then nlmsg_reserve m' payload NLMSG_ALIGNTO
  else Some m'.

(** [genlmsg_put(msg, port, seq, family, hdrlen, flags, cmd, version)]. *)
Definition genlmsg_put (m : nl_msg) (port seq family hdrlen flags cmd version : Z)
    : option nl_msg :=
  nlmsg_put m port seq family
    (genlmsghdr_bytes cmd version ++ replicate (Z.to_nat hdrlen) 0) flags.

(** [nla_put(msg, attrtype, datalen, data)] through [nla_reserve]. *)
Definition nla_put (m : nl_msg) (attrtype : Z) (data : list Z) : nl_err + nl_msg :=
  let attrlen := Z.of_nat (length data) in
  let h := nm_nlh m in
  let tlen := NLMSG_ALIGN (nlmsg_len h) + nla_total_size attrlen in
  if decide (nm_size m < tlen) then inl NLE_NOMEM
  else inr {| nm_size := nm_size m;
              nm_nlh := {| nlmsg_len := tlen; nlmsg_type := nlmsg_type h;
                           nlmsg_flags := nlmsg_flags h; nlmsg_seq := nlmsg_seq h;
                           nlmsg_pid := nlmsg_pid h |};
              nm_body := nm_body m
                ++ replicate (Z.to_nat (NLMSG_ALIGN (nlmsg_len h) - nlmsg_len h)) 0
                ++ nla_bytes attrtype data |}.

(** [nla_put_string(msg, attrtype, str)]: the C string and its NUL. *)
Definition nla_put_string (m : nl_msg) (attrtype : Z) (str : list Z) : nl_err + nl_msg :=
  nla_put m attrtype (cstr str ++ [NUL]).

(** The socket state [nl_complete_msg] reads. *)
Record nl_sock := { s_local_port : Z; s_seq_next : Z; s_no_auto_ack : bool }.

Definition NL_AUTO_PORT : Z := 0.
Definition NL_AUTO_SEQ : Z := 0.

(** [nl_complete_msg(sk, msg)], called by [nl_send_auto]. *)
Definition nl_complete_msg (sk : nl_sock) (m : nl_msg) : nl_sock * nl_msg :=
  let h := nm_nlh m in
  let pid := if decide (nlmsg_pid h = NL_AUTO_PORT) then s_local_port sk else nlmsg_pid h in
  let '(seq, sk') :=
    if decide (nlmsg_seq h = NL_AUTO_SEQ)
    then (s_seq_next sk, {| s_local_port := s_local_port sk; s_seq_next := s_seq_next sk + 1;
                           s_no_auto_ack := s_no_auto_ack sk |})
    else (nlmsg_seq h, sk) in
  let flags := Z.lor (nlmsg_flags h) NLM_F_REQUEST in
  let flags := if s_no_auto_ack sk then flags else Z.lor flags NLM_F_ACK in
  (sk', set_nlh m {| nlmsg_len := nlmsg_len h; nlmsg_type := nlmsg_type h;
                     nlmsg_flags := flags; nlmsg_seq := seq; nlmsg_pid := pid |}).

(** The bytes [nl_send] puts on the wire. *)
Definition nl_msg_bytes (m : nl_msg) : list Z := nlmsg_bytes (nm_nlh m) (nm_body m).

(** ** Parsing: [genlmsg_valid_hdr] and [genlmsg_parse]

    [bs] is one message as [nl_recvmsgs] hands it to the callback: its
    [nlmsg_len] was checked against the datagram by [nlmsg_ok].  The
    result is the return code and the attribute table [tb]; [None] for
    [tb] means [genlmsg_parse] returned before writing it (the caller's
    array is left as it was). *)
Definition msg_len (bs : list Z) : Z := le_val (take 4 bs).

Definition genlmsg_valid_hdr (bs : list Z) (hdrlen : Z) : bool :=
  bool_decide (NLMSG_HDRLEN + GENL_HDRLEN ≤ msg_len bs
               ∧ NLMSG_ALIGN hdrlen ≤ msg_len bs - NLMSG_HDRLEN - GENL_HDRLEN).

Definition genlmsg_attrdata (bs : list Z) (hdrlen : Z) : list Z :=
  let off := NLMSG_HDRLEN + GENL_HDRLEN + NLMSG_ALIGN hdrlen in
  take (Z.to_nat (msg_len bs - off)) (drop (Z.to_nat off) bs).

Definition genlmsg_parse (bs : list Z) (hdrlen maxtype : Z) (policy : list user_policy)
    : option nl_err * option attr_table :=
  if genlmsg_valid_hdr bs hdrlen then
    let '(err, tb) := libnl_nla_parse maxtype policy (genlmsg_attrdata bs hdrlen) in
    (err, Some tb)
  else (Some NLE_MSG_TOOSHORT, None).

End Libnl.

Module Kern.

(** The fields of [struct genl_family] the builder reads: the id and
    the multicast group offset are assigned by [genl_register_family]. *)
Record genl_family := {
  fam_id : Z; fam_version : Z; fam_hdrsize : Z; fam_maxattr : Z;
  fam_mcgrp_offset : Z; fam_n_mcgrps : Z }.

(** An [sk_buff] as its capacity and the bytes put so far. *)
Record sk_buff := { skb_size : Z; skb_data : list Z }.

Definition skb_tailroom (skb : sk_buff) : Z := skb_size skb - Z.of_nat (length (skb_data skb)).

Definition skb_put (skb : sk_buff) (bytes : list Z) : sk_buff :=
  {| skb_size := skb_size skb; skb_data := skb_data skb ++ bytes |}.

(** [NLMSG_DEFAULT_SIZE] for 4 KiB pages on x86-64:
    [SKB_WITH_OVERHEAD(PAGE_SIZE) - NLMSG_HDRLEN = 3776 - 16]. *)
Definition NLMSG_DEFAULT_SIZE : Z := 3760.

Definition nlmsg_total_size (payload : Z) : Z := NLMSG_ALIGN (NLMSG_HDRLEN + payload).
Definition genlmsg_total_size (payload : Z) : Z := NLMSG_ALIGN (GENL_HDRLEN + payload).

(** [genlmsg_new(payload, flags)]; [alloc_ok] is the allocator's answer. *)
Definition genlmsg_new (alloc_ok : bool) (payload : Z) : option sk_buff :=
  if alloc_ok then Some {| skb_size := nlmsg_total_size (genlmsg_total_size payload);
                           skb_data := [] |}
  else None.

(** [genlmsg_put(skb, portid, seq, family, flags, cmd)] through
    [nlmsg_put]: the result is the grown buffer and [hdr], the offset of
    the user header ([NULL] is [None]).  The header's [nlmsg_flags] is
    the [u16] truncation of [flags]. *)
Definition genlmsg_put (skb : sk_buff) (portid seq : Z) (fam : genl_family) (flags cmd : Z)
    : option (sk_buff * Z) :=
  let payload := GENL_HDRLEN + fam_hdrsize fam in
  if decide (skb_tailroom skb < nlmsg_total_size payload) then None
  else
    let size := NLMSG_HDRLEN + payload in
    let h := {| nlmsg_len := size; nlmsg_type := u16 (fam_id fam); nlmsg_flags := u16 flags;
                nlmsg_seq := u32 seq; nlmsg_pid := u32 portid |} in
    let off := Z.of_nat (length (skb_data skb)) in
    Some (skb_put skb (nlmsg_bytes h (genlmsghdr_bytes cmd (fam_version fam)
                        ++ replicate (Z.to_nat (NLMSG_ALIGN size - NLMSG_HDRLEN - GENL_HDRLEN)) 0)),
          off + NLMSG_HDRLEN + GENL_HDRLEN).

(** [nla_put(skb, attrtype, attrlen, data)]. *)
Definition nla_put (skb : sk_buff) (attrtype : Z) (data : list Z) : errno + sk_buff :=
  if decide (skb_tailroom skb < nla_total_size (Z.of_nat (length data))) then inl EMSGSIZE
  else inr (skb_put skb (nla_bytes attrtype data)).

Definition nla_put_string (skb : sk_buff) (attrtype : Z) (str : list Z) : errno + sk_buff :=
  nla_put skb attrtype (cstr str ++ [NUL]).

(** [genlmsg_end(skb, hdr)]: [nlmsg_len] of the header before [hdr]
    becomes the distance from it to the tail. *)
Definition genlmsg_end (skb : sk_buff) (hdr : Z) : sk_buff :=
  let off := hdr - GENL_HDRLEN - NLMSG_HDRLEN in
  let data := skb_data skb in
  let len := Z.of_nat (length data) - off in
  {| skb_size := skb_size skb;
     skb_data := take (Z.to_nat off) data ++ le_bytes 4 len ++ drop (Z.to_nat off + 4) data |}.

End Kern.

(** ** Wire-level lemmas *)
Lemma nlmsg_bytes_length h body :
  length (nlmsg_bytes h body) = (16 + length body)%nat.
Proof. unfold nlmsg_bytes. rewrite !length_app, !le_bytes_length by lia. simpl. lia. Qed.

Lemma nlmsg_bytes_len_field h body :
  le_val (take 4 (nlmsg_bytes h body)) = wrap 32 (nlmsg_len h).
Proof. unfold nlmsg_bytes. rewrite le_val_take_app by lia. done. Qed.

Lemma nlmsg_bytes_drop_hdr h body : drop 16 (nlmsg_bytes h body) = body.
Proof.
  unfold nlmsg_bytes.
  rewrite !drop_app_ge by (rewrite ?length_app, ?le_bytes_length; lia).
  rewrite !le_bytes_length by lia. done.
Qed.

Lemma NLMSG_ALIGN_0 : NLMSG_ALIGN 0 = 0.
Proof. reflexivity. Qed.

(** The parser reads back a generic-netlink message whose [nlmsg_len]
    covers exactly its two headers and its attribute stream: the
    attribute table is what [nla_parse] makes of that stream. *)
Lemma genlmsg_parse_wire h c v stream :
  nlmsg_len h = 20 + Z.of_nat (length stream) →
  nlmsg_len h < 2 ^ 32 →
  Libnl.genlmsg_parse (nlmsg_bytes h (genlmsghdr_bytes c v ++ stream)) 0
    GENL_TEST_ATTR_MAX genl_test_policy_user =
  let '(err, tb) := libnl_nla_parse GENL_TEST_ATTR_MAX genl_test_policy_user stream in
  (err, Some tb).
Proof.
  intros Hl Hb. unfold Libnl.genlmsg_parse, Libnl.genlmsg_valid_hdr, Libnl.genlmsg_attrdata,
    Libnl.msg_len.
  rewrite nlmsg_bytes_len_field, wrap_small, NLMSG_ALIGN_0 by lia.
  rewrite bool_decide_true by (unfold NLMSG_HDRLEN, GENL_HDRLEN; lia).
  unfold NLMSG_HDRLEN, GENL_HDRLEN.
  replace (Z.to_nat (16 + 4 + 0)) with (16 + 4)%nat by lia.
  rewrite <-drop_drop, nlmsg_bytes_drop_hdr, drop_app_length' by done.
  rewrite take_ge by lia. by destruct (libnl_nla_parse _ _ _).
Qed.

(** ** libnl's builder on a fresh message *)
Lemma libnl_genlmsg_put_fresh port seq fam flags cmd ver :
  Libnl.genlmsg_put
    {| Libnl.nm_size := Libnl.default_msg_size; Libnl.nm_nlh := nlmsghdr_init; Libnl.nm_body := [] |}
    port seq fam 0 flags cmd ver =
  Some {| Libnl.nm_size := Libnl.default_msg_size;
          Libnl.nm_nlh := {| nlmsg_len := 20; nlmsg_type := u16 fam; nlmsg_flags := u16 flags;
                             nlmsg_seq := u32 seq; nlmsg_pid := u32 port |};
          Libnl.nm_body := genlmsghdr_bytes cmd ver |}.
Proof. reflexivity. Qed.

(** [nla_put] on a message whose length is aligned and matches its body
    appends the attribute's wire image, when the capacity allows. *)
Lemma libnl_nla_put_ok (m : Libnl.nl_msg) t d :
  NLMSG_ALIGN (nlmsg_len (Libnl.nm_nlh m)) = nlmsg_len (Libnl.nm_nlh m) →
  nlmsg_len (Libnl.nm_nlh m) + nla_total_size (Z.of_nat (length d)) ≤ Libnl.nm_size m →
  Libnl.nla_put m t d =
  inr {| Libnl.nm_size := Libnl.nm_size m;
         Libnl.nm_nlh := {| nlmsg_len := nlmsg_len (Libnl.nm_nlh m) + nla_total_size (Z.of_nat (length d));
                            nlmsg_type := nlmsg_type (Libnl.nm_nlh m);
                            nlmsg_flags := nlmsg_flags (Libnl.nm_nlh m);
                            nlmsg_seq := nlmsg_seq (Libnl.nm_nlh m);
                            nlmsg_pid := nlmsg_pid (Libnl.nm_nlh m) |};
         Libnl.nm_body := Libnl.nm_body m ++ nla_bytes t d |}.
Proof.
  intros Hal Hsz. unfold Libnl.nla_put. rewrite Hal, decide_False by lia.
  by rewrite Z.sub_diag.
Qed.

Lemma libnl_nla_put_full (m : Libnl.nl_msg) t d :
  Libnl.nm_size m < NLMSG_ALIGN (nlmsg_len (Libnl.nm_nlh m)) + nla_total_size (Z.of_nat (length d)) →
  Libnl.nla_put m t d = inl NLE_NOMEM.
Proof. intros H. unfold Libnl.nla_put. by rewrite decide_True. Qed.

(** ** The kernel's builder on a fresh buffer *)
Lemma kern_genlmsg_put_fresh sz portid seq fam flags cmd :
  Kern.fam_hdrsize fam = 0 → 20 ≤ sz →
  Kern.genlmsg_put {| Kern.skb_size := sz; Kern.skb_data := [] |} portid seq fam flags cmd =
  Some ({| Kern.skb_size := sz;
           Kern.skb_data := nlmsg_bytes {| nlmsg_len := 20; nlmsg_type := u16 (Kern.fam_id fam);
                                           nlmsg_flags := u16 flags; nlmsg_seq := u32 seq;
                                           nlmsg_pid := u32 portid |}
                                        (genlmsghdr_bytes cmd (Kern.fam_version fam)) |}, 20).
Proof.
  intros H0 Hsz. unfold Kern.genlmsg_put, Kern.skb_tailroom, Kern.skb_put. rewrite H0.
  simpl. rewrite decide_False; [reflexivity|].
  change (Kern.nlmsg_total_size (GENL_HDRLEN + 0)) with 20. lia.
Qed.

Lemma kern_nla_put_ok skb t d :
  nla_total_size (Z.of_nat (length d)) ≤ Kern.skb_tailroom skb →
  Kern.nla_put skb t d = inr (Kern.skb_put skb (nla_bytes t d)).
Proof. intros H. unfold Kern.nla_put. by rewrite decide_False by lia. Qed.

(** [genlmsg_end] on a buffer that holds one message from its start sets
    the header's length to the length of the whole message. *)
Lemma kern_genlmsg_end_fresh sz h body :
  Kern.genlmsg_end {| Kern.skb_size := sz; Kern.skb_data := nlmsg_bytes h body |} 20 =
  {| Kern.skb_size := sz;
     Kern.skb_data := nlmsg_bytes {| nlmsg_len := 16 + Z.of_nat (length body); nlmsg_type := nlmsg_type h;
                                     nlmsg_flags := nlmsg_flags h; nlmsg_seq := nlmsg_seq h;
                                     nlmsg_pid := nlmsg_pid h |} body |}.
Proof.
  unfold Kern.genlmsg_end. cbn [Kern.skb_data Kern.skb_size]. f_equal.
  rewrite nlmsg_bytes_length. unfold nlmsg_bytes at 2.
  change (Z.to_nat (20 - GENL_HDRLEN - NLMSG_HDRLEN)) with 0%nat.
  rewrite drop_le_bytes_app by lia. unfold nlmsg_bytes.
  cbn [nlmsg_len nlmsg_type nlmsg_flags nlmsg_seq nlmsg_pid]. rewrite take_0, app_nil_l.
  f_equal. f_equal. unfold GENL_HDRLEN, NLMSG_HDRLEN. lia.
Qed.

Lemma nlmsg_bytes_app h body rest : nlmsg_bytes h body ++ rest = nlmsg_bytes h (body ++ rest).
Proof. unfold nlmsg_bytes. by rewrite <-!app_assoc. Qed.

Lemma nlmsg_bytes_type_field h body :
  le_val (take 2 (drop 4 (nlmsg_bytes h body))) = wrap 16 (nlmsg_type h).
Proof.
  unfold nlmsg_bytes. rewrite drop_le_bytes_app, le_val_take_app by lia. done.
Qed.

Lemma nlmsg_bytes_drop16 h body k : drop (16 + k) (nlmsg_bytes h body) = drop k body.
Proof. by rewrite <-drop_drop, nlmsg_bytes_drop_hdr. Qed.

Lemma nlmsg_bytes_nth16 h c rest d : nth 16 (nlmsg_bytes h (c :: rest)) d = c.
Proof.
  rewrite <-(take_drop 16 (nlmsg_bytes h (c :: rest))), app_nth2;
    rewrite length_take, nlmsg_bytes_length; [|simpl; lia].
  replace (16 - 16 `min` (16 + length (c :: rest)))%nat with 0%nat by lia.
  rewrite <-(Nat.add_0_r 16), nlmsg_bytes_drop16. done.
Qed.

Lemma genlmsghdr_length c v : length (genlmsghdr_bytes c v) = 4%nat.
Proof. done. Qed.

Lemma nlmsg_bytes_cmd h c v rest d :
  nth 16 (nlmsg_bytes h (genlmsghdr_bytes c v ++ rest)) d = u8 c.
Proof. exact (nlmsg_bytes_nth16 h (u8 c) _ d). Qed.

(** ** What the controller promises its clients

    [genl_ctrl_resolve] and [genl_ctrl_resolve_grp] as seen from user
    space: a family name resolves to an id, a group of a family to a
    group id.  A group resolves only in a family that resolves. *)
Class GenlCtrl (R : Type) := {
  ctrl_resolve : R → string → option Z;
  ctrl_resolve_grp : R → string → string → option Z;
  ctrl_resolve_grp_family r fam grp id :
    ctrl_resolve_grp r fam grp = Some id → is_Some (ctrl_resolve r fam)
}.
