(* ===== verification/Cli.v ===== *)
(** * The client's command line: [parse_cmd_line] and [add_group]

    [src/genl_ex.c] keeps three globals the command line sets:
    [message] (a 256-byte buffer), [send_to_kernel] and the group mask
    [mcgroups].  [parse_cmd_line] runs [getopt] over [argv] with the
    option string ["hl:m:s"], acts on each option as it comes (an
    invalid group or option exits at once), then checks that exactly one
    of listen and send mode was chosen.  The state is [cstate], the
    program runs in the process monad [PM] of [Prelude], and what it
    prints is recorded as [cout] events.

    The C library calls ([getopt], [strtok], [strtoul], [strncpy]) are
    modelled from their specification (glibc, 64-bit [unsigned long]). *)
From S2P Require Import Prelude Header.

(** ** What the client prints *)
Inductive cout :=
  | O_usage                       (* usage(argv[0]) *)
  | O_invalid_group (grp : Z)     (* "Invalid group number %u. ..." *)
  | O_getopt_error                (* getopt's own diagnostic *)
  | O_unknown_option (c : Z)      (* "Unkown option %c !!" *)
  | O_either_or                   (* "I can either receive or send messages." *)
  | O_nothing_to_do               (* "Nothing to do!" *)
  | O_no_message                  (* "What is the message you want to send?" *)
  | O_no_socket                   (* "Unable to alloc nl socket!" *)
  | O_no_connect                  (* "Unable to connect to genl!" *)
  | O_no_family                   (* "Unable to resolve family name!" *)
  | O_no_group (bit : Z)          (* "Unable to resolve group name for %u!" *)
  | O_no_join (bit : Z)           (* "Unable to join group %u!" *)
  | O_alloc_failed                (* "failed to allocate netlink message" *)
  | O_put_hdr_failed              (* "failed to put nl hdr!" *)
  | O_put_string_failed           (* "failed to put nl string!" *)
  | O_send_failed                 (* "failed to send nl message!" *)
  | O_kernel_empty                (* "Kernel sent empty message!!" *)
  | O_kernel_says (s : list Z).   (* "Kernel says: %s" *)

Global Instance cout_eq_dec : EqDecision cout.
Proof. solve_decision. Defined.

(** ** The globals *)
Record cstate := {
  message : list Z;        (* static char message[GENL_TEST_ATTR_MSG_MAX] *)
  send_to_kernel : Z;      (* static int send_to_kernel *)
  mcgroups : Z;            (* static unsigned int mcgroups *)
  cout_log : list cout }.

(** Static storage starts zeroed. *)
Definition cstate_init : cstate :=
  {| message := replicate (Z.to_nat GENL_TEST_ATTR_MSG_MAX) 0; send_to_kernel := 0;
     mcgroups := 0; cout_log := [] |}.

Definition set_message (m : list Z) (st : cstate) : cstate :=
  {| message := m; send_to_kernel := send_to_kernel st; mcgroups := mcgroups st; cout_log := cout_log st |}.
Definition set_send (v : Z) (st : cstate) : cstate :=
  {| message := message st; send_to_kernel := v; mcgroups := mcgroups st; cout_log := cout_log st |}.
Definition set_mcgroups (v : Z) (st : cstate) : cstate :=
  {| message := message st; send_to_kernel := send_to_kernel st; mcgroups := v; cout_log := cout_log st |}.
Definition add_out (o : cout) (st : cstate) : cstate :=
  {| message := message st; send_to_kernel := send_to_kernel st; mcgroups := mcgroups st;
     cout_log := cout_log st ++ [o] |}.

Definition emit (o : cout) : PM cstate unit := modifyS (add_out o).

(** ** [strtoul(s, NULL, 10)] *)
Definition ULONG_MAX : Z := 2 ^ 64 - 1.

Definition is_space (c : Z) : bool := bool_decide (c = 32 ∨ 9 ≤ c ≤ 13).
Definition is_digit (c : Z) : bool := bool_decide (48 ≤ c ≤ 57).

Fixpoint skip_spaces (s : list Z) : list Z :=
  match s with c :: s' => if is_space c then skip_spaces s' else s | [] => [] end.

Fixpoint take_digits (s : list Z) : list Z :=
  match s with c :: s' => if is_digit c then c :: take_digits s' else [] | [] => [] end.

Definition digits_value (ds : list Z) : Z := foldl (λ acc d, acc * 10 + (d - 48)) 0 ds.

(** Leading white space, an optional sign, then the longest run of
    digits; no digit gives 0, a value past [ULONG_MAX] saturates, and a
    minus sign negates modulo [2^64]. *)
Definition strtoul (s : list Z) : Z :=
  let s1 := skip_spaces (cstr s) in
  let '(neg, s2) := match s1 with
                    | 45 :: r => (true, r)    (* '-' *)
                    | 43 :: r => (false, r)   (* '+' *)
                    | _ => (false, s1) end in
  let ds := take_digits s2 in
  let v := digits_value ds in
  if decide (ds = []) then 0
  else if decide (ULONG_MAX < v) then ULONG_MAX
  else if neg then u64 (- v) else v.

(** ** [strtok(str, ",")] and the loop that calls it

    The successive tokens: maximal runs of bytes other than [','], empty
    runs skipped.  [None] is the [NULL] strtok returns at the end. *)
Definition COMMA : Z := 44.

Fixpoint split_commas (s : list Z) : list (list Z) :=
  match s with
  | [] => [[]]
  | c :: s' => if decide (c = COMMA) then [] :: split_commas s'
               else match split_commas s' with
                    | tok :: toks => (c :: tok) :: toks
                    | [] => [[c]]
                    end
  end.

Definition strtok_all (s : list Z) : list (list Z) :=
  filter (λ tok, tok ≠ []) (split_commas (cstr s)).

(** ** [getopt(argc, argv, "hl:m:s")]

    glibc's default ordering: non-option arguments are skipped (permuted
    to the end), ["--"] ends the options, a cluster such as ["-sl0"]
    yields its options in turn, and an option taking an argument takes
    the rest of its cluster or else the next word.  An unknown option or
    a missing argument makes getopt print a diagnostic and return ['?']. *)
Inductive opt := Opt_h | Opt_l (arg : list Z) | Opt_m (arg : list Z) | Opt_s | Opt_bad (c : Z).
Global Instance opt_eq_dec : EqDecision opt.
Proof. solve_decision. Defined.

Definition QUESTION : Z := 63.
Definition DASH : Z := 45.

Fixpoint getopt_args (args : list (list Z)) : list opt :=
  match args with
  | [] => []
  | a :: args' =>
      match a with
      | [45; 45] => []
      | 45 :: (_ :: _) as cs =>
          (fix cluster (cs : list Z) : list opt :=
             match cs with
             | [] => getopt_args args'
             | 104 :: cs' => Opt_h :: cluster cs'
             | 115 :: cs' => Opt_s :: cluster cs'
             | c :: cs' =>
                 if decide (c = 108 ∨ c = 109) then
                   let mk := if decide (c = 108) then Opt_l else Opt_m in
                   match cs' with
                   | _ :: _ => [mk cs'] ++ getopt_args args'
                   | [] => match args' with
                           | b :: args'' => mk b :: getopt_args args''
                           | [] => [Opt_bad QUESTION]
                           end
                   end
                 else Opt_bad QUESTION :: cluster cs'
             end) cs
      | _ => getopt_args args'
      end
  end.

(** The options of [argv] (after [argv[0]]), each a C string. *)
Definition getopt_all (argv : list (list Z)) : list opt := getopt_args (cstr <$> drop 1 argv).

(** ** [add_group] (lines 29-40) *)
Definition GRP_INVALID (grp : Z) : bool := bool_decide (GENL_TEST_MCGRP_MAX - 1 < grp).

Definition add_group (group : option (list Z)) : PM cstate unit :=
  match group with
  | None => crashS "strtoul(NULL)"
  | Some g =>
      let grp := u32 (strtoul g) in
      if GRP_INVALID grp then emit (O_invalid_group grp) ;; exitS EXIT_FAILURE
      else modifyS (λ st, set_mcgroups (u32 (Z.lor (mcgroups st) (Z.shiftl 1 grp))) st)
  end.

(** The [-l] case: the first [strtok] call, then the loop on [strtok(NULL, ",")]. *)
Fixpoint add_groups (toks : list (list Z)) : PM cstate unit :=
  match toks with
  | [] => mret ()
  | t :: toks' => add_group (Some t) ;; add_groups toks'
  end.

Definition opt_l (optarg : list Z) : PM cstate unit :=
  match strtok_all optarg with
  | [] => add_group None
  | t :: toks => add_group (Some t) ;; add_groups toks
  end.

(** [strncpy(message, optarg, 256); message[255] = '\0';] *)
Definition strncpy (dst src : list Z) (n : nat) : list Z :=
  take n (cstr src ++ replicate n 0) ++ drop n dst.

Definition opt_m (optarg : list Z) : PM cstate unit :=
  let n := Z.to_nat GENL_TEST_ATTR_MSG_MAX in
  modifyS (λ st, set_message (<[pred n := 0]> (strncpy (message st) optarg n)) st).

(** ** [parse_cmd_line] (lines 42-97) *)
Definition handle_opt (o : opt) : PM cstate unit :=
  match o with
  | Opt_h => emit O_usage ;; exitS EXIT_SUCCESS
  | Opt_l arg => opt_l arg
  | Opt_m arg => opt_m arg
  | Opt_s => modifyS (set_send 1)
  | Opt_bad c => emit O_getopt_error ;; emit (O_unknown_option c) ;; exitS EXIT_FAILURE
  end.

Fixpoint handle_opts (os : list opt) : PM cstate unit :=
  match os with
  | [] => mret ()
  | o :: os' => handle_opt o ;; handle_opts os'
  end.

Definition sanity_checks : PM cstate unit :=
  st ← getS;
  if decide (send_to_kernel st ≠ 0 ∧ mcgroups st ≠ 0) then
    emit O_either_or ;; emit O_usage ;; exitS EXIT_FAILURE
  else if decide (send_to_kernel st = 0 ∧ mcgroups st = 0) then
    emit O_nothing_to_do ;; emit O_usage ;; exitS EXIT_SUCCESS
  else if decide (send_to_kernel st ≠ 0 ∧ head (message st) = Some NUL) then
    emit O_no_message ;; emit O_usage ;; exitS EXIT_FAILURE
  else mret ().

Definition parse_cmd_line (argv : list (list Z)) : PM cstate unit :=
  handle_opts (getopt_all argv) ;; sanity_checks.

(** * Properties of the command line *)

(** ** The group mask stays within the three groups

    [mcgroups] only ever holds bits 0 to 2, whatever the command line and
    whether [parse_cmd_line] returns, exits or crashes. *)
Definition mask_inv (st : cstate) : Prop := 0 ≤ mcgroups st < 8.

Lemma lor_bit_bound a g : 0 ≤ a < 8 → 0 ≤ g ≤ 2 → 0 ≤ Z.lor a (Z.shiftl 1 g) < 8.
Proof.
  intros Ha Hg. change 8 with (2 ^ 3). apply lor_lt_pow2; [lia|lia|].
  rewrite Z.shiftl_1_l. split; [apply Z.pow_nonneg; lia|apply Z.pow_lt_mono_r; lia].
Qed.

Lemma u32_small z : 0 ≤ z < 2 ^ 32 → u32 z = z.
Proof. apply wrap_small. Qed.

Lemma emit_preserves (P : cstate → Prop) o :
  (∀ st, P st → P (add_out o st)) → preserves P (emit o).
Proof. intros H. by apply preserves_modify. Qed.

Lemma add_group_mask_inv g : preserves mask_inv (add_group g).
Proof.
  destruct g as [g|]; simpl; [|pm_preserves].
  unfold GRP_INVALID. case_bool_decide as Hinv.
  - pm_preserves. by apply emit_preserves.
  - pm_preserves. unfold mask_inv in *; simpl. unfold_consts.
    pose proof (wrap_range 32 (strtoul g)). fold (u32 (strtoul g)) in *.
    rewrite u32_small; [apply lor_bit_bound; lia|].
    pose proof (lor_bit_bound (mcgroups s) (u32 (strtoul g))). lia.
Qed.

Lemma add_groups_mask_inv toks : preserves mask_inv (add_groups toks).
Proof. induction toks; cbn [add_groups]; pm_preserves; auto using add_group_mask_inv. Qed.

Lemma handle_opts_mask_inv os : preserves mask_inv (handle_opts os).
Proof.
  induction os as [|o os IH]; simpl; pm_preserves; [|done].
  destruct o; simpl; unfold opt_l, opt_m;
    [| destruct (strtok_all arg) | | | ]; pm_preserves;
    try apply emit_preserves; auto using add_group_mask_inv, add_groups_mask_inv.
Qed.

Lemma sanity_checks_mask_inv : preserves mask_inv sanity_checks.
Proof.
  unfold sanity_checks. pm_preserves. repeat case_decide; pm_preserves; by apply emit_preserves.
Qed.

(** C13: the group mask never has a bit outside the three groups. *)
Theorem parse_cmd_line_mask_bounded argv :
  0 ≤ mcgroups (parse_cmd_line argv cstate_init).2 < 8.
Proof.
  apply (preserves_bind mask_inv); [apply handle_opts_mask_inv|..|done].
  intros _. apply sanity_checks_mask_inv.
Qed.

(** ** Splitting on commas *)
Fixpoint join_commas (toks : list (list Z)) : list Z :=
  match toks with
  | [] => []
  | [t] => t
  | t :: toks' => t ++ COMMA :: join_commas toks'
  end.

Lemma join_commas_cons2 t t' toks :
  join_commas (t :: t' :: toks) = t ++ COMMA :: join_commas (t' :: toks).
Proof. done. Qed.

Lemma split_commas_comma s : split_commas (COMMA :: s) = [] :: split_commas s.
Proof. reflexivity. Qed.

Lemma split_commas_ne s : split_commas s ≠ [].
Proof. destruct s as [|c s]; simpl; [done|]. case_decide; [done|]. by destruct (split_commas s). Qed.

Lemma split_commas_app t s :
  COMMA ∉ t →
  split_commas (t ++ s) = (t ++ default [] (head (split_commas s))) :: tail (split_commas s).
Proof.
  induction t as [|c t IH]; intros Ht; simpl.
  - pose proof (split_commas_ne s). by destruct (split_commas s).
  - case_decide; [set_solver|]. rewrite IH by set_solver. done.
Qed.

Lemma split_commas_join toks :
  toks ≠ [] → Forall (λ t, COMMA ∉ t) toks → split_commas (join_commas toks) = toks.
Proof.
  induction toks as [|t [|t' toks] IH]; intros Hne Hall; [done| |].
  - inversion Hall; subst. cbn [join_commas].
    rewrite <-(app_nil_r t) at 1. rewrite split_commas_app by done. by rewrite app_nil_r.
  - inversion Hall; subst. rewrite join_commas_cons2, split_commas_app, split_commas_comma by done.
    cbn [head tail default]. rewrite IH by done. by rewrite app_nil_r.
Qed.

Lemma join_commas_not_elem x toks :
  x ≠ COMMA → Forall (λ t, x ∉ t) toks → x ∉ join_commas toks.
Proof.
  intros Hx Hall. induction Hall as [|t [|t' toks] Ht _ IH]; [set_solver|done|].
  rewrite join_commas_cons2, elem_of_app, elem_of_cons. naive_solver.
Qed.

Lemma strtok_all_join toks :
  (toks ≠ []) → Forall (λ t, (t ≠ []) ∧ (COMMA ∉ t) ∧ (NUL ∉ t)) toks →
  strtok_all (join_commas toks) = toks.
Proof.
  intros Hne Hall. unfold strtok_all.
  assert (NUL ∉ join_commas toks).
  { apply join_commas_not_elem; [done|]. eapply Forall_impl; [done|]. naive_solver. }
  rewrite cstr_no_nul, split_commas_join by (done || (eapply Forall_impl; [done|]; naive_solver)).
  apply filter_Forall_id. eapply Forall_impl; [done|]; naive_solver.
Qed.

(** ** [add_group] on a valid group *)
Lemma set_mcgroups_mcgroups v st : mcgroups (set_mcgroups v st) = v.
Proof. done. Qed.

Lemma set_mcgroups_twice v w st : set_mcgroups v (set_mcgroups w st) = set_mcgroups v st.
Proof. done. Qed.

Definition add_bit (m g : Z) : Z := u32 (Z.lor m (Z.shiftl 1 g)).

Lemma add_group_valid g st :
  u32 (strtoul g) ≤ 2 →
  add_group (Some g) st = (Done (), set_mcgroups (add_bit (mcgroups st) (u32 (strtoul g))) st).
Proof.
  intros H. unfold add_group, GRP_INVALID. unfold_consts.
  rewrite bool_decide_false by lia. done.
Qed.

Lemma add_groups_valid toks st :
  Forall (λ t, u32 (strtoul t) ≤ 2) toks →
  add_groups toks st =
  (Done (), set_mcgroups (foldl (λ m t, add_bit m (u32 (strtoul t))) (mcgroups st) toks) st).
Proof.
  intros Hall. revert st. induction Hall as [|t toks Ht _ IH]; intros st; simpl.
  - by destruct st.
  - erewrite pm_bind_Done by (by apply add_group_valid). by rewrite IH.
Qed.

(** The bits of the mask are exactly the groups added. *)
Lemma testbit_add_bits m vs i :
  0 ≤ m < 8 → Forall (λ v, 0 ≤ v ≤ 2) vs →
  Z.testbit (foldl add_bit m vs) i = Z.testbit m i || bool_decide (i ∈ vs).
Proof.
  intros Hm Hall. revert m Hm. induction Hall as [|v vs Hv _ IH]; intros m Hm; cbn [foldl].
  - rewrite bool_decide_false by set_solver. by rewrite orb_false_r.
  - assert (0 ≤ Z.lor m (Z.shiftl 1 v) < 8) by (apply lor_bit_bound; lia).
    unfold add_bit. rewrite IH by (rewrite u32_small; lia).
    rewrite u32_small by lia. rewrite Z.lor_spec, Z.shiftl_1_l.
    destruct (decide (0 ≤ i)).
    + rewrite Z.pow2_bits_eqb by lia. rewrite <-orb_assoc. f_equal.
      destruct (Z.eqb_spec v i); subst; repeat case_bool_decide; set_solver.
    + rewrite !Z.testbit_neg_r by lia. repeat case_bool_decide; set_solver by lia.
Qed.

(** ** Listen mode: [-l g0,g1,...] *)
Definition group_tok (g : Z) : list Z := [48 + g].
Definition group_arg (gs : list Z) : list Z := join_commas (group_tok <$> gs).

Lemma strtoul_group_tok g : 0 ≤ g ≤ 2 → u32 (strtoul (group_tok g)) = g.
Proof. intros Hg. assert (g = 0 ∨ g = 1 ∨ g = 2) as [->|[->| ->]] by lia; reflexivity. Qed.

Lemma group_arg_tokens gs :
  gs ≠ [] → Forall (λ g, 0 ≤ g ≤ 2) gs → strtok_all (group_arg gs) = group_tok <$> gs.
Proof.
  intros Hne Hall. apply strtok_all_join; [by destruct gs|].
  apply Forall_fmap. eapply Forall_impl; [done|]. intros g Hg. simpl.
  unfold group_tok, COMMA, NUL. set_solver by lia.
Qed.

Lemma group_arg_no_nul gs : Forall (λ g, 0 ≤ g ≤ 2) gs → NUL ∉ group_arg gs.
Proof.
  intros Hall. apply join_commas_not_elem; [done|]. apply Forall_fmap.
  eapply Forall_impl; [done|]. intros g Hg. unfold group_tok, NUL. simpl. set_solver by lia.
Qed.

Lemma add_groups_tokens gs st :
  Forall (λ g, 0 ≤ g ≤ 2) gs →
  add_groups (group_tok <$> gs) st = (Done (), set_mcgroups (foldl add_bit (mcgroups st) gs) st).
Proof.
  intros Hall. revert st. induction Hall as [|g gs Hg _ IH]; intros st; simpl.
  - by destruct st.
  - erewrite pm_bind_Done by (apply add_group_valid; rewrite strtoul_group_tok; lia).
    rewrite IH, strtoul_group_tok by done. done.
Qed.

(** A listen-mode state passes the sanity checks unchanged. *)
Lemma sanity_checks_listen st :
  send_to_kernel st = 0 → mcgroups st ≠ 0 → sanity_checks st = (Done (), st).
Proof.
  intros Hs Hm. unfold sanity_checks. rewrite pm_bind_get.
  rewrite !decide_False by naive_solver. done.
Qed.

Lemma add_bits_bound m vs :
  0 ≤ m < 8 → Forall (λ v, 0 ≤ v ≤ 2) vs → 0 ≤ foldl add_bit m vs < 8.
Proof.
  intros Hm Hall. revert m Hm. induction Hall as [|v vs Hv _ IH]; intros m Hm; [done|].
  cbn [foldl]. apply IH. unfold add_bit.
  pose proof (lor_bit_bound m v Hm Hv). rewrite u32_small; lia.
Qed.

Lemma add_bits_nonzero gs :
  gs ≠ [] → Forall (λ g, 0 ≤ g ≤ 2) gs → foldl add_bit 0 gs ≠ 0.
Proof.
  intros Hne Hall HM0. destruct gs as [|g gs]; [done|].
  pose proof (testbit_add_bits 0 (g :: gs) g ltac:(lia) Hall) as Hb.
  rewrite HM0, Z.testbit_0_l, bool_decide_true in Hb by set_solver. done.
Qed.

Lemma parse_cmd_line_listen_run prog gs :
  gs ≠ [] → Forall (λ g, 0 ≤ g ≤ 2) gs →
  ∃ st, parse_cmd_line [prog; [DASH; 108]; group_arg gs] cstate_init = (Done (), st) ∧
        send_to_kernel st = 0 ∧ (∀ i, Z.testbit (mcgroups st) i = bool_decide (i ∈ gs)) ∧
        0 < mcgroups st < 8 ∧ cout_log st = [].
Proof.
  intros Hne Hall. set (M := foldl add_bit 0 gs).
  assert (HM : ∀ i, Z.testbit M i = bool_decide (i ∈ gs)).
  { intros i. unfold M. rewrite testbit_add_bits by (done || lia). by rewrite Z.testbit_0_l. }
  assert (HB : 0 < M < 8).
  { pose proof (add_bits_bound 0 gs ltac:(lia) Hall). pose proof (add_bits_nonzero gs Hne Hall).
    unfold M. lia. }
  exists (set_mcgroups M cstate_init). split_and!; [|done|done|apply HB|apply HB|done].
  unfold parse_cmd_line, getopt_all. simpl. rewrite cstr_no_nul by by apply group_arg_no_nul.
  erewrite pm_bind_Done; [apply sanity_checks_listen; [done|]|].
  - rewrite set_mcgroups_mcgroups. by apply add_bits_nonzero.
  - erewrite pm_bind_Done; [reflexivity|]. unfold opt_l.
    rewrite group_arg_tokens by done. destruct gs as [|g gs]; [done|].
    apply (add_groups_tokens (g :: gs)). done.
Qed.

(** C5: [-l g0,g1,...] with indices in [0, 2] selects listen mode, and the
    mask has exactly the bits of the listed groups (a repeated index sets
    its bit once). *)
Theorem parse_cmd_line_listen prog gs :
  gs ≠ [] → Forall (λ g, 0 ≤ g ≤ 2) gs →
  ∃ st, parse_cmd_line [prog; [DASH; 108]; group_arg gs] cstate_init = (Done (), st) ∧
        send_to_kernel st = 0 ∧ ∀ i, Z.testbit (mcgroups st) i = bool_decide (i ∈ gs).
Proof.
  intros Hne Hall. destruct (parse_cmd_line_listen_run prog gs Hne Hall) as (st & E & Hs & Hb & _).
  exists st. split_and!; [exact E|exact Hs|exact Hb].
Qed.

(** ** Send mode: [-s -m text] and the 255-byte clamp *)
Lemma cstr_head l x r : cstr l = x :: r → head l = Some x ∧ x ≠ NUL.
Proof. destruct l as [|y l]; simpl; [done|]. case_decide; [done|]. by intros [= -> _]. Qed.

Lemma take_no_nul n s : NUL ∉ s → NUL ∉ take n s.
Proof. intros Hs Hin. apply Hs. rewrite <-(take_drop n s). set_solver. Qed.

(** The [-m] handler keeps the first 255 bytes of its argument, then the
    NUL it writes at [message[255]] (or the padding [strncpy] wrote). *)
Lemma opt_m_message dst arg :
  length dst = Z.to_nat GENL_TEST_ATTR_MSG_MAX →
  cstr (<[pred (Z.to_nat GENL_TEST_ATTR_MSG_MAX) := 0]>
          (strncpy dst arg (Z.to_nat GENL_TEST_ATTR_MSG_MAX)))
  = take 255 (cstr arg).
Proof.
  unfold_consts. intros Hlen. simpl. unfold strncpy.
  rewrite (drop_ge dst) by lia. rewrite app_nil_r.
  set (c := cstr arg).
  rewrite insert_take_drop by (rewrite length_take, length_app, length_replicate; lia).
  rewrite drop_ge by (rewrite length_take, length_app, length_replicate; lia).
  rewrite take_take, Nat.min_l, take_app, take_replicate by lia.
  rewrite <-app_assoc, <-replicate_cons_app, cstr_app_nul; [done|].
  apply take_no_nul, cstr_not_nul.
Qed.

Lemma sanity_checks_send st :
  send_to_kernel st ≠ 0 → mcgroups st = 0 → head (message st) ≠ Some NUL →
  sanity_checks st = (Done (), st).
Proof.
  intros Hs Hm Hh. unfold sanity_checks. rewrite pm_bind_get.
  rewrite !decide_False by naive_solver. done.
Qed.

Lemma parse_cmd_line_send_run prog msg :
  NUL ∉ msg → msg ≠ [] →
  ∃ st, parse_cmd_line [prog; [DASH; 115]; [DASH; 109]; msg] cstate_init = (Done (), st) ∧
        send_to_kernel st = 1 ∧ mcgroups st = 0 ∧ cstr (message st) = take 255 msg ∧
        length (message st) = 256%nat.
Proof.
  intros Hnul Hne.
  set (m := <[pred (Z.to_nat GENL_TEST_ATTR_MSG_MAX) := 0]>
              (strncpy (message cstate_init) msg (Z.to_nat GENL_TEST_ATTR_MSG_MAX))).
  assert (Hm : cstr m = take 255 msg).
  { unfold m. rewrite opt_m_message, cstr_no_nul by (done || reflexivity). done. }
  exists (set_message m (set_send 1 cstate_init)). split_and!; [|done|done|done|].
  2:{ unfold m, strncpy. cbn [set_message message].
      rewrite length_insert, length_app, length_take, length_drop, length_app, length_replicate.
      cbn [message cstate_init]. rewrite length_replicate. unfold_consts. change (Z.to_nat 256) with 256%nat. lia. }
  unfold parse_cmd_line, getopt_all. simpl. rewrite cstr_no_nul by done.
  erewrite pm_bind_Done; [apply sanity_checks_send; [done|done|]|reflexivity].
  simpl. destruct msg as [|x r]; [done|]. rewrite firstn_cons in Hm.
  destruct (cstr_head _ _ _ Hm) as [-> Hx]. congruence.
Qed.

(** C6: [-s -m text] with a non-empty [text] selects send mode with no
    group, and the message is the first 255 bytes of [text] (a longer
    text is clamped silently, a shorter one kept whole). *)
Theorem parse_cmd_line_send prog msg :
  NUL ∉ msg → msg ≠ [] →
  ∃ st, parse_cmd_line [prog; [DASH; 115]; [DASH; 109]; msg] cstate_init = (Done (), st) ∧
        send_to_kernel st = 1 ∧ mcgroups st = 0 ∧ cstr (message st) = take 255 msg ∧
        length (message st) = 256%nat.
Proof. exact (parse_cmd_line_send_run prog msg). Qed.

(** ** Rejected command lines *)

(** The options of a send request without a message: [-s], and [-m]
    with an empty text. *)
Definition no_text_opt (o : opt) : Prop := o = Opt_s ∨ o = Opt_m [].
Global Instance no_text_opt_dec o : Decision (no_text_opt o).
Proof. unfold no_text_opt. apply _. Defined.

(** [-m ""] leaves the zeroed buffer as it was. *)
Lemma opt_m_empty (b : bool) :
  opt_m [] (if b then set_send 1 cstate_init else cstate_init) =
  (Done (), if b then set_send 1 cstate_init else cstate_init).
Proof. by destruct b. Qed.

Lemma handle_opts_no_text os (b : bool) :
  Forall no_text_opt os →
  handle_opts os (if b then set_send 1 cstate_init else cstate_init) =
  (Done (), if b || bool_decide (Opt_s ∈ os) then set_send 1 cstate_init else cstate_init).
Proof.
  intros Hall. revert b. induction Hall as [|o os Ho _ IH]; intros b.
  { by rewrite orb_false_r. }
  cbn [handle_opts]. destruct Ho as [->| ->].
  - erewrite (pm_bind_Done _ _ _ () (set_send 1 cstate_init)) by (destruct b; reflexivity).
    rewrite (IH true), (bool_decide_true (Opt_s ∈ Opt_s :: os)) by set_solver.
    by rewrite orb_true_r.
  - erewrite pm_bind_Done by apply opt_m_empty. rewrite IH.
    rewrite (bool_decide_ext (Opt_s ∈ Opt_m [] :: os) (Opt_s ∈ os)); [done|].
    rewrite elem_of_cons. naive_solver.
Qed.

(** C23: a command line whose options ask for send mode with no message
    (any number of [-s], in any clusters, and possibly an empty [-m])
    exits with failure after printing the question and the usage,
    before any socket is opened. *)
Theorem parse_cmd_line_send_no_message argv :
  Forall no_text_opt (getopt_all argv) → Opt_s ∈ getopt_all argv →
  parse_cmd_line argv cstate_init =
  (Exited EXIT_FAILURE,
   add_out O_usage (add_out O_no_message (set_send 1 cstate_init))).
Proof.
  intros Hall Hs. unfold parse_cmd_line.
  erewrite pm_bind_Done by exact (handle_opts_no_text _ false Hall).
  rewrite bool_decide_true by done. reflexivity.
Qed.

(** C24: listen and send together ([-l ... -s]) exit with failure after
    printing the complaint and the usage. *)
Theorem parse_cmd_line_listen_and_send prog gs :
  gs ≠ [] → Forall (λ g, 0 ≤ g ≤ 2) gs →
  ∃ st, parse_cmd_line [prog; [DASH; 108]; group_arg gs; [DASH; 115]] cstate_init =
          (Exited EXIT_FAILURE, st) ∧
        cout_log st = [O_either_or; O_usage].
Proof.
  intros Hne Hall. set (M := foldl add_bit 0 gs).
  assert (HM : M ≠ 0) by (by apply add_bits_nonzero).
  exists (add_out O_usage (add_out O_either_or (set_send 1 (set_mcgroups M cstate_init)))).
  split; [|done].
  unfold parse_cmd_line, getopt_all. simpl. rewrite cstr_no_nul by by apply group_arg_no_nul.
  unfold opt_l. rewrite group_arg_tokens by done. destruct gs as [|g gs']; [done|].
  erewrite pm_bind_Done;
    [|erewrite pm_bind_Done; [reflexivity|apply (add_groups_tokens (g :: gs')); done]].
  unfold sanity_checks. rewrite pm_bind_get. simpl.
  rewrite decide_True by (split; [lia|exact HM]). reflexivity.
Qed.

(** ** Exactly one mode *)
Definition one_mode (st : cstate) : Prop :=
  (send_to_kernel st ≠ 0 ∧ mcgroups st = 0 ∧ head (message st) ≠ Some NUL) ∨
  (send_to_kernel st = 0 ∧ mcgroups st ≠ 0).

Lemma sanity_checks_done st a st' :
  sanity_checks st = (Done a, st') → st' = st ∧ one_mode st.
Proof.
  unfold sanity_checks, one_mode. rewrite pm_bind_get.
  destruct (Z.eq_dec (send_to_kernel st) 0), (Z.eq_dec (mcgroups st) 0),
    (decide (head (message st) = Some NUL));
    repeat case_decide; unfold emit, exitS; autorewrite with pm_rw; intros Heq; simplify_eq;
    naive_solver.
Qed.

(** C7: when [parse_cmd_line] returns, the client is in exactly one of
    send mode (with a non-empty message and no group) and listen mode. *)
Theorem parse_cmd_line_one_mode argv st :
  parse_cmd_line argv cstate_init = (Done (), st) → one_mode st.
Proof.
  unfold parse_cmd_line. unfold mbind at 1, PM_bind at 1.
  destruct (handle_opts (getopt_all argv) cstate_init) as [[[]|c|w] s1]; try done.
  intros H. by apply sanity_checks_done in H as [-> ?].
Qed.

Definition argv_send_hi : list (list Z) := [[120]; [DASH; 115]; [DASH; 109]; [104; 105]].

Lemma parse_cmd_line_one_mode_witness :
  one_mode (parse_cmd_line argv_send_hi cstate_init).2.
Proof. apply (parse_cmd_line_one_mode argv_send_hi). vm_compute. reflexivity. Defined.

(** ** What [add_group] accepts *)

(** A decimal index: a non-empty run of digits. *)
Definition decimal (ds : list Z) : Prop := ds ≠ [] ∧ Forall (λ c, is_digit c = true) ds.
Global Instance decimal_dec ds : Decision (decimal ds).
Proof. unfold decimal. apply _. Defined.

Lemma is_digit_range c : is_digit c = true → 48 ≤ c ≤ 57.
Proof. unfold is_digit. by case_bool_decide. Qed.

Lemma take_digits_all ds : Forall (λ c, is_digit c = true) ds → take_digits ds = ds.
Proof. induction 1 as [|c ds Hc _ IH]; [done|]. cbn. by rewrite Hc, IH. Qed.

Lemma decimal_no_nul ds : decimal ds → NUL ∉ ds.
Proof.
  intros [_ Hall] Hin. rewrite Forall_forall in Hall.
  pose proof (is_digit_range _ (Hall _ Hin)). unfold NUL in *. lia.
Qed.

Lemma decimal_no_comma ds : decimal ds → COMMA ∉ ds.
Proof.
  intros [_ Hall] Hin. rewrite Forall_forall in Hall.
  pose proof (is_digit_range _ (Hall _ Hin)). unfold COMMA in *. lia.
Qed.

(** [strtoul] reads a decimal index as its value, saturated at
    [ULONG_MAX]. *)
Lemma strtoul_decimal ds : decimal ds → strtoul ds = Z.min (digits_value ds) ULONG_MAX.
Proof.
  intros Hd. pose proof (decimal_no_nul ds Hd) as Hnul. destruct Hd as [Hne Hall].
  unfold strtoul. rewrite cstr_no_nul by done.
  destruct ds as [|c r]; [done|]. pose proof Hall as Hall'. apply Forall_cons in Hall' as [Hc _].
  pose proof (is_digit_range c Hc) as Hr.
  assert (Hs : skip_spaces (c :: r) = c :: r).
  { cbn. unfold is_space. rewrite bool_decide_false by lia. done. }
  rewrite Hs.
  assert (c = 48 ∨ c = 49 ∨ c = 50 ∨ c = 51 ∨ c = 52 ∨ c = 53 ∨ c = 54 ∨ c = 55 ∨ c = 56 ∨ c = 57)
    as Hcs by lia.
  destruct_or! Hcs; subst c; cbn -[digits_value ULONG_MAX take_digits];
    rewrite (take_digits_all (_ :: r)) by done; rewrite decide_False by done; case_decide; lia.
Qed.


Lemma strtok_all_decimal ds : decimal ds → strtok_all ds = [ds].
Proof.
  intros Hd. pose proof (decimal_no_nul ds Hd). pose proof (decimal_no_comma ds Hd).
  apply (strtok_all_join [ds]); [done|]. repeat constructor; [apply Hd|done|done].
Qed.

(** C16: [-l] with one decimal index [ds] is accepted exactly when the
    index, read by [strtoul] and truncated to the [unsigned int grp], is
    at most 2, and then selects that group alone; otherwise the client
    prints "Invalid group number" with the truncated value and exits
    with failure.  The truncation comes before the range check, so an
    index such as 4294967296 (2^32) is accepted as group 0. *)
Theorem parse_cmd_line_decimal_group prog ds :
  decimal ds →
  let grp := u32 (Z.min (digits_value ds) ULONG_MAX) in
  parse_cmd_line [prog; [DASH; 108]; ds] cstate_init =
  if decide (grp ≤ 2) then (Done (), set_mcgroups (2 ^ grp) cstate_init)
  else (Exited EXIT_FAILURE, add_out (O_invalid_group grp) cstate_init).
Proof.
  intros Hd grp. unfold parse_cmd_line, getopt_all. simpl.
  rewrite cstr_no_nul by by apply decimal_no_nul.
  unfold opt_l. rewrite strtok_all_decimal by done.
  unfold add_group. rewrite strtoul_decimal by done. fold grp.
  pose proof (wrap_range 32 (Z.min (digits_value ds) ULONG_MAX)) as Hg. fold (u32 (Z.min (digits_value ds) ULONG_MAX)) in Hg. fold grp in Hg.
  unfold GRP_INVALID. unfold_consts. case_decide.
  - rewrite bool_decide_false by lia.
    assert (E : u32 (Z.lor (mcgroups cstate_init) (Z.shiftl 1 grp)) = 2 ^ grp).
    { cbn [mcgroups cstate_init]. rewrite Z.lor_0_l, Z.shiftl_1_l, u32_small; [done|].
      split; [lia|]. apply (Z.le_lt_trans _ (2 ^ 2)); [apply Z.pow_le_mono_r; lia|]. lia. }
    rewrite (pm_bind_Done _ _ cstate_init () (set_mcgroups (2 ^ grp) cstate_init)).
    + apply sanity_checks_listen; [done|]. cbn. apply Z.pow_nonzero; lia.
    + erewrite pm_bind_Done; [reflexivity|]. rewrite pm_bind_modify, <-E. reflexivity.
  - rewrite bool_decide_true by lia. reflexivity.
Qed.

Lemma split_commas_all s : Forall (λ c, c = COMMA) s → Forall (λ t, t = []) (split_commas s).
Proof.
  induction 1 as [|c s -> _ IH]; [by repeat constructor|].
  rewrite split_commas_comma. by constructor.
Qed.

(** A group list made of commas only has no token: [strtok] returns
    [NULL] at once. *)
Lemma strtok_all_commas s : Forall (λ c, c = COMMA) s → strtok_all s = [].
Proof.
  intros Hall. unfold strtok_all. rewrite cstr_no_nul.
  - apply split_commas_all in Hall. induction Hall as [|t toks -> _ IH]; [done|].
    rewrite filter_cons_False; [done|]. by intros [].
  - intros Hin. rewrite Forall_forall in Hall. specialize (Hall _ Hin). done.
Qed.

(** C17: a group list with no token (["-l ,"], ["-l ,,"], ..., or the
    empty ["-l ''"]) makes the first [strtok] return [NULL], which
    [add_group] hands to [strtoul]. *)
Theorem add_group_null_token prog arg :
  Forall (λ c, c = COMMA) arg →
  (parse_cmd_line [prog; [DASH; 108]; arg] cstate_init).1 = Crashed "strtoul(NULL)".
Proof.
  intros Hall. unfold parse_cmd_line, getopt_all. simpl.
  rewrite cstr_no_nul by (intros Hin; rewrite Forall_forall in Hall; by specialize (Hall _ Hin)).
  unfold opt_l. rewrite strtok_all_commas by done. reflexivity.
Qed.

(** ** Witnesses *)
Lemma parse_cmd_line_listen_witness :
  ∃ st, parse_cmd_line [[120]; [DASH; 108]; group_arg [0; 2]] cstate_init = (Done (), st) ∧
        send_to_kernel st = 0 ∧ ∀ i, Z.testbit (mcgroups st) i = bool_decide (i ∈ [0; 2]).
Proof. apply parse_cmd_line_listen; [discriminate|repeat constructor; lia]. Defined.

Lemma parse_cmd_line_send_witness :
  ∃ st, parse_cmd_line [[120]; [DASH; 115]; [DASH; 109]; bytes_of_string "ping"] cstate_init
          = (Done (), st) ∧
        send_to_kernel st = 1 ∧ mcgroups st = 0 ∧ cstr (message st) = take 255 (bytes_of_string "ping") ∧
        length (message st) = 256%nat.
Proof. apply parse_cmd_line_send; [vm_compute; set_solver|discriminate]. Defined.

Lemma parse_cmd_line_listen_and_send_witness :
  ∃ st, parse_cmd_line [[120]; [DASH; 108]; group_arg [0]; [DASH; 115]] cstate_init =
          (Exited EXIT_FAILURE, st) ∧ cout_log st = [O_either_or; O_usage].
Proof. apply parse_cmd_line_listen_and_send; [discriminate|repeat constructor; lia]. Defined.

Lemma parse_cmd_line_send_no_message_witness :
  parse_cmd_line [[120]; [DASH; 115; 115]; [DASH; 109]; []] cstate_init =
  (Exited EXIT_FAILURE, add_out O_usage (add_out O_no_message (set_send 1 cstate_init))).
Proof.
  apply parse_cmd_line_send_no_message; apply (bool_decide_unpack _); vm_compute; reflexivity.
Defined.

Lemma parse_cmd_line_decimal_group_witness :
  parse_cmd_line [[120]; [DASH; 108]; bytes_of_string "4294967296"] cstate_init =
  (Done (), set_mcgroups 1 cstate_init).
Proof.
  rewrite (parse_cmd_line_decimal_group [120] (bytes_of_string "4294967296"));
    [vm_compute; reflexivity|apply (bool_decide_unpack _); vm_compute; reflexivity].
Defined.

Lemma add_group_null_token_witness :
  (parse_cmd_line [[120]; [DASH; 108]; [COMMA; COMMA]] cstate_init).1 = Crashed "strtoul(NULL)".
Proof. apply add_group_null_token. repeat constructor. Defined.
