(* ===== verification/Registry.v ===== *)
(** * The family registry: the generic-netlink controller

    [genl_register_family] in the module enters the family and its
    multicast groups in the kernel's controller, which hands out a family
    id and a block of multicast group ids; [genl_ctrl_resolve] and
    [genl_ctrl_resolve_grp] in the client look them up by name, and
    [genl_unregister_family] takes the family out again.  The controller
    is not in the repository: it is modelled from the spec (section 4.1)
    as a [gmap] from family name to its entry, with counters for fresh
    ids.  Resolution looks at the live table: there is no cache. *)
From S2P Require Import Prelude Header Nla Genl.

Record fam_entry := {
  fe_id : Z; fe_version : Z; fe_maxattr : Z; fe_mcgrps : list string; fe_mcgrp_offset : Z }.

Record registry := { reg_fams : gmap string fam_entry; reg_next_id : Z; reg_next_grp : Z }.

(** The controller's own family takes id 16 and group 1; dynamic ids
    start above them. *)
Definition registry_init : registry :=
  {| reg_fams := ∅; reg_next_id := 19; reg_next_grp := 2 |}.

(** [genl_register_family]: a name already present is refused with
    [EEXIST]; otherwise the family gets the next id and a block of as
    many group ids as it has groups. *)
Inductive reg_err := EEXIST.
Global Instance reg_err_eq_dec : EqDecision reg_err.
Proof. solve_decision. Defined.

Definition genl_register_family (name : string) (version maxattr : Z) (mcgrps : list string)
    (r : registry) : reg_err + (Kern.genl_family * registry) :=
  match reg_fams r !! name with
  | Some _ => inl EEXIST
  | None =>
      let e := {| fe_id := reg_next_id r; fe_version := version; fe_maxattr := maxattr;
                  fe_mcgrps := mcgrps; fe_mcgrp_offset := reg_next_grp r |} in
      inr ({| Kern.fam_id := reg_next_id r; Kern.fam_version := version; Kern.fam_hdrsize := 0;
              Kern.fam_maxattr := maxattr; Kern.fam_mcgrp_offset := reg_next_grp r;
              Kern.fam_n_mcgrps := Z.of_nat (length mcgrps) |},
           {| reg_fams := <[name := e]> (reg_fams r); reg_next_id := reg_next_id r + 1;
              reg_next_grp := reg_next_grp r + Z.of_nat (length mcgrps) |})
  end.

Definition genl_unregister_family (name : string) (r : registry) : registry :=
  {| reg_fams := delete name (reg_fams r); reg_next_id := reg_next_id r;
     reg_next_grp := reg_next_grp r |}.

(** [genl_ctrl_resolve(sk, name)]: the family id, or [None] for the
    negative error code. *)
Definition genl_ctrl_resolve (r : registry) (name : string) : option Z :=
  fe_id <$> reg_fams r !! name.

(** [genl_ctrl_resolve_grp(sk, family, grp)]: the id of the named group. *)
Definition genl_ctrl_resolve_grp (r : registry) (name grp : string) : option Z :=
  e ← reg_fams r !! name;
  '(i, _) ← list_find (λ g, g = grp) (fe_mcgrps e);
  Some (fe_mcgrp_offset e + Z.of_nat i).

(** ** Lemmas *)
Lemma genl_register_family_ok name version maxattr mcgrps r :
  reg_fams r !! name = None →
  ∃ fam r', genl_register_family name version maxattr mcgrps r = inr (fam, r') ∧
    Kern.fam_id fam = reg_next_id r ∧ Kern.fam_mcgrp_offset fam = reg_next_grp r ∧
    genl_ctrl_resolve r' name = Some (reg_next_id r).
Proof.
  intros H. unfold genl_register_family. rewrite H. do 2 eexists. split; [done|].
  unfold genl_ctrl_resolve. simpl. by rewrite lookup_insert_eq.
Qed.

Lemma resolve_grp_nth r name e i grp :
  reg_fams r !! name = Some e → NoDup (fe_mcgrps e) → fe_mcgrps e !! i = Some grp →
  genl_ctrl_resolve_grp r name grp = Some (fe_mcgrp_offset e + Z.of_nat i).
Proof.
  intros He Hnd Hi. unfold genl_ctrl_resolve_grp. rewrite He. simpl.
  destruct (list_find (λ g, g = grp) (fe_mcgrps e)) as [[j g]|] eqn:Hf.
  - apply list_find_Some in Hf as (Hj & -> & _). simpl.
    by rewrite (NoDup_lookup _ _ _ _ Hnd Hj Hi).
  - apply list_find_None in Hf. rewrite Forall_lookup in Hf. by destruct (Hf _ _ Hi).
Qed.

Lemma unregister_resolve r name : genl_ctrl_resolve (genl_unregister_family name r) name = None.
Proof. unfold genl_ctrl_resolve. simpl. by rewrite lookup_delete_eq. Qed.

Lemma genl_register_family_inr name version maxattr mcgrps r fam r' :
  genl_register_family name version maxattr mcgrps r = inr (fam, r') →
  Kern.fam_n_mcgrps fam = Z.of_nat (length mcgrps) ∧ Kern.fam_hdrsize fam = 0 ∧
  Kern.fam_maxattr fam = maxattr ∧ Kern.fam_version fam = version ∧
  genl_ctrl_resolve r' name = Some (Kern.fam_id fam).
Proof.
  unfold genl_register_family. destruct (reg_fams r !! name); [done|].
  intros [= <- <-]. unfold genl_ctrl_resolve. simpl. by rewrite lookup_insert_eq.
Qed.

Lemma genl_ctrl_resolve_grp_family r name grp id :
  genl_ctrl_resolve_grp r name grp = Some id → is_Some (genl_ctrl_resolve r name).
Proof.
  unfold genl_ctrl_resolve_grp, genl_ctrl_resolve. destruct (reg_fams r !! name); [|done].
  intros _. done.
Qed.

(** The controller's table is the [GenlCtrl] the client talks to. *)
Global Instance registry_ctrl : GenlCtrl registry := {|
  ctrl_resolve := genl_ctrl_resolve;
  ctrl_resolve_grp := genl_ctrl_resolve_grp;
  ctrl_resolve_grp_family := genl_ctrl_resolve_grp_family |}.

(** A registered family's groups resolve, by name, to consecutive ids
    from its group offset. *)
Lemma genl_register_family_grp name version maxattr mcgrps r fam r' i grp :
  genl_register_family name version maxattr mcgrps r = inr (fam, r') →
  NoDup mcgrps → mcgrps !! i = Some grp →
  genl_ctrl_resolve_grp r' name grp = Some (Kern.fam_mcgrp_offset fam + Z.of_nat i).
Proof.
  unfold genl_register_family. destruct (reg_fams r !! name) eqn:E; [done|].
  intros [= <- <-] Hnd Hi.
  cbn [Kern.fam_mcgrp_offset].
  apply (resolve_grp_nth _ _ {| fe_id := reg_next_id r; fe_version := version; fe_maxattr := maxattr;
                               fe_mcgrps := mcgrps; fe_mcgrp_offset := reg_next_grp r |});
    [simpl; by rewrite lookup_insert_eq|exact Hnd|exact Hi].
Qed.
