(* ===== verification/Client.v ===== *)
(** * The client at run time: [prep_nl_sock], [send_msg_to_kernel],
      [print_rx_msg] and [main] ([src/genl_ex.c], lines 98-239)

    After [parse_cmd_line] the client opens a generic-netlink socket,
    resolves the family, joins the groups of its mask, and then either
    sends one request and exits, or loops in [nl_recvmsgs] printing what
    the kernel multicasts.  The process state [client] holds the command
    line's globals ([cstate], reached through [lift]), the socket, the
    groups joined and the datagrams sent.  What the system around the
    client decides (allocation and connection failures, the controller
    it talks to, the datagrams it receives) is the environment [nl_env];
    the controller is any [GenlCtrl], so the theorems here hold of every
    controller that keeps that interface. *)
From S2P Require Import Prelude Header Nla Genl Cli Registry.

(** ** State *)
Record client := {
  cl_args : cstate;                 (* message, send_to_kernel, mcgroups, output *)
  cl_sock : option Libnl.nl_sock;   (* struct nl_sock *nlsock *)
  cl_seq_check : bool;              (* the socket's sequence-number check *)
  cl_groups : list Z;               (* group ids joined, in order *)
  cl_sent : list (list Z) }.        (* datagrams nl_send_auto put on the wire *)

Definition client_init : client :=
  {| cl_args := cstate_init; cl_sock := None; cl_seq_check := true; cl_groups := [];
     cl_sent := [] |}.

Definition set_args (a : cstate) (c : client) : client :=
  {| cl_args := a; cl_sock := cl_sock c; cl_seq_check := cl_seq_check c; cl_groups := cl_groups c;
     cl_sent := cl_sent c |}.
Definition set_sock (k : option Libnl.nl_sock) (c : client) : client :=
  {| cl_args := cl_args c; cl_sock := k; cl_seq_check := cl_seq_check c; cl_groups := cl_groups c;
     cl_sent := cl_sent c |}.
Definition set_seq_check (b : bool) (c : client) : client :=
  {| cl_args := cl_args c; cl_sock := cl_sock c; cl_seq_check := b; cl_groups := cl_groups c;
     cl_sent := cl_sent c |}.
Definition add_group_id (g : Z) (c : client) : client :=
  {| cl_args := cl_args c; cl_sock := cl_sock c; cl_seq_check := cl_seq_check c;
     cl_groups := cl_groups c ++ [g]; cl_sent := cl_sent c |}.
Definition add_sent (bs : list Z) (c : client) : client :=
  {| cl_args := cl_args c; cl_sock := cl_sock c; cl_seq_check := cl_seq_check c;
     cl_groups := cl_groups c; cl_sent := cl_sent c ++ [bs] |}.

(** The command line's code runs on the [cstate] part of the process. *)
Definition lift {A} (m : PM cstate A) : PM client A :=
  λ c, let '(o, a) := m (cl_args c) in (o, set_args a c).

Definition out (o : cout) : PM client unit := lift (emit o).

(** ** The environment *)
Record nl_env (R : Type) := {
  env_ctrl : R;                 (* the controller genl_ctrl_resolve asks *)
  env_sock_ok : bool;           (* nl_socket_alloc succeeds *)
  env_connect_ok : bool;        (* genl_connect succeeds *)
  env_port : Z;                 (* the local port the socket is bound to *)
  env_seq0 : Z;                 (* the socket's first sequence number *)
  env_join_ok : Z → bool;       (* nl_socket_add_membership succeeds *)
  env_alloc_ok : bool;          (* nlmsg_alloc succeeds *)
  env_send_ok : bool;           (* nl_send_auto succeeds *)
  env_send_err : Z;             (* what nl_send_auto returns when it fails *)
  env_cb_ok : bool }.           (* nl_cb_alloc succeeds *)
Arguments env_ctrl {R}. Arguments env_sock_ok {R}. Arguments env_connect_ok {R}.
Arguments env_port {R}. Arguments env_seq0 {R}. Arguments env_join_ok {R}.
Arguments env_alloc_ok {R}. Arguments env_send_ok {R}. Arguments env_send_err {R}.
Arguments env_cb_ok {R}.

(** [ENOMEM], [sizeof(unsigned int)] and libnl's [NL_OK]. *)
Definition ENOMEM : Z := 12.
Definition SIZEOF_UINT : Z := 4.
Definition NL_OK : Z := 0.

(** What one [nl_recvmsgs] call reads: a datagram of messages, each
    passed to the valid-message callback, or a transport error (a
    negative code). *)
Inductive recv_event := R_data (msgs : list (list Z)) | R_error (e : Z).

Section client.
Context {R : Type} `{!GenlCtrl R} (env : nl_env R).

(** ** [prep_nl_sock] (lines 161-212)

    The loop visits [bit] = 0 .. [sizeof(unsigned int)] - 1 (four bits,
    not the 32 of the mask) and, for each bit set in [mcgroups], looks
    the group's name up in [genl_test_mcgrp_names] (three entries: a
    set bit 3 reads past the array), resolves it and joins it.  Any
    failure exits. *)
Definition join_bit (bit : Z) : PM client unit :=
  c ← getS;
  if decide (Z.land (mcgroups (cl_args c)) (Z.shiftl 1 bit) = 0) then mret ()
  else
    match mcgrp_name bit with
    | None => crashS "genl_test_mcgrp_names[bit] out of bounds"
    | Some name =>
        match ctrl_resolve_grp (env_ctrl env) GENL_TEST_FAMILY_NAME name with
        | None => out (O_no_group (Z.shiftl 1 bit)) ;; exitS EXIT_FAILURE
        | Some grp_id =>
            if env_join_ok env grp_id then modifyS (add_group_id grp_id)
            else out (O_no_join (Z.shiftl 1 bit)) ;; exitS EXIT_FAILURE
        end
    end.

(** [while (bit < sizeof(unsigned int)) { ...; bit++; }], with [n] the
    iterations left. *)
Fixpoint join_bits (n : nat) (bit : Z) : PM client unit :=
  match n with
  | O => mret ()
  | S n' => join_bit bit ;; join_bits n' (bit + 1)
  end.

(** The socket [nl_socket_alloc] returns, after
    [nl_socket_disable_auto_ack]. *)
Definition sock_init : Libnl.nl_sock :=
  {| Libnl.s_local_port := env_port env; Libnl.s_seq_next := env_seq0 env;
     Libnl.s_no_auto_ack := true |}.

Definition prep_nl_sock : PM client unit :=
  if negb (env_sock_ok env) then out O_no_socket ;; exitS EXIT_FAILURE
  else
    modifyS (λ c, set_seq_check false (set_sock (Some sock_init) c)) ;;
    if negb (env_connect_ok env) then out O_no_connect ;; exitS EXIT_FAILURE
    else
      match ctrl_resolve (env_ctrl env) GENL_TEST_FAMILY_NAME with
      | None => out O_no_family ;; exitS EXIT_FAILURE
      | Some _ =>
          c ← getS;
          if decide (mcgroups (cl_args c) = 0) then mret ()
          else join_bits (Z.to_nat SIZEOF_UINT) 0
      end.

(** ** [send_msg_to_kernel] (lines 98-136)

    [nl_send_auto] completes the header from the socket (port, next
    sequence number, [NLM_F_REQUEST], no [NLM_F_ACK] since auto-ack is
    off) and sends it. *)
Definition nl_send_auto (msg : Libnl.nl_msg) : PM client Z :=
  c ← getS;
  match cl_sock c with
  | None => crashS "nl_send_auto on a NULL socket"
  | Some sk =>
      let '(sk', m') := Libnl.nl_complete_msg sk msg in
      modifyS (set_sock (Some sk')) ;;
      if env_send_ok env then
        modifyS (add_sent (Libnl.nl_msg_bytes m')) ;;
        mret (Z.of_nat (length (Libnl.nl_msg_bytes m')))
      else mret (env_send_err env)
  end.

Definition send_msg_to_kernel : PM client Z :=
  match ctrl_resolve (env_ctrl env) GENL_TEST_FAMILY_NAME with
  | None => out O_no_family ;; exitS EXIT_FAILURE
  | Some family_id =>
      match Libnl.nlmsg_alloc (env_alloc_ok env) with
      | None => out O_alloc_failed ;; exitS EXIT_FAILURE
      | Some msg =>
          match Libnl.genlmsg_put msg Libnl.NL_AUTO_PORT Libnl.NL_AUTO_SEQ family_id 0
                  NLM_F_REQUEST (cmd_val GENL_TEST_C_MSG) 0 with
          | None => out O_put_hdr_failed ;; mret (- ENOMEM)
          | Some msg =>
              c ← getS;
              match Libnl.nla_put_string msg (attr_val GENL_TEST_ATTR_MSG) (message (cl_args c)) with
              | inl e => out O_put_string_failed ;; mret (- nl_err_code e)
              | inr msg =>
                  err ← nl_send_auto msg;
                  (if decide (err < 0) then out O_send_failed else mret ()) ;;
                  mret err
              end
          end
      end
  end.

(** ** [print_rx_msg] (lines 143-159)

    The return code of [genlmsg_parse] is ignored.  When the header is
    too short, [genlmsg_parse] returns before [nla_parse] clears [attr],
    and the callback reads the uninitialised array. *)
Definition print_rx_msg (bs : list Z) : PM client Z :=
  match Libnl.genlmsg_parse bs 0 GENL_TEST_ATTR_MAX genl_test_policy_user with
  | (_, None) => crashS "attr[] read uninitialised"
  | (_, Some attr) =>
      match attr !! attr_val GENL_TEST_ATTR_MSG with
      | None => out O_kernel_empty ;; mret NL_OK
      | Some d => out (O_kernel_says (cstr d)) ;; mret NL_OK
      end
  end.

(** ** The receive loop: [do ret = nl_recvmsgs(nlsock, cb); while (!ret);]

    [nl_recvmsgs] with [skip_seq_check] accepting every sequence number
    passes each message of the datagram to [print_rx_msg] and returns 0,
    or returns the transport's error.  The loop runs over the events the
    transport delivers; [None] means the client is still waiting in
    [nl_recvmsgs] when they run out. *)
Fixpoint recv_msgs (msgs : list (list Z)) : PM client unit :=
  match msgs with
  | [] => mret ()
  | m :: msgs' => _ ← print_rx_msg m; recv_msgs msgs'
  end.

Definition nl_recvmsgs (ev : recv_event) : PM client Z :=
  match ev with
  | R_data msgs => recv_msgs msgs ;; mret 0
  | R_error e => mret e
  end.

Fixpoint recv_loop (evs : list recv_event) : PM client (option Z) :=
  match evs with
  | [] => mret None
  | ev :: evs' =>
      ret ← nl_recvmsgs ev;
      if decide (ret = 0) then recv_loop evs' else mret (Some ret)
  end.

(** ** [main] (lines 214-239)

    In send mode the result of [send_msg_to_kernel] is dropped and the
    process exits with [EXIT_SUCCESS].  In listen mode the callbacks are
    installed on a fresh [nl_cb] (not checked for [NULL]) and [main]
    returns 0 once [nl_recvmsgs] reports an error. *)
Definition main (argv : list (list Z)) (evs : list recv_event) : PM client (option Z) :=
  lift (parse_cmd_line argv) ;;
  prep_nl_sock ;;
  c ← getS;
  if decide (send_to_kernel (cl_args c) ≠ 0) then
    _ ← send_msg_to_kernel; exitS EXIT_SUCCESS
  else if negb (env_cb_ok env) then crashS "nl_cb_set on a NULL callback set"
  else
    r ← recv_loop evs;
    match r with None => mret None | Some _ => mret (Some 0) end.

End client.

(** * Properties of the client *)

(** The client with group ids [gs] joined after those it had. *)
Definition add_group_ids (gs : list Z) (c : client) : client :=
  {| cl_args := cl_args c; cl_sock := cl_sock c; cl_seq_check := cl_seq_check c;
     cl_groups := cl_groups c ++ gs; cl_sent := cl_sent c |}.

Lemma add_group_ids_nil c : add_group_ids [] c = c.
Proof. destruct c. unfold add_group_ids. simpl. by rewrite app_nil_r. Qed.

Lemma add_group_ids_cons g gs c : add_group_ids gs (add_group_id g c) = add_group_ids (g :: gs) c.
Proof. unfold add_group_ids, add_group_id. simpl. by rewrite <-app_assoc. Qed.

Section client_props.
Context {R : Type} `{!GenlCtrl R} (env : nl_env R).

(** The group of bit [i] resolves to [gid i] and can be joined. *)
Definition group_ok (gid : Z → Z) (i : Z) : Prop :=
  ∃ name, mcgrp_name i = Some name ∧
    ctrl_resolve_grp (env_ctrl env) GENL_TEST_FAMILY_NAME name = Some (gid i) ∧
    env_join_ok env (gid i) = true.

Lemma join_bit_clear c i :
  0 ≤ i → Z.testbit (mcgroups (cl_args c)) i = false → join_bit env i c = (Done (), c).
Proof.
  intros Hi Hb. unfold join_bit. rewrite pm_bind_get, decide_True; [done|].
  by apply land_shiftl1_eq0.
Qed.

Lemma join_bit_set gid c i :
  0 ≤ i → Z.testbit (mcgroups (cl_args c)) i = true → group_ok gid i →
  join_bit env i c = (Done (), add_group_id (gid i) c).
Proof.
  intros Hi Hb (name & Hn & Hr & Hj). unfold join_bit. rewrite pm_bind_get, decide_False.
  - by rewrite Hn, Hr, Hj.
  - rewrite land_shiftl1_eq0, Hb by done. done.
Qed.

(** The loop over bits [bit] .. [bit + n - 1] joins, in bit order, the
    group of every set bit. *)
Lemma join_bits_ok gid n bit c :
  0 ≤ bit →
  (∀ i, bit ≤ i < bit + Z.of_nat n → Z.testbit (mcgroups (cl_args c)) i = true → group_ok gid i) →
  join_bits env n bit c =
  (Done (), add_group_ids (gid <$> filter (λ i, Z.testbit (mcgroups (cl_args c)) i = true)
                                   (seqZ bit (Z.of_nat n))) c).
Proof.
  revert bit c. induction n as [|n IH]; intros bit c Hbit H.
  { simpl. by rewrite add_group_ids_nil. }
  cbn [join_bits]. rewrite seqZ_cons by lia. rewrite Nat2Z.inj_succ, Z.pred_succ, filter_cons.
  replace (Z.succ bit) with (bit + 1) by lia.
  destruct (Z.testbit (mcgroups (cl_args c)) bit) eqn:Hb.
  - erewrite pm_bind_Done by (apply (join_bit_set gid); [lia|done|apply H; [lia|done]]).
    rewrite IH; [|lia|intros i Hi; apply H; lia]. rewrite decide_True by done.
    by rewrite add_group_ids_cons.
  - erewrite pm_bind_Done by (apply join_bit_clear; [lia|done]).
    rewrite IH; [|lia|intros i Hi; apply H; lia]. by rewrite decide_False by congruence.
Qed.

(** with the socket allocated and connected and the family
    resolved, [prep_nl_sock] on a mask of the three groups joins, in
    group order, the groups whose bits are set (each resolved by name),
    and leaves the command line's state alone. *)
Theorem prep_nl_sock_joins gid c fid :
  env_sock_ok env = true → env_connect_ok env = true →
  ctrl_resolve (env_ctrl env) GENL_TEST_FAMILY_NAME = Some fid →
  0 < mcgroups (cl_args c) < 8 →
  (∀ i, 0 ≤ i < 3 → Z.testbit (mcgroups (cl_args c)) i = true → group_ok gid i) →
  prep_nl_sock env c =
  (Done (), add_group_ids (gid <$> filter (λ i, Z.testbit (mcgroups (cl_args c)) i = true) [0; 1; 2])
              (set_seq_check false (set_sock (Some (sock_init env)) c))).
Proof.
  intros Hs Hc Hf Hm H. unfold prep_nl_sock. rewrite Hs, Hc. cbn [negb].
  rewrite pm_bind_modify, Hf, pm_bind_get. cbn [cl_args set_seq_check set_sock].
  rewrite decide_False by lia. rewrite (join_bits_ok gid); [|lia|].
  - cbn [cl_args set_seq_check set_sock]. f_equal. f_equal. f_equal.
    change (seqZ 0 (Z.of_nat (Z.to_nat SIZEOF_UINT))) with ([0; 1; 2] ++ [3]).
    rewrite filter_app, (filter_cons_False _ 3), filter_nil, app_nil_r; [done|].
    rewrite testbit_small with (n := 3); [done| |lia]. change (2 ^ 3) with 8. lia.
  - cbn [cl_args set_seq_check set_sock]. intros i Hi Hb.
    change (Z.of_nat (Z.to_nat SIZEOF_UINT)) with 4 in Hi.
    destruct (decide (i = 3)) as [->|]; [|apply H; [lia|done]].
    rewrite testbit_small with (n := 3) in Hb; [done| |lia]. change (2 ^ 3) with 8. lia.
Qed.

(** The socket after [nl_complete_msg] took a sequence number. *)
Definition next_seq (sk : Libnl.nl_sock) : Libnl.nl_sock :=
  {| Libnl.s_local_port := Libnl.s_local_port sk; Libnl.s_seq_next := Libnl.s_seq_next sk + 1;
     Libnl.s_no_auto_ack := Libnl.s_no_auto_ack sk |}.

Lemma nl_send_auto_ok c sk m :
  cl_sock c = Some sk → env_send_ok env = true →
  nl_send_auto env m c =
  let '(sk', m') := Libnl.nl_complete_msg sk m in
  (Done (Z.of_nat (length (Libnl.nl_msg_bytes m'))),
   add_sent (Libnl.nl_msg_bytes m') (set_sock (Some sk') c)).
Proof.
  intros Hsk Hs. unfold nl_send_auto. rewrite pm_bind_get, Hsk.
  destruct (Libnl.nl_complete_msg sk m). by rewrite pm_bind_modify, Hs, pm_bind_modify.
Qed.

(** [nl_complete_msg] on a message built with [NL_AUTO_PORT] and
    [NL_AUTO_SEQ], on a socket without auto-ack. *)
Lemma nl_complete_msg_auto sk sz len type body :
  Libnl.s_no_auto_ack sk = true →
  Libnl.nl_complete_msg sk
    {| Libnl.nm_size := sz;
       Libnl.nm_nlh := {| nlmsg_len := len; nlmsg_type := type; nlmsg_flags := u16 NLM_F_REQUEST;
                          nlmsg_seq := u32 Libnl.NL_AUTO_SEQ; nlmsg_pid := u32 Libnl.NL_AUTO_PORT |};
       Libnl.nm_body := body |} =
  (next_seq sk,
   {| Libnl.nm_size := sz;
      Libnl.nm_nlh := {| nlmsg_len := len; nlmsg_type := type; nlmsg_flags := NLM_F_REQUEST;
                         nlmsg_seq := Libnl.s_seq_next sk; nlmsg_pid := Libnl.s_local_port sk |};
      Libnl.nm_body := body |}).
Proof.
  intros Hack. unfold Libnl.nl_complete_msg. cbn [Libnl.nm_nlh nlmsg_pid nlmsg_seq nlmsg_flags].
  rewrite !decide_True by reflexivity. unfold next_seq. rewrite Hack. reflexivity.
Qed.

(** The request [send_msg_to_kernel] hands to [nl_send_auto], with [d]
    as the message attribute. *)
Definition built_request (fid : Z) (d : list Z) : Libnl.nl_msg :=
  {| Libnl.nm_size := Libnl.default_msg_size;
     Libnl.nm_nlh := {| nlmsg_len := 20 + nla_total_size (Z.of_nat (length d));
                        nlmsg_type := u16 fid; nlmsg_flags := u16 NLM_F_REQUEST;
                        nlmsg_seq := u32 Libnl.NL_AUTO_SEQ; nlmsg_pid := u32 Libnl.NL_AUTO_PORT |};
     Libnl.nm_body := genlmsghdr_bytes (cmd_val GENL_TEST_C_MSG) 0
                        ++ nla_bytes (attr_val GENL_TEST_ATTR_MSG) d |}.

(** With the family resolved and the message allocated, the request is
    built without error (the 256-byte message always fits) and sent. *)
Lemma send_msg_to_kernel_built c fid :
  ctrl_resolve (env_ctrl env) GENL_TEST_FAMILY_NAME = Some fid →
  env_alloc_ok env = true → (length (message (cl_args c)) ≤ 256)%nat →
  send_msg_to_kernel env c =
  (err ← nl_send_auto env (built_request fid (cstr (message (cl_args c)) ++ [NUL]));
   (if decide (err < 0) then out O_send_failed else mret ()) ;; mret err) c.
Proof.
  intros Hf Ha Hlen. unfold send_msg_to_kernel. rewrite Hf.
  unfold Libnl.nlmsg_alloc. rewrite Ha, libnl_genlmsg_put_fresh, pm_bind_get.
  unfold Libnl.nla_put_string. rewrite libnl_nla_put_ok; [reflexivity|reflexivity|].
  cbn [Libnl.nm_nlh nlmsg_len Libnl.nm_size]. unfold Libnl.default_msg_size.
  pose proof (cstr_length (message (cl_args c))).
  pose proof (nla_total_size_bounds (Z.of_nat (length (cstr (message (cl_args c)) ++ [NUL])))).
  rewrite length_app in *. simpl length in *. lia.
Qed.

Lemma nl_send_auto_request c sk fid d :
  cl_sock c = Some sk → Libnl.s_no_auto_ack sk = true → env_send_ok env = true →
  let bytes := request_bytes (u16 fid) (Libnl.s_local_port sk) (Libnl.s_seq_next sk) d in
  nl_send_auto env (built_request fid d) c =
  (Done (Z.of_nat (length bytes)), add_sent bytes (set_sock (Some (next_seq sk)) c)).
Proof.
  intros Hsk Hack Hs bytes. rewrite (nl_send_auto_ok _ sk) by done.
  unfold built_request. rewrite nl_complete_msg_auto by done.
  unfold bytes, request_bytes, Libnl.nl_msg_bytes. cbn [Libnl.nm_nlh Libnl.nm_body].
  assert (E : 16 + Z.of_nat (length (genlmsghdr_bytes (cmd_val GENL_TEST_C_MSG) 0
                                     ++ nla_bytes (attr_val GENL_TEST_ATTR_MSG) d))
              = 20 + nla_total_size (Z.of_nat (length d))).
  { rewrite length_app, genlmsghdr_length, nla_bytes_length.
    pose proof (nla_total_size_bounds (Z.of_nat (length d))). lia. }
  by rewrite E.
Qed.

Lemma nl_send_auto_fail c sk m :
  cl_sock c = Some sk → env_send_ok env = false →
  nl_send_auto env m c = (Done (env_send_err env), set_sock (Some (Libnl.nl_complete_msg sk m).1) c).
Proof.
  intros Hsk Hs. unfold nl_send_auto. rewrite pm_bind_get, Hsk.
  destruct (Libnl.nl_complete_msg sk m). by rewrite pm_bind_modify, Hs.
Qed.

(** when the family resolves and allocation and transmission succeed,
    [send_msg_to_kernel] sends exactly one datagram, the
    [GENL_TEST_C_MSG] request carrying the message up to its NUL (and
    the NUL), addressed to the family, from the socket's port, with the
    socket's next sequence number and no [NLM_F_ACK]; it returns the
    datagram's length and prints nothing. *)
Theorem send_msg_to_kernel_sends c fid sk :
  ctrl_resolve (env_ctrl env) GENL_TEST_FAMILY_NAME = Some fid →
  env_alloc_ok env = true → env_send_ok env = true →
  cl_sock c = Some sk → Libnl.s_no_auto_ack sk = true →
  (length (message (cl_args c)) ≤ 256)%nat →
  let bytes := request_bytes (u16 fid) (Libnl.s_local_port sk) (Libnl.s_seq_next sk)
                 (cstr (message (cl_args c)) ++ [NUL]) in
  send_msg_to_kernel env c =
  (Done (Z.of_nat (length bytes)), add_sent bytes (set_sock (Some (next_seq sk)) c)).
Proof.
  intros Hf Ha Hs Hsk Hack Hlen bytes. rewrite (send_msg_to_kernel_built c fid) by done.
  erewrite pm_bind_Done by (by apply nl_send_auto_request).
  by rewrite decide_False by lia.
Qed.

(** when transmission fails with a negative code, [send_msg_to_kernel]
    sends nothing, prints "failed to send nl message!" and returns the
    code. *)
Theorem send_msg_to_kernel_send_fails c fid sk :
  ctrl_resolve (env_ctrl env) GENL_TEST_FAMILY_NAME = Some fid →
  env_alloc_ok env = true → env_send_ok env = false → env_send_err env < 0 →
  cl_sock c = Some sk → (length (message (cl_args c)) ≤ 256)%nat →
  ∃ sk', send_msg_to_kernel env c =
    (Done (env_send_err env), set_args (add_out O_send_failed (cl_args c)) (set_sock (Some sk') c)).
Proof.
  intros Hf Ha Hs Herr Hsk Hlen. rewrite (send_msg_to_kernel_built c fid) by done.
  erewrite pm_bind_Done by (by apply nl_send_auto_fail).
  rewrite decide_True by done. eexists. reflexivity.
Qed.

(** ** Receiving *)

Lemma out_run o c : out o c = (Done (), set_args (add_out o (cl_args c)) c).
Proof. reflexivity. Qed.

Lemma print_rx_msg_string c h cmd v str :
  nlmsg_len h = 20 + Z.of_nat (length (nla_bytes (attr_val GENL_TEST_ATTR_MSG) (str ++ [NUL]))) →
  nlmsg_len h < 2 ^ 32 → NUL ∉ str → (length str < 256)%nat →
  print_rx_msg (nlmsg_bytes h (genlmsghdr_bytes cmd v ++ nla_bytes (attr_val GENL_TEST_ATTR_MSG) (str ++ [NUL]))) c
  = (Done NL_OK, set_args (add_out (O_kernel_says str) (cl_args c)) c).
Proof.
  intros Hl Hb Hnul Hlen. unfold print_rx_msg. rewrite genlmsg_parse_wire by done.
  rewrite libnl_parse_string_attr by (unfold_consts; done).
  rewrite lookup_singleton_eq, cstr_app_nul by done. done.
Qed.

(** C15: a message whose attribute stream is the message attribute holding
    a C string of at most 255 bytes is printed as "Kernel says: <string>". *)
Theorem print_rx_msg_says c h cmd v str :
  nlmsg_len h = 20 + Z.of_nat (length (nla_bytes (attr_val GENL_TEST_ATTR_MSG) (str ++ [NUL]))) →
  nlmsg_len h < 2 ^ 32 → NUL ∉ str → (length str < 256)%nat →
  print_rx_msg (nlmsg_bytes h (genlmsghdr_bytes cmd v ++ nla_bytes (attr_val GENL_TEST_ATTR_MSG) (str ++ [NUL]))) c
  = (Done NL_OK, set_args (add_out (O_kernel_says str) (cl_args c)) c).
Proof. exact (print_rx_msg_string c h cmd v str). Qed.

(** C12: a message too short to hold the two headers makes [genlmsg_parse]
    return before it clears [attr], and [print_rx_msg] reads the
    uninitialised array. *)
Theorem print_rx_msg_short c bs :
  Libnl.msg_len bs < NLMSG_HDRLEN + GENL_HDRLEN →
  (print_rx_msg bs c).1 = Crashed "attr[] read uninitialised".
Proof.
  intros Hs. unfold print_rx_msg, Libnl.genlmsg_parse, Libnl.genlmsg_valid_hdr.
  by rewrite bool_decide_false by lia.
Qed.

(** ** [main] *)

Lemma lift_run {A} (m : PM cstate A) c : lift m c = ((m (cl_args c)).1, set_args (m (cl_args c)).2 c).
Proof. unfold lift. by destruct (m (cl_args c)). Qed.

Lemma prep_nl_sock_no_groups c fid :
  env_sock_ok env = true → env_connect_ok env = true →
  ctrl_resolve (env_ctrl env) GENL_TEST_FAMILY_NAME = Some fid → mcgroups (cl_args c) = 0 →
  prep_nl_sock env c = (Done (), set_seq_check false (set_sock (Some (sock_init env)) c)).
Proof.
  intros Hs Hc Hf Hm. unfold prep_nl_sock. rewrite Hs, Hc. cbn [negb].
  rewrite pm_bind_modify, Hf, pm_bind_get. by rewrite decide_True.
Qed.

(** [-s -m msg] reaches [send_msg_to_kernel] on the socket [prep_nl_sock]
    opened, with [msg] in the buffer. *)
Lemma main_send_mode prog msg evs fid :
  NUL ∉ msg → msg ≠ [] → env_sock_ok env = true → env_connect_ok env = true →
  ctrl_resolve (env_ctrl env) GENL_TEST_FAMILY_NAME = Some fid →
  ∃ st, cstr (message st) = take 255 msg ∧ length (message st) = 256%nat ∧
    main env [prog; [DASH; 115]; [DASH; 109]; msg] evs client_init =
    (_ ← send_msg_to_kernel env; exitS EXIT_SUCCESS)
      (set_seq_check false (set_sock (Some (sock_init env)) (set_args st client_init))).
Proof.
  intros Hnul Hne Hs Hc Hf.
  destruct (parse_cmd_line_send_run prog msg Hnul Hne) as (st & E & Hsend & Hm & Hmsg & Hl).
  exists st. split_and!; [done|done|]. unfold main.
  erewrite pm_bind_Done by (rewrite lift_run; cbn [cl_args client_init]; by rewrite E).
  erewrite pm_bind_Done by (by apply (prep_nl_sock_no_groups _ fid)).
  rewrite pm_bind_get. cbn [cl_args set_seq_check set_sock set_args].
  rewrite decide_True; [reflexivity|]. cbn. lia.
Qed.

(** C8: [-s -m msg] with a working socket and controller sends exactly one
    request, carrying the first 255 bytes of [msg], from the socket's
    port with its first sequence number, joins no group, and exits with
    [EXIT_SUCCESS]. *)
Theorem main_send prog msg evs fid :
  NUL ∉ msg → msg ≠ [] → env_sock_ok env = true → env_connect_ok env = true →
  ctrl_resolve (env_ctrl env) GENL_TEST_FAMILY_NAME = Some fid →
  env_alloc_ok env = true → env_send_ok env = true →
  ∃ c', main env [prog; [DASH; 115]; [DASH; 109]; msg] evs client_init = (Exited EXIT_SUCCESS, c') ∧
    cl_sent c' = [request_bytes (u16 fid) (env_port env) (env_seq0 env) (take 255 msg ++ [NUL])] ∧
    cl_groups c' = [].
Proof.
  intros Hnul Hne Hs Hc Hf Ha Hsend.
  destruct (main_send_mode prog msg evs fid Hnul Hne Hs Hc Hf) as (st & Hm & Hl & ->).
  erewrite pm_bind_Done by (apply (send_msg_to_kernel_sends _ fid (sock_init env)); done || (cbn; lia)).
  eexists. split; [reflexivity|]. cbn. by rewrite Hm.
Qed.

(** C11: when the transmission fails, [main] prints "failed to send nl
    message!" but still exits with [EXIT_SUCCESS], having sent nothing. *)
Theorem main_send_failure_exits_success prog msg evs fid :
  NUL ∉ msg → msg ≠ [] → env_sock_ok env = true → env_connect_ok env = true →
  ctrl_resolve (env_ctrl env) GENL_TEST_FAMILY_NAME = Some fid →
  env_alloc_ok env = true → env_send_ok env = false → env_send_err env < 0 →
  ∃ c', main env [prog; [DASH; 115]; [DASH; 109]; msg] evs client_init = (Exited EXIT_SUCCESS, c') ∧
    cl_sent c' = [] ∧ last (cout_log (cl_args c')) = Some O_send_failed.
Proof.
  intros Hnul Hne Hs Hc Hf Ha Hsend Herr.
  destruct (main_send_mode prog msg evs fid Hnul Hne Hs Hc Hf) as (st & Hm & Hl & ->).
  destruct (send_msg_to_kernel_send_fails
              (set_seq_check false (set_sock (Some (sock_init env)) (set_args st client_init))) fid
              (sock_init env) Hf Ha Hsend Herr eq_refl ltac:(cbn; lia)) as (sk' & E).
  erewrite pm_bind_Done by exact E.
  eexists. split; [reflexivity|]. split; [done|]. cbn. by rewrite last_snoc.
Qed.

(** What [main] does after the socket is ready in listen mode. *)
Definition listen_tail (evs : list recv_event) : PM client (option Z) :=
  r ← recv_loop evs; match r with None => mret None | Some _ => mret (Some 0) end.

(** [-l g0,g1,...] with indices in [0, 2], every listed group resolvable
    and joinable: the client joins exactly the listed groups, in group
    order, and enters the receive loop with sequence checks off. *)
Lemma main_listen_mode prog gs evs fid gid :
  gs ≠ [] → Forall (λ g, 0 ≤ g ≤ 2) gs →
  env_sock_ok env = true → env_connect_ok env = true →
  ctrl_resolve (env_ctrl env) GENL_TEST_FAMILY_NAME = Some fid →
  (∀ i, i ∈ gs → group_ok gid i) → env_cb_ok env = true →
  ∃ c1, cl_groups c1 = gid <$> filter (λ i, i ∈ gs) [0; 1; 2] ∧ cl_sent c1 = [] ∧
    cl_seq_check c1 = false ∧ cl_sock c1 = Some (sock_init env) ∧ cout_log (cl_args c1) = [] ∧
    main env [prog; [DASH; 108]; group_arg gs] evs client_init = listen_tail evs c1.
Proof.
  intros Hne Hall Hs Hc Hf Hg Hcb.
  destruct (parse_cmd_line_listen_run prog gs Hne Hall) as (st & E & Hsend & Hbits & Hm & Hlog).
  set (c0 := set_args st client_init).
  assert (Hfilter : filter (λ i, Z.testbit (mcgroups (cl_args c0)) i = true) [0; 1; 2]
                    = filter (λ i, i ∈ gs) [0; 1; 2]).
  { apply list_filter_iff. intros i. cbn [cl_args c0 set_args]. rewrite Hbits.
    by rewrite bool_decide_eq_true. }
  exists (add_group_ids (gid <$> filter (λ i, Z.testbit (mcgroups (cl_args c0)) i = true) [0; 1; 2])
            (set_seq_check false (set_sock (Some (sock_init env)) c0))).
  split_and!; [|reflexivity|reflexivity|reflexivity|exact Hlog|].
  2:{ unfold main. erewrite pm_bind_Done by (rewrite lift_run; cbn [cl_args client_init]; by rewrite E).
      erewrite pm_bind_Done.
      2:{ apply (prep_nl_sock_joins gid c0 fid); [done|done|done|exact Hm|].
          intros i Hi Hb. apply Hg. cbn [cl_args c0 set_args] in Hb. rewrite Hbits in Hb.
          by apply bool_decide_eq_true in Hb. }
      rewrite pm_bind_get. cbn [add_group_ids set_seq_check set_sock cl_args set_args c0].
      rewrite decide_False by lia. by rewrite Hcb. }
  rewrite Hfilter. reflexivity.
Qed.

End client_props.

(** ** Witnesses: the module's family registered in a fresh controller *)
Definition demo_registry : registry :=
  match genl_register_family GENL_TEST_FAMILY_NAME 1 GENL_TEST_ATTR_MAX genl_test_mcgrp_names
          registry_init with
  | inr (_, r) => r
  | inl _ => registry_init
  end.

Definition demo_env (send_ok : bool) : nl_env registry :=
  {| env_ctrl := demo_registry; env_sock_ok := true; env_connect_ok := true; env_port := 100;
     env_seq0 := 1; env_join_ok := λ _, true; env_alloc_ok := true; env_send_ok := send_ok;
     env_send_err := -1; env_cb_ok := true |}.

Definition argv_ping : list (list Z) := [[120]; [DASH; 115]; [DASH; 109]; bytes_of_string "ping"].

Lemma main_send_witness :
  ∃ c', main (demo_env true) argv_ping [] client_init = (Exited EXIT_SUCCESS, c') ∧
    cl_sent c' = [request_bytes (u16 19) 100 1 (take 255 (bytes_of_string "ping") ++ [NUL])] ∧
    cl_groups c' = [].
Proof.
  apply (main_send (demo_env true) _ _ _ 19);
    [vm_compute; set_solver|discriminate|reflexivity|reflexivity|vm_compute; reflexivity|
     reflexivity|reflexivity].
Defined.

Lemma main_send_failure_exits_success_witness :
  ∃ c', main (demo_env false) argv_ping [] client_init = (Exited EXIT_SUCCESS, c') ∧
    cl_sent c' = [] ∧ last (cout_log (cl_args c')) = Some O_send_failed.
Proof.
  apply (main_send_failure_exits_success (demo_env false) _ _ _ 19);
    [vm_compute; set_solver|discriminate|reflexivity|reflexivity|vm_compute; reflexivity|
     reflexivity|reflexivity|cbn; lia].
Defined.

Definition demo_hdr : nlmsghdr :=
  {| nlmsg_len := 20 + Z.of_nat (length (nla_bytes (attr_val GENL_TEST_ATTR_MSG) ([104; 105] ++ [NUL])));
     nlmsg_type := 19; nlmsg_flags := 0; nlmsg_seq := 0; nlmsg_pid := 0 |}.

Lemma print_rx_msg_says_witness :
  print_rx_msg (nlmsg_bytes demo_hdr (genlmsghdr_bytes 1 1 ++
                  nla_bytes (attr_val GENL_TEST_ATTR_MSG) ([104; 105] ++ [NUL]))) client_init
  = (Done NL_OK, set_args (add_out (O_kernel_says [104; 105]) (cl_args client_init)) client_init).
Proof.
  apply print_rx_msg_says; [reflexivity|vm_compute; reflexivity|vm_compute; set_solver|simpl; lia].
Defined.

Lemma print_rx_msg_short_witness :
  (print_rx_msg [8; 0; 0; 0] client_init).1 = Crashed "attr[] read uninitialised".
Proof. apply print_rx_msg_short. vm_compute. reflexivity. Defined.
