(* ===== verification/Server.v ===== *)
(** * The kernel module [src/kernel/genl_ex.c]

    The module's state is the registered family [genl_test_family], the
    timer [timer], and what it does to the rest of the kernel: the
    controller's table (shared with user space), the socket buffers it
    allocates, the messages it multicasts and the lines it prints.

    - [greet_group] (lines 15-51) builds one "Hello group <name>" message
      and multicasts it to one group; [genl_test_periodic] (lines 53-64)
      greets the three groups in order and re-arms the timer;
      [genl_test_rx_msg] (lines 66-78) is the [doit] handler of
      [GENL_TEST_C_MSG]; [genl_test_init] and [genl_test_exit] (lines
      107-141) register the family and start the timer, and undo both.
    - Allocation may fail: the section variable [oom] says which calls of
      [genlmsg_new] (numbered from 0 in [ks_allocs]) return [NULL].
    - The generic-netlink receive path that calls the handler
      ([genl_rcv_msg]: family by [nlmsg_type], operation by command,
      attributes parsed with the operation's policy) is the kernel's and
      is modelled from the spec.
    - [kstep] is the module's life as a step relation: load, timer
      expiry, incoming request, time passing, unload.
    - Theorems: what one firing of the timer sends, prints and leaks; what
      a request does (logged, refused, or read past its end); the
      invariant [kinv] of every reachable state and the liveness of the
      broadcast. *)
From S2P Require Import Prelude Header Nla Genl Registry.

(** ** What the module prints (printk) *)
Inductive klog :=
  | K_init                          (* "genl_test: initializing netlink" *)
  | K_init_failed                   (* "genl_test: error occurred in %s" *)
  | K_oom (line : Z)                (* "%d: OOM!!" *)
  | K_unknown_err (line : Z)        (* "%d: Unknown err !" *)
  | K_put_err (line : Z) (e : errno) (* "%d: err %d " *)
  | K_empty (portid : Z)            (* "empty message from %d!!" *)
  | K_null_attr                     (* "%p" of the missing attribute *)
  | K_says (portid : Z) (s : list Z). (* "%u says %s " *)

Record kstate := {
  ks_reg : registry;                  (* the controller's table *)
  ks_family : option Kern.genl_family; (* genl_test_family, once registered *)
  ks_timer : option Z;                (* the timer's expiry while it is pending *)
  ks_now : Z;                         (* jiffies *)
  ks_allocs : nat;                    (* genlmsg_new calls so far *)
  ks_live : nat;                      (* skbs allocated and never freed nor sent *)
  ks_mcast : list (Z * list Z);       (* multicast messages: group id and bytes *)
  ks_log : list klog }.

Definition kstate_boot (r : registry) (now : Z) : kstate :=
  {| ks_reg := r; ks_family := None; ks_timer := None; ks_now := now; ks_allocs := 0;
     ks_live := 0; ks_mcast := []; ks_log := [] |}.

(** Record updates, one field each. *)
Definition set_reg r s := {| ks_reg := r; ks_family := ks_family s; ks_timer := ks_timer s; ks_now := ks_now s; ks_allocs := ks_allocs s; ks_live := ks_live s; ks_mcast := ks_mcast s; ks_log := ks_log s |}.
Definition set_family f s := {| ks_reg := ks_reg s; ks_family := f; ks_timer := ks_timer s; ks_now := ks_now s; ks_allocs := ks_allocs s; ks_live := ks_live s; ks_mcast := ks_mcast s; ks_log := ks_log s |}.
Definition set_timer t s := {| ks_reg := ks_reg s; ks_family := ks_family s; ks_timer := t; ks_now := ks_now s; ks_allocs := ks_allocs s; ks_live := ks_live s; ks_mcast := ks_mcast s; ks_log := ks_log s |}.
Definition set_now n s := {| ks_reg := ks_reg s; ks_family := ks_family s; ks_timer := ks_timer s; ks_now := n; ks_allocs := ks_allocs s; ks_live := ks_live s; ks_mcast := ks_mcast s; ks_log := ks_log s |}.
Definition set_alloc a l s := {| ks_reg := ks_reg s; ks_family := ks_family s; ks_timer := ks_timer s; ks_now := ks_now s; ks_allocs := a; ks_live := l; ks_mcast := ks_mcast s; ks_log := ks_log s |}.
Definition add_mcast g bs s := {| ks_reg := ks_reg s; ks_family := ks_family s; ks_timer := ks_timer s; ks_now := ks_now s; ks_allocs := ks_allocs s; ks_live := ks_live s; ks_mcast := ks_mcast s ++ [(g, bs)]; ks_log := ks_log s |}.
Definition add_klog o s := {| ks_reg := ks_reg s; ks_family := ks_family s; ks_timer := ks_timer s; ks_now := ks_now s; ks_allocs := ks_allocs s; ks_live := ks_live s; ks_mcast := ks_mcast s; ks_log := ks_log s ++ [o] |}.

Definition printk (o : klog) : PM kstate unit := modifyS (add_klog o).

(** ** Constants of the kernel configuration

    [GFP_ATOMIC] is [__GFP_HIGH | __GFP_ATOMIC | __GFP_KSWAPD_RECLAIM]
    (Linux 4.15 to 6.3); [HZ] is 250, so [msecs_to_jiffies] rounds up
    to multiples of 4 ms. *)
Definition GFP_ATOMIC : Z := 2592.
Definition HZ : Z := 250.
Definition msecs_to_jiffies (m : Z) : Z := (m + 1000 / HZ - 1) / (1000 / HZ).
Definition HELLO_JIFFIES : Z := msecs_to_jiffies GENL_TEST_HELLO_INTERVAL.

(** [static struct genl_family genl_test_family]: before registration its
    id and group offset are still 0. *)
Definition genl_test_family_static : Kern.genl_family :=
  {| Kern.fam_id := 0; Kern.fam_version := 1; Kern.fam_hdrsize := 0;
     Kern.fam_maxattr := GENL_TEST_ATTR_MAX; Kern.fam_mcgrp_offset := 0;
     Kern.fam_n_mcgrps := Z.of_nat (length genl_test_mcgrp_names) |}.

Definition family_of (s : kstate) : Kern.genl_family := default genl_test_family_static (ks_family s).

(** ** [snprintf(msg, GENL_TEST_ATTR_MSG_MAX, "Hello group %s\n", name)] *)
Definition hello_text (name : string) : list Z :=
  bytes_of_string "Hello group " ++ bytes_of_string name ++ [10].

Definition snprintf_hello (name : string) : list Z :=
  take (Z.to_nat GENL_TEST_ATTR_MSG_MAX - 1) (hello_text name).

Section server.
Context (oom : nat → bool).

(** [genlmsg_new(NLMSG_DEFAULT_SIZE, flags)]: the [n]-th allocation fails
    when [oom n]. *)
Definition k_genlmsg_new (payload : Z) : PM kstate (option Kern.sk_buff) :=
  λ s, let ok := negb (oom (ks_allocs s)) in
       (Done (Kern.genlmsg_new ok payload),
        set_alloc (S (ks_allocs s)) (if ok then S (ks_live s) else ks_live s) s).

(** [genlmsg_cancel] then [nlmsg_free]: the buffer is released. *)
Definition k_free : PM kstate unit :=
  modifyS (λ s, set_alloc (ks_allocs s) (pred (ks_live s)) s).

(** [genlmsg_multicast(&family, skb, 0, group, flags)]: a group past the
    family's groups is refused (and the buffer kept); otherwise the
    message goes to [mcgrp_offset + group] and the buffer is consumed. *)
Definition k_genlmsg_multicast (fam : Kern.genl_family) (skb : Kern.sk_buff) (group : Z)
    : PM kstate unit :=
  if decide (Kern.fam_n_mcgrps fam ≤ group) then mret ()
  else modifyS (λ s, set_alloc (ks_allocs s) (pred (ks_live s))
                       (add_mcast (Kern.fam_mcgrp_offset fam + group) (Kern.skb_data skb) s)).

(** ** [greet_group] (lines 15-51) *)
Definition greet_group (group : Z) : PM kstate unit :=
  _ ← k_genlmsg_new Kern.NLMSG_DEFAULT_SIZE;                       (* line 20 *)
  name ← (match mcgrp_name group with
          | Some n => mret n
          | None => crashS "genl_test_mcgrp_names[group] out of bounds" end);
  let msg := snprintf_hello name in                                 (* line 22 *)
  skb ← k_genlmsg_new Kern.NLMSG_DEFAULT_SIZE;                      (* line 24 *)
  match skb with
  | None => printk (K_oom 27)
  | Some skb =>
      s ← getS;
      let fam := family_of s in
      match Kern.genlmsg_put skb 0 0 fam GFP_ATOMIC (cmd_val GENL_TEST_C_MSG) with
      | None => printk (K_unknown_err 33) ;; k_free
      | Some (skb, hdr) =>
          match Kern.nla_put_string skb (attr_val GENL_TEST_ATTR_MSG) msg with
          | inl e => printk (K_put_err 39 e) ;; k_free
          | inr skb => k_genlmsg_multicast fam (Kern.genlmsg_end skb hdr) group
          end
      end
  end.

(** ** [genl_test_periodic] (lines 53-64) *)
Definition genl_test_periodic : PM kstate unit :=
  greet_group (mcgrp_val GENL_TEST_MCGRP0) ;;
  greet_group (mcgrp_val GENL_TEST_MCGRP1) ;;
  greet_group (mcgrp_val GENL_TEST_MCGRP2) ;;
  modifyS (λ s, set_timer (Some (ks_now s + HELLO_JIFFIES)) s).

End server.

(** ** [genl_test_rx_msg] (lines 66-78)

    [info->attrs] is the table the receive path parsed; [%s] of
    [nla_data] reads up to the first NUL: when the attribute holds none,
    the read runs past the attribute. *)
Definition read_cstring (data : list Z) : option (list Z) :=
  if decide (NUL ∈ data) then Some (cstr data) else None.

Definition genl_test_rx_msg (snd_portid : Z) (attrs : attr_table) : PM kstate (errno + unit) :=
  match attrs !! attr_val GENL_TEST_ATTR_MSG with
  | None => printk (K_empty snd_portid) ;; printk K_null_attr ;; mret (inl EINVAL)
  | Some data =>
      match read_cstring data with
      | Some str => printk (K_says snd_portid str) ;; mret (inr ())
      | None => crashS "printk %s reads past the attribute"
      end
  end.

(** ** The generic-netlink receive path (kernel, modelled from the spec)

    [genl_test_ops] has one operation, [GENL_TEST_C_MSG] with
    [genl_test_policy] and [doit = genl_test_rx_msg]: the request is
    checked for its headers, routed to the family by [nlmsg_type], to the
    operation by command, and its attributes validated before [doit]. *)
Definition genl_rcv_msg (snd_portid : Z) (bs : list Z) : PM kstate (errno + unit) :=
  s ← getS;
  let len := Libnl.msg_len bs in
  match ks_family s with
  | None => mret (inl ENOENT)
  | Some fam =>
      if decide (len < NLMSG_HDRLEN + GENL_HDRLEN ∨ Z.of_nat (length bs) < len) then mret (inl EINVAL)
      else if decide (le_val (take 2 (drop 4 bs)) ≠ Kern.fam_id fam) then mret (inl ENOENT)
      else if decide (nth 16 bs 0 ≠ cmd_val GENL_TEST_C_MSG) then mret (inl EOPNOTSUPP)
      else
        match kernel_nla_parse (Kern.fam_maxattr fam) genl_test_policy_kernel
                (take (Z.to_nat (len - 20)) (drop 20 bs)) with
        | inl e => mret (inl e)
        | inr attrs => genl_test_rx_msg snd_portid attrs
        end
  end.

(** ** [genl_test_init] and [genl_test_exit] (lines 107-141) *)
Definition genl_test_init : PM kstate Z :=
  printk K_init ;;
  s ← getS;
  match genl_register_family GENL_TEST_FAMILY_NAME 1 GENL_TEST_ATTR_MAX genl_test_mcgrp_names
          (ks_reg s) with
  | inl _ => printk K_init_failed ;; mret (- 22)
  | inr (fam, r) =>
      modifyS (λ s, set_timer (Some (ks_now s + HELLO_JIFFIES)) (set_family (Some fam) (set_reg r s))) ;;
      mret 0
  end.

Definition genl_test_exit : PM kstate unit :=
  modifyS (λ s, set_family None (set_timer None (set_reg (genl_unregister_family GENL_TEST_FAMILY_NAME (ks_reg s)) s))).

(** ** The module's life *)
Inductive kstep (oom : nat → bool) : kstate → kstate → Prop :=
  | kstep_load s s' :
      ks_family s = None → genl_test_init s = (Done 0, s') → kstep oom s s'
  | kstep_timer s t :
      ks_timer s = Some t → t ≤ ks_now s →
      kstep oom s (genl_test_periodic oom (set_timer None s)).2
  | kstep_rx s portid bs :
      ks_family s ≠ None → kstep oom s (genl_rcv_msg portid bs s).2
  | kstep_tick s d :
      0 ≤ d → kstep oom s (set_now (ks_now s + d) s)
  | kstep_unload s :
      ks_family s ≠ None → kstep oom s (genl_test_exit s).2.

Inductive kreach (oom : nat → bool) (s0 : kstate) : kstate → Prop :=
  | kreach_refl : kreach oom s0 s0
  | kreach_step s s' : kreach oom s0 s → kstep oom s s' → kreach oom s0 s'.

(** * Properties of the module *)

(** ** The greeting a group receives *)
Definition hello_body (fam : Kern.genl_family) (name : string) : list Z :=
  genlmsghdr_bytes (cmd_val GENL_TEST_C_MSG) (Kern.fam_version fam)
    ++ nla_bytes (attr_val GENL_TEST_ATTR_MSG) (snprintf_hello name ++ [NUL]).

Definition hello_msg (fam : Kern.genl_family) (name : string) : list Z :=
  nlmsg_bytes {| nlmsg_len := 16 + Z.of_nat (length (hello_body fam name));
                 nlmsg_type := u16 (Kern.fam_id fam); nlmsg_flags := u16 GFP_ATOMIC;
                 nlmsg_seq := u32 0; nlmsg_pid := u32 0 |} (hello_body fam name).

Lemma mcgrp_name_Some g name :
  mcgrp_name g = Some name →
  0 ≤ g < 3 ∧ (NUL ∉ snprintf_hello name) ∧ length (snprintf_hello name) = 24%nat.
Proof.
  unfold mcgrp_name. case_decide; [|done]. intros Hg.
  destruct (Z.to_nat g) as [|[|[|n]]] eqn:E; simplify_eq/=;
    (split; [lia|split; [vm_compute; set_solver|reflexivity]]).
Qed.

(** The fields of the module's state a broadcast or a request leaves alone. *)
Definition kframe (s s' : kstate) : Prop :=
  ks_reg s' = ks_reg s ∧ ks_family s' = ks_family s ∧ ks_timer s' = ks_timer s ∧ ks_now s' = ks_now s.

(** [greet_group] on a valid group: the second allocation decides whether
    the group is greeted (or "OOM" printed); the first allocation is
    never freed, so every successful first allocation leaks a buffer. *)
Lemma greet_group_spec oom s fam g name :
  ks_family s = Some fam → Kern.fam_n_mcgrps fam = 3 → Kern.fam_hdrsize fam = 0 →
  mcgrp_name g = Some name →
  ∃ s', greet_group oom g s = (Done (), s') ∧
    ks_mcast s' = ks_mcast s ++ (if oom (S (ks_allocs s)) then []
                                 else [(Kern.fam_mcgrp_offset fam + g, hello_msg fam name)]) ∧
    ks_log s' = ks_log s ++ (if oom (S (ks_allocs s)) then [K_oom 27] else []) ∧
    ks_allocs s' = S (S (ks_allocs s)) ∧
    ks_live s' = (if oom (ks_allocs s) then ks_live s else S (ks_live s)) ∧
    kframe s s'.
Proof.
  intros Hf Hn Hh Hname. pose proof (mcgrp_name_Some g name Hname) as (Hg & Hnul & Hlen).
  unfold greet_group, k_genlmsg_new. unfold_pm. cbn -[Kern.genlmsg_put Kern.nla_put_string].
  rewrite Hname. cbn -[Kern.genlmsg_put Kern.nla_put_string].
  destruct (oom (ks_allocs s)) eqn:E1, (oom (S (ks_allocs s))) eqn:E2;
    cbn -[Kern.genlmsg_put Kern.nla_put_string];
    try (eexists; split; [reflexivity|]; cbn; unfold kframe; rewrite ?app_nil_r; by split_and!).
  all: unfold family_of; rewrite Hf; cbn -[Kern.genlmsg_put Kern.nla_put_string].
  all: rewrite kern_genlmsg_put_fresh by (done || (vm_compute; congruence)).
  all: unfold Kern.nla_put_string; rewrite cstr_no_nul by done.
  all: rewrite kern_nla_put_ok by (unfold Kern.skb_tailroom; cbn [Kern.skb_data];
         rewrite nlmsg_bytes_length, length_app, Hlen; vm_compute; congruence).
  all: unfold Kern.skb_put; cbn [Kern.skb_data Kern.skb_size]; rewrite nlmsg_bytes_app.
  all: rewrite kern_genlmsg_end_fresh; unfold k_genlmsg_multicast.
  all: rewrite Hn, decide_False by (clear -Hg; lia).
  all: unfold modifyS; eexists; split; [reflexivity|]; cbn; unfold kframe; rewrite ?app_nil_r.
  all: split_and!; try reflexivity; clear; lia.
Qed.

(** The greeting of group [g] when its second allocation, number [n],
    succeeds. *)
Definition greeting_if (oom : nat → bool) (n : nat) (fam : Kern.genl_family) (g : Z) (name : string)
    : list (Z * list Z) :=
  if oom n then [] else [(Kern.fam_mcgrp_offset fam + g, hello_msg fam name)].

Definition oom_log (oom : nat → bool) (n : nat) : list klog := if oom n then [K_oom 27] else [].

Definition leaked (oom : nat → bool) (n : nat) : nat := if oom n then 0 else 1.

Lemma greet_group_step oom s fam g name :
  ks_family s = Some fam → Kern.fam_n_mcgrps fam = 3 → Kern.fam_hdrsize fam = 0 →
  mcgrp_name g = Some name →
  ∃ s', greet_group oom g s = (Done (), s') ∧
    ks_mcast s' = ks_mcast s ++ greeting_if oom (S (ks_allocs s)) fam g name ∧
    ks_log s' = ks_log s ++ oom_log oom (S (ks_allocs s)) ∧
    ks_allocs s' = S (S (ks_allocs s)) ∧
    ks_live s' = (ks_live s + leaked oom (ks_allocs s))%nat ∧ kframe s s'.
Proof.
  intros Hf Hn Hh Hname.
  destruct (greet_group_spec oom s fam g name Hf Hn Hh Hname) as (s' & E & M & L & A & V & F).
  exists s'. unfold greeting_if, oom_log, leaked. rewrite V. split_and!; try done.
  destruct (oom (ks_allocs s)); lia.
Qed.

Lemma genl_test_periodic_run oom s fam :
  ks_family s = Some fam → Kern.fam_n_mcgrps fam = 3 → Kern.fam_hdrsize fam = 0 →
  ∃ s', genl_test_periodic oom s = (Done (), s') ∧
    ks_timer s' = Some (ks_now s + HELLO_JIFFIES) ∧
    ks_mcast s' = ks_mcast s
      ++ greeting_if oom (1 + ks_allocs s) fam 0 GENL_TEST_MCGRP0_NAME
      ++ greeting_if oom (3 + ks_allocs s) fam 1 GENL_TEST_MCGRP1_NAME
      ++ greeting_if oom (5 + ks_allocs s) fam 2 GENL_TEST_MCGRP2_NAME ∧
    ks_log s' = ks_log s ++ oom_log oom (1 + ks_allocs s) ++ oom_log oom (3 + ks_allocs s)
                  ++ oom_log oom (5 + ks_allocs s) ∧
    ks_live s' = (ks_live s + leaked oom (ks_allocs s) + leaked oom (2 + ks_allocs s)
                  + leaked oom (4 + ks_allocs s))%nat ∧
    ks_allocs s' = (6 + ks_allocs s)%nat ∧
    ks_reg s' = ks_reg s ∧ ks_family s' = ks_family s ∧ ks_now s' = ks_now s.
Proof.
  intros Hf Hn Hh. unfold genl_test_periodic.
  destruct (greet_group_step oom s fam 0 _ Hf Hn Hh eq_refl) as (s1 & E1 & M1 & L1 & A1 & V1 & R1 & F1 & T1 & N1).
  erewrite pm_bind_Done by exact E1. rewrite <-F1 in Hf.
  destruct (greet_group_step oom s1 fam 1 _ Hf Hn Hh eq_refl) as (s2 & E2 & M2 & L2 & A2 & V2 & R2 & F2 & T2 & N2).
  erewrite pm_bind_Done by exact E2. rewrite <-F2 in Hf.
  destruct (greet_group_step oom s2 fam 2 _ Hf Hn Hh eq_refl) as (s3 & E3 & M3 & L3 & A3 & V3 & R3 & F3 & T3 & N3).
  erewrite pm_bind_Done by exact E3.
  eexists. split; [reflexivity|]. cbn.
  rewrite M3, M2, M1, L3, L2, L1, V3, V2, V1, A2, A1, N3, N2, N1, R3, R2, R1, F3, F2, F1, A3, A2, A1.
  rewrite <-!app_assoc. split_and!; try done; lia.
Qed.

(** C4: one firing of the timer greets the three groups in the order 0, 1,
    2, each with its own fresh buffer: a group is skipped (with "OOM"
    printed) exactly when its own allocation fails, the others are sent
    regardless, and the timer is re-armed one interval ahead whatever
    happened.  Each greeting also leaks the buffer of its first
    [genlmsg_new]. *)
Theorem genl_test_periodic_spec oom s fam :
  ks_family s = Some fam → Kern.fam_n_mcgrps fam = 3 → Kern.fam_hdrsize fam = 0 →
  ∃ s', genl_test_periodic oom s = (Done (), s') ∧
    ks_timer s' = Some (ks_now s + HELLO_JIFFIES) ∧
    ks_mcast s' = ks_mcast s
      ++ greeting_if oom (1 + ks_allocs s) fam 0 GENL_TEST_MCGRP0_NAME
      ++ greeting_if oom (3 + ks_allocs s) fam 1 GENL_TEST_MCGRP1_NAME
      ++ greeting_if oom (5 + ks_allocs s) fam 2 GENL_TEST_MCGRP2_NAME ∧
    ks_log s' = ks_log s ++ oom_log oom (1 + ks_allocs s) ++ oom_log oom (3 + ks_allocs s)
                  ++ oom_log oom (5 + ks_allocs s) ∧
    ks_live s' = (ks_live s + leaked oom (ks_allocs s) + leaked oom (2 + ks_allocs s)
                  + leaked oom (4 + ks_allocs s))%nat ∧
    ks_allocs s' = (6 + ks_allocs s)%nat ∧
    ks_reg s' = ks_reg s ∧ ks_family s' = ks_family s ∧ ks_now s' = ks_now s.
Proof. exact (genl_test_periodic_run oom s fam). Qed.

(** C10: with no allocation failure, a firing sends the three greetings, in
    group order, and leaves three more buffers allocated for good. *)
Corollary genl_test_periodic_leaks s fam :
  ks_family s = Some fam → Kern.fam_n_mcgrps fam = 3 → Kern.fam_hdrsize fam = 0 →
  ∃ s', genl_test_periodic (λ _, false) s = (Done (), s') ∧
    ks_mcast s' = ks_mcast s ++
      [(Kern.fam_mcgrp_offset fam, hello_msg fam GENL_TEST_MCGRP0_NAME);
       (Kern.fam_mcgrp_offset fam + 1, hello_msg fam GENL_TEST_MCGRP1_NAME);
       (Kern.fam_mcgrp_offset fam + 2, hello_msg fam GENL_TEST_MCGRP2_NAME)] ∧
    ks_live s' = (ks_live s + 3)%nat.
Proof.
  intros Hf Hn Hh. destruct (genl_test_periodic_run (λ _, false) s fam Hf Hn Hh)
    as (s' & E & _ & M & _ & V & _).
  exists s'. rewrite M, V. unfold greeting_if, leaked. simpl. rewrite Z.add_0_r. split_and!; [done|done|lia].
Qed.

(** ** Requests: the receive path and [genl_test_rx_msg] *)

(** A request whose header routes it to the family and to [GENL_TEST_C_MSG]
    reaches [genl_test_rx_msg] with the table the kernel's [nla_parse]
    builds from its attributes, or is refused with the parser's error. *)
Lemma genl_rcv_msg_wire s fam portid h v stream :
  ks_family s = Some fam →
  nlmsg_len h = 20 + Z.of_nat (length stream) → nlmsg_len h < 2 ^ 32 →
  wrap 16 (nlmsg_type h) = Kern.fam_id fam →
  genl_rcv_msg portid (nlmsg_bytes h (genlmsghdr_bytes (cmd_val GENL_TEST_C_MSG) v ++ stream)) s =
  match kernel_nla_parse (Kern.fam_maxattr fam) genl_test_policy_kernel stream with
  | inl e => (Done (inl e), s)
  | inr attrs => genl_test_rx_msg portid attrs s
  end.
Proof.
  intros Hf Hl Hb Ht. unfold genl_rcv_msg. rewrite pm_bind_get, Hf.
  unfold Libnl.msg_len. rewrite nlmsg_bytes_len_field, wrap_small, nlmsg_bytes_type_field, Ht by lia.
  rewrite nlmsg_bytes_length, length_app, genlmsghdr_length.
  rewrite decide_False by (unfold NLMSG_HDRLEN, GENL_HDRLEN; lia).
  rewrite decide_False by tauto. rewrite nlmsg_bytes_cmd, decide_False by (vm_compute; tauto).
  rewrite (nlmsg_bytes_drop16 _ _ 4), drop_app_length' by done.
  rewrite take_ge by lia. by destruct (kernel_nla_parse _ _ _).
Qed.

(** C26: a request without the message attribute is logged as an empty
    message from its sender and refused with [-EINVAL]. *)
Theorem genl_test_rx_msg_absent s portid attrs :
  attrs !! attr_val GENL_TEST_ATTR_MSG = None →
  genl_test_rx_msg portid attrs s =
  (Done (inl EINVAL), add_klog K_null_attr (add_klog (K_empty portid) s)).
Proof. intros H. unfold genl_test_rx_msg. by rewrite H. Qed.

(** C25: a request whose message attribute holds a NUL is logged as "<port>
    says <text>" with the text up to that NUL, and accepted. *)
Theorem genl_test_rx_msg_says s portid attrs d :
  attrs !! attr_val GENL_TEST_ATTR_MSG = Some d → NUL ∈ d →
  genl_test_rx_msg portid attrs s = (Done (inr ()), add_klog (K_says portid (cstr d)) s).
Proof. intros H Hn. unfold genl_test_rx_msg, read_cstring. by rewrite H, decide_True. Qed.

(** C9: the kernel's policy lets through a message attribute of up to 256
    bytes with no NUL, and [genl_test_rx_msg] then prints it with [%s]:
    the read runs past the attribute. *)
Theorem genl_test_rx_msg_overread s fam portid seq d :
  ks_family s = Some fam → Kern.fam_maxattr fam = GENL_TEST_ATTR_MAX →
  0 ≤ Kern.fam_id fam < 2 ^ 16 →
  NUL ∉ d → 1 ≤ Z.of_nat (length d) ≤ GENL_TEST_ATTR_MSG_MAX →
  (genl_rcv_msg portid (request_bytes (Kern.fam_id fam) portid seq d) s).1 =
    Crashed "printk %s reads past the attribute".
Proof.
  intros Hf Hm Hid Hnul Hlen. unfold request_bytes.
  assert (Hlast : last d ≠ Some NUL) by (intros Hl%last_Some_elem_of; done).
  rewrite (genl_rcv_msg_wire s fam); [|done|..].
  - rewrite Hm, kernel_parse_string_attr; [|lia|rewrite decide_False by done; lia].
    unfold genl_test_rx_msg, read_cstring. by rewrite lookup_singleton_eq, decide_False.
  - cbn [nlmsg_len]. rewrite length_app, genlmsghdr_length. lia.
  - cbn [nlmsg_len]. rewrite length_app, genlmsghdr_length, nla_bytes_length.
    pose proof (NLA_ALIGN_bounds (nla_attr_size (Z.of_nat (length d)))).
    unfold nla_total_size, nla_attr_size in *. rewrite NLA_HDRLEN_eq in *. unfold_consts.
    change (2 ^ 32) with 4294967296. lia.
  - by apply wrap_small.
Qed.

(** ** The module's life *)

Lemma HELLO_JIFFIES_eq : HELLO_JIFFIES = 1250.
Proof. reflexivity. Qed.

(** What holds of the module in every reachable state: the family is
    registered (and resolvable by name) exactly while the module is
    loaded, and then the timer is pending, due at most one interval
    after the current time. *)
Definition kinv (s : kstate) : Prop :=
  match ks_family s with
  | None => ks_timer s = None ∧ genl_ctrl_resolve (ks_reg s) GENL_TEST_FAMILY_NAME = None
  | Some fam =>
      (∃ t, ks_timer s = Some t ∧ t ≤ ks_now s + HELLO_JIFFIES) ∧
      genl_ctrl_resolve (ks_reg s) GENL_TEST_FAMILY_NAME = Some (Kern.fam_id fam) ∧
      Kern.fam_n_mcgrps fam = 3 ∧ Kern.fam_hdrsize fam = 0 ∧
      Kern.fam_maxattr fam = GENL_TEST_ATTR_MAX ∧
      (∀ g name, mcgrp_name g = Some name →
         genl_ctrl_resolve_grp (ks_reg s) GENL_TEST_FAMILY_NAME name
         = Some (Kern.fam_mcgrp_offset fam + g))
  end.

Lemma mcgrp_names_NoDup : NoDup genl_test_mcgrp_names.
Proof. apply (bool_decide_unpack _). vm_compute. reflexivity. Qed.

Lemma mcgrp_name_lookup g name :
  mcgrp_name g = Some name → 0 ≤ g ∧ genl_test_mcgrp_names !! Z.to_nat g = Some name.
Proof. unfold mcgrp_name. case_decide; [done|done]. Qed.

Lemma kinv_frame s s' : kframe s s' → kinv s → kinv s'.
Proof. intros (Hr & Hf & Ht & Hn). unfold kinv. by rewrite Hr, Hf, Ht, Hn. Qed.

Lemma printk_kframe s0 o : preserves (kframe s0) (printk o).
Proof. apply preserves_modify. intros s (? & ? & ? & ?). done. Qed.

Lemma genl_test_rx_msg_kframe s0 portid attrs : preserves (kframe s0) (genl_test_rx_msg portid attrs).
Proof.
  unfold genl_test_rx_msg. destruct (attrs !! _) as [d|]; [destruct (read_cstring d)|];
    pm_preserves; auto using printk_kframe.
Qed.

Lemma genl_rcv_msg_kframe s0 portid bs : preserves (kframe s0) (genl_rcv_msg portid bs).
Proof.
  unfold genl_rcv_msg. pm_preserves. destruct (ks_family _); [|pm_preserves].
  repeat case_decide; pm_preserves. destruct (kernel_nla_parse _ _ _); [pm_preserves|].
  apply genl_test_rx_msg_kframe.
Qed.

Lemma kframe_refl s : kframe s s.
Proof. done. Qed.

Lemma kinv_load s s' : kinv s → ks_family s = None → genl_test_init s = (Done 0, s') → kinv s'.
Proof.
  intros Hinv Hf. unfold genl_test_init, printk. rewrite pm_bind_modify, pm_bind_get.
  destruct (genl_register_family _ _ _ _ _) as [e|[fam r]] eqn:E; [done|].
  pose proof (λ i grp, genl_register_family_grp _ _ _ _ _ _ _ i grp E mcgrp_names_NoDup) as Hgrp.
  apply genl_register_family_inr in E as (Hn & Hh & Hm & _ & Hres).
  intros [= <-]. unfold kinv. simpl. split_and!; [|done|done|done|done|].
  - eexists. split; [done|lia].
  - intros g name (Hg & Hl)%mcgrp_name_lookup. rewrite (Hgrp _ _ Hl). by rewrite Z2Nat.id.
Qed.

Lemma kinv_timer oom s t :
  kinv s → ks_timer s = Some t → kinv (genl_test_periodic oom (set_timer None s)).2.
Proof.
  unfold kinv. destruct (ks_family s) as [fam|] eqn:Hf; [|intros [Ht _] Ht'; congruence].
  intros ((t' & _ & _) & Hres & Hn & Hh & Hm & Hg) _.
  destruct (genl_test_periodic_run oom (set_timer None s) fam Hf Hn Hh)
    as (s' & -> & Ht & _ & _ & _ & _ & Hr & Hf' & Hnow).
  simpl in *. rewrite Hf', Hf, Ht, Hr, Hnow. split_and!; try done. eexists; split; [done|lia].
Qed.

Lemma kinv_reachable oom r now s :
  genl_ctrl_resolve r GENL_TEST_FAMILY_NAME = None →
  kreach oom (kstate_boot r now) s → kinv s.
Proof.
  intros Hr Hreach. induction Hreach as [|s s' _ IH Hstep]; [done|].
  destruct Hstep as [s s' Hf Hinit|s t Ht Hle|s portid bs Hf|s d Hd|s Hf].
  - by eapply kinv_load.
  - by eapply kinv_timer.
  - eapply kinv_frame; [|exact IH]. by apply (genl_rcv_msg_kframe s portid bs s).
  - revert IH. unfold kinv. simpl. destruct (ks_family s); [|done].
    intros ((t & Ht & Hle) & ?). split; [|done]. exists t. split; [done|lia].
  - unfold kinv. simpl. split; [done|]. apply unregister_resolve.
Qed.

(** C3: in every state reachable from boot (with the family name free in
    the controller), the family is registered and resolvable exactly
    while the module is loaded, and a loaded module always has its timer
    pending, due at most [HELLO_JIFFIES] ahead of the current time. *)
Theorem kreach_kinv oom r now s :
  genl_ctrl_resolve r GENL_TEST_FAMILY_NAME = None →
  kreach oom (kstate_boot r now) s → kinv s.
Proof. exact (kinv_reachable oom r now s). Qed.

(** C14: from every reachable state in which the module is loaded, letting
    [HELLO_JIFFIES] pass enables the timer, whose firing greets the three
    groups (each unless its own allocation fails) and re-arms it one
    interval after the new time. *)
Corollary kreach_greets oom r now s fam :
  genl_ctrl_resolve r GENL_TEST_FAMILY_NAME = None →
  kreach oom (kstate_boot r now) s → ks_family s = Some fam →
  ∃ s1 s2, kstep oom s s1 ∧ kstep oom s1 s2 ∧
    ks_now s2 = ks_now s + HELLO_JIFFIES ∧ ks_timer s2 = Some (ks_now s2 + HELLO_JIFFIES) ∧
    ks_mcast s2 = ks_mcast s
      ++ greeting_if oom (1 + ks_allocs s) fam 0 GENL_TEST_MCGRP0_NAME
      ++ greeting_if oom (3 + ks_allocs s) fam 1 GENL_TEST_MCGRP1_NAME
      ++ greeting_if oom (5 + ks_allocs s) fam 2 GENL_TEST_MCGRP2_NAME.
Proof.
  intros Hr Hreach Hf. pose proof (kinv_reachable oom r now s Hr Hreach) as Hinv.
  unfold kinv in Hinv. rewrite Hf in Hinv. destruct Hinv as ((t & Ht & Hle) & _ & Hn & Hh & _ & _).
  set (s1 := set_now (ks_now s + HELLO_JIFFIES) s).
  assert (Hf1 : ks_family (set_timer None s1) = Some fam) by exact Hf.
  destruct (genl_test_periodic_run oom (set_timer None s1) fam Hf1 Hn Hh)
    as (s2 & E & Ht2 & M & _ & _ & _ & _ & _ & Hnow).
  exists s1, s2. split_and!.
  - apply kstep_tick. rewrite HELLO_JIFFIES_eq. lia.
  - replace s2 with (genl_test_periodic oom (set_timer None s1)).2 by by rewrite E.
    by apply (kstep_timer oom s1 t).
  - done.
  - by rewrite Ht2, Hnow.
  - exact M.
Qed.

(** ** Witnesses: the module loaded at time 0 in a fresh controller *)
Definition demo_family : Kern.genl_family :=
  {| Kern.fam_id := 19; Kern.fam_version := 1; Kern.fam_hdrsize := 0;
     Kern.fam_maxattr := GENL_TEST_ATTR_MAX; Kern.fam_mcgrp_offset := 2; Kern.fam_n_mcgrps := 3 |}.

Definition demo_loaded : kstate := (genl_test_init (kstate_boot registry_init 0)).2.

Lemma demo_loaded_family : ks_family demo_loaded = Some demo_family.
Proof. vm_compute. reflexivity. Qed.

Lemma demo_loaded_reach : kreach (λ _, false) (kstate_boot registry_init 0) demo_loaded.
Proof.
  eapply kreach_step; [apply kreach_refl|].
  apply (kstep_load _ _ demo_loaded); [reflexivity|vm_compute; reflexivity].
Qed.

Lemma kreach_kinv_witness : kinv demo_loaded.
Proof. apply (kreach_kinv (λ _, false) registry_init 0); [reflexivity|exact demo_loaded_reach]. Defined.

Lemma kreach_greets_witness :
  ∃ s1 s2, kstep (λ _, false) demo_loaded s1 ∧ kstep (λ _, false) s1 s2 ∧ ks_now s2 = 1250.
Proof.
  destruct (kreach_greets (λ _, false) registry_init 0 demo_loaded demo_family eq_refl demo_loaded_reach
              demo_loaded_family) as (s1 & s2 & H1 & H2 & Hn & _).
  exists s1, s2. split_and!; [done|done|]. rewrite Hn. reflexivity.
Defined.

Lemma genl_test_periodic_spec_witness :
  ∃ s', genl_test_periodic (λ _, false) demo_loaded = (Done (), s') ∧ ks_timer s' = Some 1250.
Proof.
  destruct (genl_test_periodic_spec (λ _, false) demo_loaded demo_family demo_loaded_family
              eq_refl eq_refl) as (s' & E & Ht & _).
  exists s'. split; [done|]. rewrite Ht. reflexivity.
Defined.

Lemma genl_test_periodic_leaks_witness :
  ∃ s', genl_test_periodic (λ _, false) demo_loaded = (Done (), s') ∧ ks_live s' = 3%nat.
Proof.
  destruct (genl_test_periodic_leaks demo_loaded demo_family demo_loaded_family eq_refl eq_refl)
    as (s' & E & _ & Hl).
  exists s'. split; [done|]. rewrite Hl. reflexivity.
Defined.

Lemma genl_test_rx_msg_absent_witness :
  genl_test_rx_msg 7 ∅ demo_loaded =
  (Done (inl EINVAL), add_klog K_null_attr (add_klog (K_empty 7) demo_loaded)).
Proof. apply genl_test_rx_msg_absent. reflexivity. Defined.

Lemma genl_test_rx_msg_says_witness :
  genl_test_rx_msg 7 {[1 := [104; 105; 0]]} demo_loaded =
  (Done (inr ()), add_klog (K_says 7 [104; 105]) demo_loaded).
Proof. apply (genl_test_rx_msg_says _ _ _ [104; 105; 0]); [reflexivity|vm_compute; set_solver]. Defined.

Lemma genl_test_rx_msg_overread_witness :
  (genl_rcv_msg 7 (request_bytes 19 7 1 [104; 105]) demo_loaded).1 =
    Crashed "printk %s reads past the attribute".
Proof.
  apply (genl_test_rx_msg_overread demo_loaded demo_family); [exact demo_loaded_family|reflexivity|
    cbn; lia|vm_compute; set_solver|cbn; unfold_consts; lia].
Defined.
