(* ===== verification/System.v ===== *)
(** * The two peers together

    The client ([Client]) and the module ([Server]) meet in the kernel:
    the client asks the module's controller table ([Registry], through
    the [GenlCtrl] instance [registry_ctrl]) for the family and group
    ids, its requests reach [genl_rcv_msg], and the module's multicasts
    reach the sockets that joined their group.  [sys_env] is the client's
    environment in a kernel whose module state is [s], with every socket
    operation succeeding; [deliver] is the kernel's multicast delivery
    (modelled from the spec): each multicast whose group the socket
    joined arrives as one datagram, in order. *)
From S2P Require Import Prelude Header Nla Genl Cli Client Registry Server.

Definition sys_env (s : kstate) (port seq0 : Z) : nl_env registry :=
  {| env_ctrl := ks_reg s; env_sock_ok := true; env_connect_ok := true; env_port := port;
     env_seq0 := seq0; env_join_ok := λ _, true; env_alloc_ok := true; env_send_ok := true;
     env_send_err := -1; env_cb_ok := true |}.

Definition deliver (joined : list Z) (mcast : list (Z * list Z)) : list recv_event :=
  (λ gm : Z * list Z, R_data [gm.2]) <$> filter (λ gm : Z * list Z, gm.1 ∈ joined) mcast.

(** The text the module sends to group [g]. *)
Definition hello_of (g : Z) : list Z := snprintf_hello (default "" (mcgrp_name g)).

(** The groups of [gs], in group order. *)
Definition selected (gs : list Z) : list Z := filter (λ g, g ∈ gs) [0; 1; 2].

(** ** Lemmas *)

(** Delivery of one multicast per index [i] of [l], to group [f i]:
    a socket that joined the groups [f] of the selected indices gets
    exactly the multicasts of the selected indices. *)
Lemma deliver_selected (f : Z → Z) (h : Z → list Z) (P : Z → Prop) `{∀ x, Decision (P x)}
    (L l : list Z) :
  Inj eq eq f → l ⊆ L →
  deliver (f <$> filter P L) ((λ i, (f i, h i)) <$> l) = (λ i, R_data [h i]) <$> filter P l.
Proof.
  intros Hf Hl. unfold deliver. induction l as [|i l IH]; [done|].
  rewrite fmap_cons, !filter_cons. cbn [fst].
  assert (E : f i ∈ f <$> filter P L ↔ P i).
  { rewrite list_elem_of_fmap_inj, list_elem_of_filter by exact Hf. set_solver. }
  destruct (decide (P i)) as [Hp|Hp].
  - rewrite decide_True by tauto. cbn. f_equal. apply IH. set_solver.
  - rewrite decide_False by tauto. apply IH. set_solver.
Qed.

Lemma mcgrp_name_total i : 0 ≤ i < 3 → ∃ name, mcgrp_name i = Some name.
Proof. intros Hi. assert (i = 0 ∨ i = 1 ∨ i = 2) as [->|[->| ->]] by lia; by eexists. Qed.

(** The client prints the greeting the module sends to a group. *)
Lemma print_rx_msg_hello fam g name c :
  mcgrp_name g = Some name →
  print_rx_msg (hello_msg fam name) c =
  (Done NL_OK, set_args (add_out (O_kernel_says (snprintf_hello name)) (cl_args c)) c).
Proof.
  intros Hn. destruct (mcgrp_name_Some _ _ Hn) as (_ & Hnul & Hlen).
  unfold hello_msg, hello_body. apply print_rx_msg_string; [| |done|lia].
  - cbn [nlmsg_len]. rewrite length_app, genlmsghdr_length. lia.
  - cbn [nlmsg_len]. rewrite length_app, genlmsghdr_length, nla_bytes_length, length_app, Hlen.
    vm_compute. reflexivity.
Qed.

(** The receive loop over the greetings of groups [gs'] prints them in
    order and keeps waiting. *)
Lemma recv_loop_hellos fam gs' c :
  Forall (λ g, 0 ≤ g < 3) gs' →
  ∃ c', recv_loop ((λ g, R_data [hello_msg fam (default "" (mcgrp_name g))]) <$> gs') c = (Done None, c') ∧
    cl_groups c' = cl_groups c ∧
    cout_log (cl_args c') = cout_log (cl_args c) ++ ((λ g, O_kernel_says (hello_of g)) <$> gs').
Proof.
  intros Hall. revert c. induction Hall as [|g gs' Hg _ IH]; intros c.
  { exists c. by rewrite app_nil_r. }
  destruct (mcgrp_name_total g Hg) as [name Hn].
  set (c1 := set_args (add_out (O_kernel_says (snprintf_hello name)) (cl_args c)) c).
  destruct (IH c1) as (c' & E & Hgr & Hlog). exists c'.
  rewrite fmap_cons. cbn [recv_loop]. erewrite pm_bind_Done.
  2:{ unfold nl_recvmsgs. cbn [recv_msgs]. rewrite Hn. cbn [default].
      erewrite pm_bind_Done; [reflexivity|].
      erewrite pm_bind_Done; [reflexivity|]. by apply (print_rx_msg_hello fam g). }
  rewrite decide_True by done. split_and!; [exact E|exact Hgr|].
  rewrite Hlog. cbn. unfold hello_of. rewrite Hn. cbn. by rewrite <-app_assoc.
Qed.

(** The greetings one firing of the timer adds, without allocation
    failures. *)
Lemma genl_test_periodic_greetings s fam :
  ks_family s = Some fam → Kern.fam_n_mcgrps fam = 3 → Kern.fam_hdrsize fam = 0 →
  ∃ s', genl_test_periodic (λ _, false) s = (Done (), s') ∧
    drop (length (ks_mcast s)) (ks_mcast s') =
    (λ g, (Kern.fam_mcgrp_offset fam + g, hello_msg fam (default "" (mcgrp_name g)))) <$> [0; 1; 2].
Proof.
  intros Hf Hn Hh. destruct (genl_test_periodic_run (λ _, false) s fam Hf Hn Hh) as (s' & E & _ & M & _).
  exists s'. split; [done|]. by rewrite M, drop_app_length.
Qed.

(** * End to end *)

(** C1: a client started with [-l g0,g1,...] while the module is loaded
    joins the groups of the listed indices (by the ids the module's
    family was given) and, when the timer fires, prints "Kernel says:
    Hello group genl_mcgrp<i>" for exactly the listed groups, in group
    order, and keeps listening. *)
Theorem listen_receives_greetings r now s fam prog gs port seq0 :
  genl_ctrl_resolve r GENL_TEST_FAMILY_NAME = None →
  kreach (λ _, false) (kstate_boot r now) s → ks_family s = Some fam →
  gs ≠ [] → Forall (λ g, 0 ≤ g ≤ 2) gs →
  ∃ s' c', genl_test_periodic (λ _, false) s = (Done (), s') ∧
    main (sys_env s port seq0) [prog; [DASH; 108]; group_arg gs]
      (deliver (cl_groups c') (drop (length (ks_mcast s)) (ks_mcast s'))) client_init = (Done None, c') ∧
    cl_groups c' = (λ g, Kern.fam_mcgrp_offset fam + g) <$> selected gs ∧
    cout_log (cl_args c') = (λ g, O_kernel_says (hello_of g)) <$> selected gs.
Proof.
  intros Hr Hreach Hf Hne Hall.
  pose proof (kinv_reachable _ r now s Hr Hreach) as Hinv. unfold kinv in Hinv. rewrite Hf in Hinv.
  destruct Hinv as (_ & Hres & Hn & Hh & _ & Hgrp).
  destruct (genl_test_periodic_greetings s fam Hf Hn Hh) as (s' & Es & Hnew).
  set (gid := λ g, Kern.fam_mcgrp_offset fam + g).
  set (evs := deliver (gid <$> filter (λ i, i ∈ gs) [0; 1; 2]) (drop (length (ks_mcast s)) (ks_mcast s'))).
  destruct (main_listen_mode (sys_env s port seq0) prog gs evs (Kern.fam_id fam) gid Hne Hall
              eq_refl eq_refl) as (c1 & Hg1 & _ & _ & _ & Hlog & Hmain); [exact Hres| |done|].
  { intros i Hi. assert (0 ≤ i < 3) by (rewrite Forall_forall in Hall; specialize (Hall i Hi); lia).
    destruct (mcgrp_name_total i) as [name Hname]; [done|].
    exists name. split_and!; [done| |done]. by apply Hgrp. }
  assert (Hsel : Forall (λ g, 0 ≤ g < 3) (selected gs)).
  { apply Forall_forall. intros g Hg%list_elem_of_filter. destruct Hg as [_ Hg].
    set_unfold. lia. }
  destruct (recv_loop_hellos fam (selected gs) c1 Hsel) as (c' & Eloop & Hgr & Hlog').
  exists s', c'. split_and!; [done| | |].
  - rewrite Hgr, Hg1. subst evs. rewrite Hmain. unfold listen_tail.
    rewrite Hnew.
    rewrite (deliver_selected gid (λ g, hello_msg fam (default "" (mcgrp_name g))) _ [0; 1; 2]);
      [|intros x y; unfold gid; lia|done].
    rewrite (pm_bind_Done _ _ c1 None c'); [reflexivity|]. exact Eloop.
  - by rewrite Hgr, Hg1.
  - by rewrite Hlog', Hlog.
Qed.

(** The module's handling of a request whose message attribute is a C
    string: it logs the string with the sender's port and accepts. *)
Lemma genl_rcv_msg_request s fam port seq str :
  ks_family s = Some fam → Kern.fam_maxattr fam = GENL_TEST_ATTR_MAX →
  0 ≤ Kern.fam_id fam < 2 ^ 16 → NUL ∉ str → (length str ≤ 255)%nat →
  genl_rcv_msg port (request_bytes (u16 (Kern.fam_id fam)) port seq (str ++ [NUL])) s =
  (Done (inr ()), add_klog (K_says port str) s).
Proof.
  intros Hf Hm Hid Hnul Hlen. unfold request_bytes.
  rewrite (genl_rcv_msg_wire s fam); [|done|..].
  - rewrite Hm, kernel_parse_string_attr.
    + unfold genl_test_rx_msg, read_cstring. rewrite lookup_singleton_eq, decide_True by set_solver.
      by rewrite cstr_app_nul.
    + rewrite length_app. simpl. lia.
    + case_decide; rewrite length_app; simpl; unfold_consts; lia.
  - cbn [nlmsg_len]. rewrite length_app, genlmsghdr_length. lia.
  - cbn [nlmsg_len]. rewrite length_app, genlmsghdr_length, nla_bytes_length.
    pose proof (nla_total_size_bounds (Z.of_nat (length (str ++ [NUL])))).
    rewrite length_app in *. simpl length in *. change (2 ^ 32) with 4294967296. lia.
  - cbn [nlmsg_type]. unfold u16. rewrite (wrap_small 16 (Kern.fam_id fam)) by lia. by apply wrap_small.
Qed.

(** C2: a client started with [-s -m msg] while the module is loaded sends
    one request, which the module logs as "<port> says <msg>" (the first
    255 bytes of [msg]) and accepts; the client exits with
    [EXIT_SUCCESS]. *)
Theorem send_logged_by_kernel oom r now s fam prog msg port seq0 :
  genl_ctrl_resolve r GENL_TEST_FAMILY_NAME = None →
  kreach oom (kstate_boot r now) s → ks_family s = Some fam → 0 ≤ Kern.fam_id fam < 2 ^ 16 →
  NUL ∉ msg → msg ≠ [] →
  ∃ c' bs, main (sys_env s port seq0) [prog; [DASH; 115]; [DASH; 109]; msg] [] client_init
           = (Exited EXIT_SUCCESS, c') ∧
    cl_sent c' = [bs] ∧
    genl_rcv_msg port bs s = (Done (inr ()), add_klog (K_says port (take 255 msg)) s).
Proof.
  intros Hr Hreach Hf Hid Hnul Hne.
  pose proof (kinv_reachable _ r now s Hr Hreach) as Hinv. unfold kinv in Hinv. rewrite Hf in Hinv.
  destruct Hinv as (_ & Hres & _ & _ & Hm & _).
  destruct (main_send_mode (sys_env s port seq0) prog msg [] (Kern.fam_id fam) Hnul Hne eq_refl eq_refl)
    as (st & Hmsg & Hl & Emain); [exact Hres|].
  pose proof (send_msg_to_kernel_sends (sys_env s port seq0)
                (set_seq_check false (set_sock (Some (sock_init (sys_env s port seq0)))
                                                (set_args st client_init)))
                (Kern.fam_id fam) (sock_init (sys_env s port seq0)) Hres eq_refl eq_refl eq_refl
                eq_refl ltac:(cbn; lia)) as Esend.
  cbn [cl_args set_seq_check set_sock set_args] in Esend. rewrite Hmsg in Esend.
  eexists _, _. split_and!.
  - rewrite Emain. erewrite pm_bind_Done by exact Esend. reflexivity.
  - reflexivity.
  - apply genl_rcv_msg_request; [done|done|done| |].
    + by apply take_no_nul.
    + rewrite length_take. lia.
Qed.

(** ** Witnesses: the module loaded at time 0 in a fresh controller *)
Lemma listen_receives_greetings_witness :
  ∃ s' c', genl_test_periodic (λ _, false) demo_loaded = (Done (), s') ∧
    main (sys_env demo_loaded 100 1) [[120]; [DASH; 108]; group_arg [0; 2]]
      (deliver (cl_groups c') (drop (length (ks_mcast demo_loaded)) (ks_mcast s'))) client_init
      = (Done None, c') ∧
    cl_groups c' = [2; 4] ∧
    cout_log (cl_args c') = [O_kernel_says (bytes_of_string "Hello group genl_mcgrp0
"); O_kernel_says (bytes_of_string "Hello group genl_mcgrp2
")].
Proof.
  destruct (listen_receives_greetings registry_init 0 demo_loaded demo_family [120] [0; 2] 100 1
              eq_refl demo_loaded_reach demo_loaded_family ltac:(discriminate)
              ltac:(repeat constructor; lia)) as (s' & c' & E & M & G & L).
  exists s', c'. split_and!; [exact E|exact M| |].
  - rewrite G. vm_compute. reflexivity.
  - rewrite L. vm_compute. reflexivity.
Defined.

Lemma send_logged_by_kernel_witness :
  ∃ c' bs, main (sys_env demo_loaded 100 1) argv_ping [] client_init = (Exited EXIT_SUCCESS, c') ∧
    cl_sent c' = [bs] ∧
    genl_rcv_msg 100 bs demo_loaded
    = (Done (inr ()), add_klog (K_says 100 (bytes_of_string "ping")) demo_loaded).
Proof.
  destruct (send_logged_by_kernel (λ _, false) registry_init 0 demo_loaded demo_family [120]
              (bytes_of_string "ping") 100 1 eq_refl demo_loaded_reach demo_loaded_family
              ltac:(cbn; lia) ltac:(vm_compute; set_solver) ltac:(discriminate))
    as (c' & bs & M & S & K).
  exists c', bs. split_and!; [exact M|exact S|exact K].
Defined.
